(** * VCD to PulseView CSV converter: a shallow embedding of
      [tools/vcd_to_pulseview_csv.py] and the properties of its
      sanitizer, signal selector and two emission engines.

    Conventions of the embedding.
    - A Python [str] is a [string]; a character is an [ascii], read as a
      code point below 256.  The input of the conversion is the list of
      lines that [f.read().splitlines()] returns.  The time
      specifications of the command line are lists of code points of any
      size ([ustr]): their pattern ignores case, which lets two
      characters above 255 in.
    - A Python [int] is a [Z]; a Python [float] is a primitive binary64
      [float], so products, sums and comparisons of times round exactly as
      they do in the program.
    - An insertion-ordered [dict] that the program iterates over is an
      association list with unique keys; the value map [cur_vals], which is
      only looked up and updated by key, is a [gmap string string].
    - [sys.exit(1)] and uncaught exceptions end a run; the state machines
      below record them in a status field, and a state that is not running
      ignores all further lines. *)

From Stdlib Require Import ZArith String Ascii List Bool Lia DecimalString.
From Stdlib Require Import Sorting.Sorted Sorting.Permutation.
From Stdlib Require Import Floats.
From Stdlib Require Import DecimalPos DecimalN.
From stdpp Require Import base option list gmap strings.

Local Open Scope Z_scope.

(* ===================================================================== *)
(** * Python string primitives                                            *)
(* ===================================================================== *)

Module PyStr.

Definition chars (s : string) : list ascii := list_ascii_of_string s.
Definition str (l : list ascii) : string := string_of_list_ascii l.

Definition code (c : ascii) : N := N_of_ascii c.

(** [str.isspace] and the regex class [\s] on code points below 256. *)
Definition isspace (c : ascii) : bool :=
  let n := code c in
  ((9 <=? n) && (n <=? 13) || (28 <=? n) && (n <=? 32)
   || (n =? 133) || (n =? 160))%N.

(** The regex class [\d]: the decimal digits below 256 are [0-9]. *)
Definition isdigit (c : ascii) : bool :=
  let n := code c in ((48 <=? n) && (n <=? 57))%N.

Definition digit_val (c : ascii) : Z := Z.of_N (code c) - 48.

(** [str.lower] on one character (ASCII and Latin-1 capitals). *)
Definition lower_char (c : ascii) : ascii :=
  let n := code c in
  if ((65 <=? n) && (n <=? 90))%N then ascii_of_N (n + 32)
  else if ((192 <=? n) && (n <=? 222) && negb (n =? 215))%N
       then ascii_of_N (n + 32)
  else c.

Definition lower (s : string) : string := str (map lower_char (chars s)).

Fixpoint drop_while (p : ascii -> bool) (l : list ascii) : list ascii :=
  match l with
  | [] => []
  | c :: r => if p c then drop_while p r else l
  end.

Fixpoint take_while (p : ascii -> bool) (l : list ascii) : list ascii :=
  match l with
  | [] => []
  | c :: r => if p c then c :: take_while p r else []
  end.

Definition lstrip_l (l : list ascii) := drop_while isspace l.
Definition rstrip_l (l : list ascii) := rev (drop_while isspace (rev l)).
Definition strip_l (l : list ascii) := rstrip_l (lstrip_l l).

Definition rstrip (s : string) : string := str (rstrip_l (chars s)).
Definition strip (s : string) : string := str (strip_l (chars s)).

(** [s.split()]: maximal runs of non-whitespace characters. *)
Fixpoint split_ws_aux (l : list ascii) (cur : list ascii)
  : list (list ascii) :=
  match l with
  | [] => match cur with [] => [] | _ => [rev cur] end
  | c :: r =>
      if isspace c
      then match cur with
           | [] => split_ws_aux r []
           | _ => rev cur :: split_ws_aux r []
           end
      else split_ws_aux r (c :: cur)
  end.

Definition split (s : string) : list string :=
  map str (split_ws_aux (chars s) []).

Fixpoint is_prefix (p l : list ascii) : bool :=
  match p, l with
  | [], _ => true
  | _ :: _, [] => false
  | a :: p', b :: l' => Ascii.eqb a b && is_prefix p' l'
  end.

(** [needle in hay] for strings. *)
Fixpoint contains_l (needle hay : list ascii) : bool :=
  is_prefix needle hay
  || match hay with
     | [] => false
     | _ :: hay' => contains_l needle hay'
     end.

Definition contains (needle hay : string) : bool :=
  contains_l (chars needle) (chars hay).

Definition startswith (s p : string) : bool := is_prefix (chars p) (chars s).
Definition endswith (s p : string) : bool :=
  is_prefix (rev (chars p)) (rev (chars s)).

Definition len (s : string) : Z := Z.of_nat (String.length s).

(** [s.rjust(width, fill)]: pads on the left up to [width]; a string
    that is already that long is returned unchanged. *)
Definition rjust (s : string) (width : Z) (fill : ascii) : string :=
  str (repeat fill (Z.to_nat (width - len s)) ++ chars s).

(** [s[i]]: a negative index counts from the end; [None] stands for
    [IndexError]. *)
Definition index (s : string) (i : Z) : option string :=
  let j := if i <? 0 then i + len s else i in
  if j <? 0 then None
  else match nth_error (chars s) (Z.to_nat j) with
       | Some c => Some (String c EmptyString)
       | None => None
       end.

Fixpoint join (sep : string) (l : list string) : string :=
  match l with
  | [] => EmptyString
  | [x] => x
  | x :: r => String.append x (String.append sep (join sep r))
  end.

(** Value of a run of decimal digits, most significant first. *)
Definition digits_val (l : list ascii) : Z :=
  fold_left (fun acc c => 10 * acc + digit_val c) l 0.

(** Digit groups separated by single underscores ([1_000]). *)
Fixpoint int_body (l : list ascii) (acc : Z) (after_digit : bool)
  : option Z :=
  match l with
  | [] => if after_digit then Some acc else None
  | c :: r =>
      if isdigit c then int_body r (10 * acc + digit_val c) true
      else if Ascii.eqb c "_"%char && after_digit
           then match r with
                | d :: _ => if isdigit d then int_body r acc false else None
                | [] => None
                end
      else None
  end.

(** [int(s)] in base ten; [None] stands for [ValueError]. *)
Definition int (s : string) : option Z :=
  match strip_l (chars s) with
  | c :: r =>
      if Ascii.eqb c "-"%char then Z.opp <$> int_body r 0 false
      else if Ascii.eqb c "+"%char then int_body r 0 false
      else int_body (c :: r) 0 false
  | [] => None
  end.

(** [int(g)] for a group [g] matched by [\d+].  (The interpreter's limit
    on the length of a decimal string is not modelled.) *)
Definition int_of_digits (g : string) : Z := digits_val (chars g).

(** [str(n)] for a non-negative integer. *)
Definition of_nonneg (n : Z) : string :=
  NilZero.string_of_uint (N.to_uint (Z.to_N n)).

End PyStr.

(* ===================================================================== *)
(** * The value sanitizer                                                 *)
(* ===================================================================== *)

(** [sanitize_bit(val, prev)], lines 146-168. *)
Definition sanitize_bit (val prev : string) : string :=
  let v := PyStr.lower val in
  if bool_decide (v = "0"%string) || bool_decide (v = "1"%string) then v
  else if bool_decide (v = "z"%string) then "1"%string
  else if bool_decide (prev = "0"%string) || bool_decide (prev = "1"%string)
       then prev
  else "1"%string.

(* ===================================================================== *)
(** * Python floats                                                       *)
(* ===================================================================== *)

(** Uncaught exceptions the conversion can raise. *)
Inductive pyexc :=
| OverflowError
| KeyError (key : string)
| IndexError
| TypeError.

Module PyFloat.

Local Open Scope float_scope.

(** [float(n)] for an [int]: correctly rounded (ties to even), and
    [OverflowError] ([None]) when the rounded value is not finite. *)
Definition of_int (n : Z) : option float :=
  match binary_normalize prec emax n 0 false with
  | S754_infinity _ => None
  | sf => Some (SF2Prim sf)
  end.

(** [n * f] with [n] an [int] and [f] a [float]. *)
Definition int_mul (n : Z) (f : float) : option float :=
  (fun x => x * f) <$> of_int n.

(** Python's [a > b] and [a <= b] on floats. *)
Definition gt (a b : float) : bool := b <? a.
Definition le (a b : float) : bool := a <=? b.
Definition lt (a b : float) : bool := a <? b.

(** The integer nearest to [m * 2^e], ties to the even one. *)
Definition round_half_even (m e : Z) : Z :=
  if (0 <=? e)%Z then (m * 2 ^ e)%Z
  else
    let den := (2 ^ (- e))%Z in
    let q := (m / den)%Z in
    let r := (m mod den)%Z in
    match (2 * r ?= den)%Z with
    | Lt => q
    | Gt => (q + 1)%Z
    | Eq => if Z.even q then q else (q + 1)%Z
    end.

Definition zfill12 (s : string) : string :=
  PyStr.rjust s 12 "0"%char.

(** The format [.12f]: fixed point, twelve fractional digits, correctly
    rounded from the exact binary value. *)
Definition format_12f (x : float) : string :=
  match Prim2SF x with
  | S754_nan => "nan"%string
  | S754_infinity s => if s then "-inf"%string else "inf"%string
  | S754_zero s =>
      String.append (if s then "-"%string else EmptyString)
      "0.000000000000"%string
  | S754_finite s m e =>
      let q := round_half_even (Zpos m * 10 ^ 12) e in
      String.append (if s then "-"%string else EmptyString)
        (String.append (PyStr.of_nonneg (q / 10 ^ 12))
           (String.append "."%string
              (zfill12 (PyStr.of_nonneg (q mod 10 ^ 12)))))
  end.

(** The literals [1e-3] and [1e-12], as the binary64 values nearest
    to them. *)
Definition lit_1e_3 : float := 0x1.0624dd2f1a9fcp-10.
Definition lit_1e_12 : float := 0x1.19799812dea11p-40.

End PyFloat.

(* ===================================================================== *)
(** * The regular expressions of the module                               *)
(* ===================================================================== *)

Section Regex.

Import PyStr.

Definition all_space (l : list ascii) : bool := forallb isspace l.
Definition nonspace (c : ascii) : bool := negb (isspace c).

(** The class [[01xXzZ]]. *)
Definition is_bitchar (c : ascii) : bool :=
  existsb (Ascii.eqb c)
    ["0"%char; "1"%char; "x"%char; "X"%char; "z"%char; "Z"%char].

(** [RE_TIME = ^#(\d+)\s*$]; returns group 1. *)
Definition RE_TIME (line : string) : option string :=
  match chars line with
  | c :: r =>
      if Ascii.eqb c "#"%char then
        let ds := take_while isdigit r in
        match ds with
        | [] => None
        | _ => if all_space (drop_while isdigit r)
               then Some (str ds) else None
        end
      else None
  | [] => None
  end.

(** [RE_SCALAR = ^([01xXzZ])(\S+)\s*$]; returns groups 1 and 2. *)
Definition RE_SCALAR (line : string) : option (string * string) :=
  match chars line with
  | c :: r =>
      if is_bitchar c then
        let sid := take_while nonspace r in
        match sid with
        | [] => None
        | _ => if all_space (drop_while nonspace r)
               then Some (str [c], str sid) else None
        end
      else None
  | [] => None
  end.

(** [RE_VECTOR = ^[bB]([01xXzZ]+)\s+(\S+)\s*$]; returns groups 1, 2. *)
Definition RE_VECTOR (line : string) : option (string * string) :=
  match chars line with
  | c :: r =>
      if Ascii.eqb c "b"%char || Ascii.eqb c "B"%char then
        let bits := take_while is_bitchar r in
        let r1 := drop_while is_bitchar r in
        let r2 := drop_while isspace r1 in
        let sid := take_while nonspace r2 in
        match bits, take_while isspace r1, sid with
        | _ :: _, _ :: _, _ :: _ =>
            if all_space (drop_while nonspace r2)
            then Some (str bits, str sid) else None
        | _, _, _ => None
        end
      else None
  | [] => None
  end.

Definition is_s (c : ascii) : bool :=
  Ascii.eqb c "s"%char || Ascii.eqb c "S"%char.

Definition is_unit_prefix (c : ascii) : bool :=
  existsb (Ascii.eqb (lower_char c))
    ["f"%char; "p"%char; "n"%char; "u"%char; "m"%char; "k"%char].

(** [RE_TS]: optional leading whitespace (group 1), [(\d+)] (group 2),
    [\s*], [([fpnumk]?s)] (group 3), [\s*$], with [re.IGNORECASE];
    returns groups 2 and 3. *)
Definition RE_TS (line : string) : option (string * string) :=
  let l1 := drop_while isspace (chars line) in
  let ds := take_while isdigit l1 in
  match ds, drop_while isspace (drop_while isdigit l1) with
  | _ :: _, c :: r =>
      if is_s c then
        if all_space r then Some (str ds, str [c]) else None
      else if is_unit_prefix c then
        match r with
        | s :: r' =>
            if is_s s && all_space r' then Some (str ds, str [c; s])
            else None
        | [] => None
        end
      else None
  | _, _ => None
  end.

(** [$] matches at the end of the string and just before a newline
    that ends it. *)
Definition drop_final_newline (rl : list ascii) : list ascii :=
  match rl with
  | c :: r => if Ascii.eqb c "010"%char then r else rl
  | [] => rl
  end.

Definition not_newline (c : ascii) : bool := negb (Ascii.eqb c "010"%char).

(** [RE_BUSBIT = ^(.+)\[(\d+)\]$]; returns groups 1 and 2. *)
Definition RE_BUSBIT (name : string) : option (string * string) :=
  match drop_final_newline (rev (chars name)) with
  | c :: r =>
      if Ascii.eqb c "]"%char then
        let ds := take_while isdigit r in
        match ds, drop_while isdigit r with
        | _ :: _, o :: b =>
            match b with
            | _ :: _ =>
                if Ascii.eqb o "["%char && forallb not_newline b
                then Some (str (rev b), str (rev ds)) else None
            | [] => None
            end
        | _, _ => None
        end
      else None
  | [] => None
  end.

(** [re.match(r'\[(\d+):(\d+)\]', rng)]: a match at the start of [rng]. *)
Definition RE_RANGE (rng : string) : option (string * string) :=
  match chars rng with
  | c :: r =>
      if Ascii.eqb c "["%char then
        let d1 := take_while isdigit r in
        match d1, drop_while isdigit r with
        | _ :: _, colon :: r1 =>
            if Ascii.eqb colon ":"%char then
              let d2 := take_while isdigit r1 in
              match d2, drop_while isdigit r1 with
              | _ :: _, close :: _ =>
                  if Ascii.eqb close "]"%char
                  then Some (str d1, str d2) else None
              | _, _ => None
              end
            else None
        | _, _ => None
        end
      else None
  | [] => None
  end.

End Regex.

(* ===================================================================== *)
(** * Insertion-ordered dictionaries with string keys                     *)
(* ===================================================================== *)

Module ODict.
Section WithValue.
Context {V : Type}.

Definition t := list (string * V).

Fixpoint get (k : string) (d : t) : option V :=
  match d with
  | [] => None
  | (k', v) :: r => if String.eqb k k' then Some v else get k r
  end.

Definition mem (k : string) (d : t) : bool :=
  match get k d with Some _ => true | None => false end.

(** [d[k] = v]: an existing key keeps its position. *)
Fixpoint set (k : string) (v : V) (d : t) : t :=
  match d with
  | [] => [(k, v)]
  | (k', v') :: r =>
      if String.eqb k k' then (k', v) :: r else (k', v') :: set k v r
  end.

(** [d.setdefault(k, v)], for its effect on [d]. *)
Definition setdefault (k : string) (v : V) (d : t) : t :=
  if mem k d then d else d ++ [(k, v)].

Definition keys (d : t) : list string := map fst d.
Definition values (d : t) : list V := map snd d.
End WithValue.
Arguments t : clear implicits.
End ODict.

(* ===================================================================== *)
(** * Header parsing                                                      *)
(* ===================================================================== *)

(** [parse_var_line(line)], lines 89-115: [(width, sid, ref, rng)]. *)
Definition parse_var_line (line : string)
  : option (Z * string * string * option string) :=
  match PyStr.split line with
  | t0 :: _ :: t2 :: t3 :: t4 :: rest =>
      if negb (String.eqb t0 "$var") then None
      else
        match PyStr.int t2 with
        | None => None
        | Some width =>
            let rng :=
              match rest with
              | t5 :: _ :: _ =>
                  if PyStr.startswith t5 "[" && PyStr.endswith t5 "]"
                  then Some t5 else None
              | _ => None
              end in
            Some (width, t3, t4, rng)
        end
  | _ => None
  end.

(** [UNIT_TO_PS], lines 79-86. *)
Definition UNIT_TO_PS (unit : string) : option float :=
  if String.eqb unit "fs" then Some PyFloat.lit_1e_3
  else if String.eqb unit "ps" then Some 1%float
  else if String.eqb unit "ns" then Some 1e3%float
  else if String.eqb unit "us" then Some 1e6%float
  else if String.eqb unit "ms" then Some 1e9%float
  else if String.eqb unit "s" then Some 1e12%float
  else None.

(** [parse_timescale(lines)], lines 118-143; the outer [None] is an
    [OverflowError] of the product [factor * UNIT_TO_PS[unit]]. *)
Fixpoint parse_timescale_loop (lines : list string) (in_ts : bool)
    (ts_factor_ps : float) : option float :=
  match lines with
  | [] => Some ts_factor_ps
  | line :: rest =>
      let line_stripped := PyStr.strip line in
      if String.eqb line_stripped "$timescale"
      then parse_timescale_loop rest true ts_factor_ps
      else if in_ts then
        match RE_TS line with
        | Some (factor_str, unit) =>
            let factor := PyStr.int_of_digits factor_str in
            match UNIT_TO_PS (PyStr.lower unit) with
            | None => Some ts_factor_ps
            | Some u =>
                match PyFloat.int_mul factor u with
                | None => None
                | Some ts' =>
                    if String.eqb line_stripped "$end" then Some ts'
                    else parse_timescale_loop rest in_ts ts'
                end
            end
        | None =>
            if String.eqb line_stripped "$end" then Some ts_factor_ps
            else parse_timescale_loop rest in_ts ts_factor_ps
        end
      else parse_timescale_loop rest in_ts ts_factor_ps
  end.

Definition parse_timescale (lines : list string) : option float :=
  parse_timescale_loop lines false 1%float.

(** A bus declaration, the tuple [(ref, base, msb, lsb, width)]. *)
Record bus_def := BusDef {
  bd_ref : string;
  bd_base : string;
  bd_msb : Z;
  bd_lsb : Z;
  bd_width : Z
}.

(** The header loop of [vcd_to_csv], lines 305-325. *)
Fixpoint parse_header (lines : list string)
    (scalar_name2id : ODict.t string) (bus_defs : ODict.t bus_def)
  : ODict.t string * ODict.t bus_def :=
  match lines with
  | [] => (scalar_name2id, bus_defs)
  | line :: rest =>
      if PyStr.contains "$enddefinitions" line
      then (scalar_name2id, bus_defs)
      else
        match parse_var_line line with
        | None => parse_header rest scalar_name2id bus_defs
        | Some (width, sid, ref, rng) =>
            if width =? 1
            then parse_header rest (ODict.setdefault ref sid scalar_name2id)
                   bus_defs
            else
              let default := (width - 1, 0) in
              let '(msb, lsb) :=
                match rng with
                | Some r =>
                    match RE_RANGE r with
                    | Some (m, l) =>
                        (PyStr.int_of_digits m, PyStr.int_of_digits l)
                    | None => default
                    end
                | None => default
                end in
              parse_header rest scalar_name2id
                (ODict.set sid (BusDef ref ref msb lsb width) bus_defs)
        end
  end.

(* ===================================================================== *)
(** * Signal selection                                                    *)
(* ===================================================================== *)

(** The range test of line 356. *)
Definition in_range (msb lsb idx : Z) : bool :=
  ((lsb <=? msb) && (lsb <=? idx) && (idx <=? msb))
  || ((msb <? lsb) && (msb <=? idx) && (idx <=? lsb)).

(** Lines 358-361: position of bit [idx] in a payload written MSB first. *)
Definition bit_offset (msb lsb idx : Z) : Z :=
  if lsb <=? msb then msb - idx else idx - msb.

(** The loop over [bus_defs.items()], lines 353-364: the first bus whose
    base is [base] and whose range holds [idx]. *)
Fixpoint find_bus (base : string) (idx : Z) (bus_defs : ODict.t bus_def)
  : option (string * Z * Z) :=
  match bus_defs with
  | [] => None
  | (sid, d) :: rest =>
      if negb (String.eqb (bd_base d) base) then find_bus base idx rest
      else if in_range (bd_msb d) (bd_lsb d) idx
           then Some (sid, bit_offset (bd_msb d) (bd_lsb d) idx, bd_width d)
      else find_bus base idx rest
  end.

(** An entry [(bit_name, offset_from_MSB, width)] of [busid_to_bits]. *)
Definition bus_bit : Type := string * Z * Z.

(** [d.setdefault(k, []).append(x)]. *)
Definition append_at {A} (k : string) (x : A) (d : ODict.t (list A))
  : ODict.t (list A) :=
  match ODict.get k d with
  | Some l => ODict.set k (l ++ [x]) d
  | None => d ++ [(k, [x])]
  end.

Record picked := Picked {
  scalar_selected_names : list string;
  busid_to_bits : ODict.t (list bus_bit);
  missing : list string
}.

(** One round of the loop over [wanted_signals], lines 341-368. *)
Definition pick_one (scalar_name2id : ODict.t string)
    (bus_defs : ODict.t bus_def) (acc : picked) (n : string) : picked :=
  if ODict.mem n scalar_name2id
  then Picked (scalar_selected_names acc ++ [n]) (busid_to_bits acc)
         (missing acc)
  else
    match RE_BUSBIT n with
    | Some (base, idx_str) =>
        match find_bus base (PyStr.int_of_digits idx_str) bus_defs with
        | Some (sid, off, width) =>
            Picked (scalar_selected_names acc)
              (append_at sid (n, off, width) (busid_to_bits acc))
              (missing acc)
        | None =>
            Picked (scalar_selected_names acc) (busid_to_bits acc)
              (missing acc ++ [n])
        end
    | None =>
        Picked (scalar_selected_names acc) (busid_to_bits acc)
          (missing acc ++ [n])
    end.

Definition pick (scalar_name2id : ODict.t string)
    (bus_defs : ODict.t bus_def) (wanted : list string) : picked :=
  fold_left (pick_one scalar_name2id bus_defs) wanted (Picked [] [] []).

Definition in_list (n : string) (l : list string) : bool :=
  existsb (String.eqb n) l.

(** The [any(...)] of lines 385-389. *)
Definition is_picked_bit (n : string) (b2b : ODict.t (list bus_bit)) : bool :=
  existsb (fun lst => existsb (fun '(bit_name, _, _) => String.eqb n bit_name)
                        lst)
    (ODict.values b2b).

(** Lines 380-390. *)
Definition effective_signals (wanted : list string) (p : picked)
  : list string :=
  List.filter (fun n => in_list n (scalar_selected_names p)
                   || is_picked_bit n (busid_to_bits p)) wanted.

(** [sorted(...)] on strings: ascending by code points.  The program sorts
    the keys of a dictionary, which are pairwise distinct, so the result
    does not depend on the sorting algorithm. *)
Fixpoint insert_sorted (x : string) (l : list string) : list string :=
  match l with
  | [] => [x]
  | y :: r => if String.leb x y then x :: l else y :: insert_sorted x r
  end.

Definition sorted (l : list string) : list string :=
  fold_right insert_sorted [] l.

(** Lines 406-411. *)
Definition build_scalar_sid_to_names (scalar_name2id : ODict.t string)
    (names : list string) : ODict.t (list string) :=
  fold_left (fun acc name =>
               match ODict.get name scalar_name2id with
               | None => acc
               | Some sid => append_at sid name acc
               end) names [].

(** The reasons for [sys.exit(1)] inside [vcd_to_csv]. *)
Inductive exit_reason :=
| NoSignalsFound
| MissingSignals (names : list string)
| NoneOfRequestedPresent.

Record selection := Selection {
  signals : list string;
  scalar_sid_to_names : ODict.t (list string);
  sel_busid_to_bits : ODict.t (list bus_bit)
}.

(** Truth value of [wanted_signals]: [None] and the empty list are false. *)
Definition truthy (wanted_signals : option (list string)) : bool :=
  match wanted_signals with
  | Some (_ :: _) => true
  | _ => false
  end.

(** Lines 334-411. *)
Definition select (scalar_name2id : ODict.t string)
    (bus_defs : ODict.t bus_def) (wanted_signals : option (list string))
    (ignore_missing : bool) : exit_reason + selection :=
  if truthy wanted_signals then
    let wanted := default [] wanted_signals in
    let p := pick scalar_name2id bus_defs wanted in
    if negb ignore_missing && negb (bool_decide (missing p = []))
    then inl (MissingSignals (missing p))
    else
      match effective_signals wanted p with
      | [] => inl NoneOfRequestedPresent
      | eff =>
          inr (Selection eff
                 (build_scalar_sid_to_names scalar_name2id
                    (scalar_selected_names p))
                 (busid_to_bits p))
      end
  else
    let sigs := sorted (ODict.keys scalar_name2id) in
    inr (Selection sigs (build_scalar_sid_to_names scalar_name2id sigs) []).

(* ===================================================================== *)
(** * The emission engines                                                *)
(* ===================================================================== *)

(** What a run is given once the header is read and the columns chosen. *)
Record config := Config {
  ts_sec : float;
  tmin : option float;
  tmax : option float;
  cfg_signals : list string;
  cfg_scalar_sid_to_names : ODict.t (list string);
  cfg_busid_to_bits : ODict.t (list bus_bit)
}.

(** How far a run has come.  [OutOfFuel] belongs to the model only: the
    [while] loop of the uniform mode was cut off by the bound on its
    iterations. *)
Inductive status :=
| Running
| Stopped
| Raised (e : pyexc)
| OutOfFuel.

(** An emitted row: its time in seconds and one value per column. *)
Definition row : Type := float * list string.

(** The variables of the two body loops.  [changed_at_time] exists in
    event mode only, [last_time_sec] and [next_sample_time] in uniform
    mode only; [rows] are the rows written so far, oldest first. *)
Record state := State {
  header_done : bool;
  cur_time_ticks : option Z;
  changed_at_time : bool;
  last_time_sec : option float;
  next_sample_time : option float;
  cur_vals : gmap string string;
  rows : list row;
  st : status
}.

Definition set_status (s : state) (x : status) : state :=
  State (header_done s) (cur_time_ticks s) (changed_at_time s)
    (last_time_sec s) (next_sample_time s) (cur_vals s) (rows s) x.

Definition set_header_done (s : state) : state :=
  State true (cur_time_ticks s) (changed_at_time s)
    (last_time_sec s) (next_sample_time s) (cur_vals s) (rows s) (st s).

Definition set_ticks (s : state) (t : Z) : state :=
  State (header_done s) (Some t) (changed_at_time s)
    (last_time_sec s) (next_sample_time s) (cur_vals s) (rows s) (st s).

Definition set_changed (s : state) (b : bool) : state :=
  State (header_done s) (cur_time_ticks s) b
    (last_time_sec s) (next_sample_time s) (cur_vals s) (rows s) (st s).

Definition set_last (s : state) (t : Z) (sec : float) : state :=
  State (header_done s) (Some t) (changed_at_time s)
    (Some sec) (next_sample_time s) (cur_vals s) (rows s) (st s).

Definition set_next (s : state) (nx : float) : state :=
  State (header_done s) (cur_time_ticks s) (changed_at_time s)
    (last_time_sec s) (Some nx) (cur_vals s) (rows s) (st s).

(** [cur_vals[name] = new], arming the pending-change flag when [arm]. *)
Definition store (s : state) (name new : string) (arm : bool) : state :=
  State (header_done s) (cur_time_ticks s) (changed_at_time s || arm)
    (last_time_sec s) (next_sample_time s) (<[name := new]> (cur_vals s))
    (rows s) (st s).

(** [out.write(...)] of one row. *)
Definition write_row (s : state) (r : row) : state :=
  State (header_done s) (cur_time_ticks s) (changed_at_time s)
    (last_time_sec s) (next_sample_time s) (cur_vals s) (rows s ++ [r])
    (st s).

(** Line 414: every column starts at the idle value [1]. *)
Definition init_cur_vals (sigs : list string) : gmap string string :=
  list_to_map (map (fun name => (name, "1"%string)) sigs).

Definition init_state (sigs : list string) : state :=
  State false None false None None (init_cur_vals sigs) [] Running.

(** [[cur_vals[n] for n in signals]]; [inl n] is the [KeyError]. *)
Fixpoint row_values (cv : gmap string string) (sigs : list string)
  : string + list string :=
  match sigs with
  | [] => inr []
  | n :: r =>
      match cv !! n with
      | None => inl n
      | Some v =>
          match row_values cv r with
          | inl k => inl k
          | inr vs => inr (v :: vs)
          end
      end
  end.

(** Writes the row of time [t], or raises the [KeyError]. *)
Definition emit_row (cfg : config) (t : float) (s : state) : state :=
  match row_values (cur_vals s) (cfg_signals cfg) with
  | inl k => set_status s (Raised (KeyError k))
  | inr vs => write_row s (t, vs)
  end.

(** The body of the loop over the names of a scalar event, lines 493-496
    and 585-589. *)
Definition scalar_assign (arm : bool) (val : string) (s : state)
    (name : string) : state :=
  match st s with
  | Running =>
      match cur_vals s !! name with
      | None => set_status s (Raised (KeyError name))
      | Some prev =>
          let new := sanitize_bit val prev in
          if bool_decide (new = prev) then s else store s name new arm
      end
  | _ => s
  end.

(** Lines 506-511 and 599-604: the raw bit of a payload at [offset];
    [None] is the [IndexError] of [bits[0]] on an empty payload. *)
Definition pad_char (bits : string) : option ascii :=
  match PyStr.chars bits with
  | c :: _ =>
      let l := PyStr.lower_char c in
      Some (if Ascii.eqb l "x"%char || Ascii.eqb l "z"%char
            then c else "0"%char)
  | [] => None
  end.

Definition raw_bit (bits : string) (offset width : Z) : option string :=
  match pad_char bits with
  | None => None
  | Some pc =>
      let bits_p := PyStr.rjust bits width pc in
      if PyStr.len bits_p <=? offset then Some "x"%string
      else PyStr.index bits_p offset
  end.

(** The body of the loop over the bits of a vector event, lines 506-515
    and 599-609. *)
Definition vector_assign (arm : bool) (bits : string) (s : state)
    (b : bus_bit) : state :=
  match st s with
  | Running =>
      let '(bit_name, offset, width) := b in
      match raw_bit bits offset width with
      | None => set_status s (Raised IndexError)
      | Some raw =>
          let prev := default "1"%string (cur_vals s !! bit_name) in
          let new := sanitize_bit raw prev in
          if bool_decide (new = prev) then s else store s bit_name new arm
      end
  | _ => s
  end.

(** A scalar or vector change record, lines 487-517 and 579-611; lines
    that are neither are skipped. *)
Definition value_change (arm : bool) (cfg : config) (line : string)
    (s : state) : state :=
  match RE_SCALAR line with
  | Some (val, sid) =>
      match ODict.get sid (cfg_scalar_sid_to_names cfg) with
      | None => s
      | Some names => fold_left (scalar_assign arm val) names s
      end
  | None =>
      match RE_VECTOR line with
      | Some (bits, sid) =>
          match ODict.get sid (cfg_busid_to_bits cfg) with
          | None => s
          | Some lst => fold_left (vector_assign arm bits) lst s
          end
      | None => s
      end
  end.

(** [line[0] in '$#'] for a non-empty line. *)
Definition starts_dollar_or_hash (line : string) : bool :=
  match PyStr.chars line with
  | c :: _ => Ascii.eqb c "$"%char || Ascii.eqb c "#"%char
  | [] => false
  end.

(** ** Event mode *)

Definition below_tmin (cfg : config) (t : float) : bool :=
  match tmin cfg with
  | Some m => PyFloat.lt t m
  | None => false
  end.

Definition above_tmax (cfg : config) (t : float) : bool :=
  match tmax cfg with
  | Some m => PyFloat.gt t m
  | None => false
  end.

(** [flush_if_needed()], lines 534-548: the new state and the value
    returned. *)
Definition flush_if_needed (cfg : config) (s : state) : state * bool :=
  match cur_time_ticks s with
  | None => (s, false)
  | Some ticks =>
      if negb (changed_at_time s) then (s, false)
      else
        match PyFloat.int_mul ticks (ts_sec cfg) with
        | None => (set_status s (Raised OverflowError), false)
        | Some t_sec =>
            if below_tmin cfg t_sec then (set_changed s false, false)
            else if above_tmax cfg t_sec then (s, true)
            else
              let s' := emit_row cfg t_sec s in
              match st s' with
              | Running => (set_changed s' false, false)
              | _ => (s', false)
              end
        end
  end.

(** One round of the loop over the lines, lines 553-611. *)
Definition event_line (cfg : config) (s : state) (raw_line : string)
  : state :=
  match st s with
  | Running =>
      let line := PyStr.rstrip raw_line in
      if negb (header_done s) then
        if PyStr.contains "$enddefinitions" line then set_header_done s
        else s
      else if String.eqb line EmptyString then s
      else
        match RE_TIME line with
        | Some g =>
            let '(s', stop) := flush_if_needed cfg s in
            match st s' with
            | Running =>
                if stop then set_status s' Stopped
                else set_ticks s' (PyStr.int_of_digits g)
            | _ => s'
            end
        | None =>
            if starts_dollar_or_hash line then s
            else value_change true cfg line s
        end
  | _ => s
  end.

(** Lines 613-614: the flush after the loop. *)
Definition event_finish (cfg : config) (s : state) : state :=
  match st s with
  | Running => fst (flush_if_needed cfg s)
  | _ => s
  end.

Definition event_loop (cfg : config) (lines : list string) (s : state)
  : state :=
  fold_left (event_line cfg) lines s.

Definition event_run (cfg : config) (lines : list string) : state :=
  event_finish cfg (event_loop cfg lines (init_state (cfg_signals cfg))).

(** ** Uniform-grid mode *)

(** The condition of the [while] loop, lines 447-449, for a sample time
    that is set. *)
Definition keep_sampling (cfg : config) (t_to nx : float) : bool :=
  PyFloat.lt nx t_to
  && match tmax cfg with
     | None => true
     | Some m => PyFloat.le nx m
     end.

(** The [while] loop of [emit_uniform_between], lines 447-452, cut off
    after [fuel] rows. *)
Fixpoint emit_loop (fuel : nat) (cfg : config) (step t_to : float)
    (s : state) : state :=
  match st s, next_sample_time s with
  | Running, Some nx =>
      if keep_sampling cfg t_to nx then
        match fuel with
        | O => set_status s OutOfFuel
        | S fuel' =>
            let s' := emit_row cfg nx s in
            match st s' with
            | Running =>
                emit_loop fuel' cfg step t_to (set_next s' (nx + step)%float)
            | _ => s'
            end
        end
      else s
  | _, _ => s
  end.

(** Lines 442-446: the first sample time, set once. *)
Definition anchor (cfg : config) (t_from : float) : float :=
  match tmin cfg with
  | Some m => if PyFloat.gt m t_from then m else t_from
  | None => t_from
  end.

(** [emit_uniform_between(t_from, t_to)], lines 437-452. *)
Definition emit_uniform_between (fuel : nat) (cfg : config) (step : float)
    (t_from t_to : float) (s : state) : state :=
  if above_tmax cfg t_from then s
  else
    let s1 :=
      match next_sample_time s with
      | None => set_next s (anchor cfg t_from)
      | Some _ => s
      end in
    emit_loop fuel cfg step t_to s1.

(** One round of the loop over the lines, lines 455-517. *)
Definition uniform_line (fuel : nat) (cfg : config) (step : float)
    (s : state) (raw_line : string) : state :=
  match st s with
  | Running =>
      let line := PyStr.rstrip raw_line in
      if negb (header_done s) then
        if PyStr.contains "$enddefinitions" line then set_header_done s
        else s
      else if String.eqb line EmptyString then s
      else
        match RE_TIME line with
        | Some g =>
            let new_ticks := PyStr.int_of_digits g in
            match PyFloat.int_mul new_ticks (ts_sec cfg) with
            | None => set_status s (Raised OverflowError)
            | Some new_sec =>
                match cur_time_ticks s with
                | None => set_last s new_ticks new_sec
                | Some _ =>
                    match last_time_sec s with
                    | None => set_status s (Raised TypeError)
                    | Some last =>
                        let s' :=
                          emit_uniform_between fuel cfg step last new_sec s in
                        match st s' with
                        | Running => set_last s' new_ticks new_sec
                        | _ => s'
                        end
                    end
                end
            end
        | None =>
            if starts_dollar_or_hash line then s
            else value_change false cfg line s
        end
  | _ => s
  end.

(** Lines 519-523: the emission after the loop. *)
Definition uniform_finish (fuel : nat) (cfg : config) (step : float)
    (s : state) : state :=
  match st s, cur_time_ticks s, last_time_sec s with
  | Running, Some _, Some last =>
      let end_sec :=
        match tmax cfg with
        | Some m => if PyFloat.gt m last then m else last
        | None => last
        end in
      emit_uniform_between fuel cfg step last end_sec s
  | _, _, _ => s
  end.

Definition uniform_loop (fuel : nat) (cfg : config) (step : float)
    (lines : list string) (s : state) : state :=
  fold_left (uniform_line fuel cfg step) lines s.

Definition uniform_run (fuel : nat) (cfg : config) (step : float)
    (lines : list string) : state :=
  uniform_finish fuel cfg step
    (uniform_loop fuel cfg step lines (init_state (cfg_signals cfg))).

(* ===================================================================== *)
(** * The conversion                                                      *)
(* ===================================================================== *)

(** How a call of [vcd_to_csv] ends.  [FuelExhausted] belongs to the model
    only (see [OutOfFuel]). *)
Inductive ending :=
| Returned
| Exit1 (r : exit_reason)
| Uncaught (e : pyexc)
| FuelExhausted.

(** The lines written to the output file (each is written with a final
    newline) and the way the call ended.  Nothing is written when the call
    ends before the output file is opened. *)
Record outcome := Outcome {
  written : list string;
  how : ending
}.

Definition ending_of (x : status) : ending :=
  match x with
  | Running | Stopped => Returned
  | Raised e => Uncaught e
  | OutOfFuel => FuelExhausted
  end.

(** Line 427. *)
Definition csv_header (sigs : list string) : string :=
  String.append "Time[s]," (PyStr.join "," sigs).

(** Lines 450-451 and 545-546. *)
Definition render_row (r : row) : string :=
  PyStr.join "," (PyFloat.format_12f (fst r) :: snd r).

(** The columns and lookup tables of a call, lines 298-411. *)
Definition prepare (lines : list string)
    (wanted_signals : option (list string)) (ignore_missing : bool)
  : exit_reason + selection :=
  let '(scalar_name2id, bus_defs) := parse_header lines [] [] in
  match scalar_name2id, bus_defs with
  | [], [] => inl NoSignalsFound
  | _, _ => select scalar_name2id bus_defs wanted_signals ignore_missing
  end.

(** [vcd_to_csv], lines 270-614, from the lines of the input file to the
    lines of the output file.  [fuel] bounds the rows of one call of
    [emit_uniform_between]. *)
Definition vcd_to_csv (fuel : nat) (lines : list string)
    (wanted_signals : option (list string)) (tmin tmax : option float)
    (ignore_missing : bool) (uniform_step : option float) : outcome :=
  match parse_timescale lines with
  | None => Outcome [] (Uncaught OverflowError)
  | Some ts_ps =>
      let ts_sec := (ts_ps * PyFloat.lit_1e_12)%float in
      match prepare lines wanted_signals ignore_missing with
      | inl r => Outcome [] (Exit1 r)
      | inr sel =>
          let cfg := Config ts_sec tmin tmax (signals sel)
                       (scalar_sid_to_names sel) (sel_busid_to_bits sel) in
          let final :=
            match uniform_step with
            | Some step => uniform_run fuel cfg step lines
            | None => event_run cfg lines
            end in
          Outcome (csv_header (signals sel) :: map render_row (rows final))
            (ending_of (st final))
      end
  end.

(* ===================================================================== *)
(** * Concrete inputs                                                     *)
(* ===================================================================== *)

(** The identifier of the bus in the scenario below: one double-quote
    character. *)
Definition dq : string := String "034"%char EmptyString.

(** The scenario with the scalar [clk] and the bus [data[1:0]], at a time
    scale of one nanosecond. *)
Definition demo_vcd : list string :=
  [ "$timescale"; " 1ns"; "$end";
    "$var wire 1 ! clk $end";
    String.append "$var wire 2 " (String.append dq " data [1:0] $end");
    "$enddefinitions $end";
    "#0"; "1!"; String.append "b10 " dq; "#5"; "0!" ]%string.

(* ===================================================================== *)
(** * Definitions used to state the properties                            *)
(* ===================================================================== *)

Local Open Scope string_scope.
Local Open Scope list_scope.
Local Open Scope Z_scope.

(** Whether a value is a resolved bit. *)
Definition is_clean (v : string) : Prop := v = "0" \/ v = "1".

(** Every cell of a value map is ['0'] or ['1']. *)
Definition all_clean (cv : gmap string string) : Prop :=
  map_Forall (fun _ v => is_clean v) cv.

(** What the selection guarantees for an entry [(n, off, w)] filed under
    the identifier [sid]: [n] reads [base[idx]], a bus declared under
    [sid] has that base, a range that holds [idx] and the width [w], and
    [off] is the distance from its most significant position to [idx]. *)
Definition offset_ok (bus_defs : ODict.t bus_def) (sid : string)
    (b : bus_bit) : Prop :=
  let '(n, off, w) := b in
  exists base idx_str d,
    let idx := PyStr.int_of_digits idx_str in
    RE_BUSBIT n = Some (base, idx_str) /\
    In (sid, d) bus_defs /\
    bd_base d = base /\
    in_range (bd_msb d) (bd_lsb d) idx = true /\
    w = bd_width d /\
    off = (if bd_lsb d <=? bd_msb d then bd_msb d - idx
           else idx - bd_msb d) /\
    off = Z.abs (bd_msb d - idx).

(** Every entry of [busid_to_bits] is as [offset_ok] says. *)
Definition b2b_ok (bus_defs : ODict.t bus_def)
    (d : ODict.t (list bus_bit)) : Prop :=
  Forall (fun '(sid, l) => Forall (offset_ok bus_defs sid) l) d.

(** A header that declares the bus [base[7:0]]. *)
Definition bus8_vcd : list string :=
  [ "$var wire 8 # base [7:0] $end"; "$enddefinitions $end" ].

(** Whether a character is one of [x], [X], [z], [Z]. *)
Definition is_xz (c : ascii) : bool :=
  existsb (Ascii.eqb c) ["x"%char; "X"%char; "z"%char; "Z"%char].

(** The character a payload that starts with [c0] is padded with. *)
Definition fill_of (c0 : ascii) : ascii := if is_xz c0 then c0 else "0"%char.

(** The declared names of the width-1 signals of a header, in the order
    of their declarations. *)
Fixpoint declared_scalar_names (lines : list string) : list string :=
  match lines with
  | [] => []
  | line :: rest =>
      if PyStr.contains "$enddefinitions" line then []
      else
        match parse_var_line line with
        | Some (width, _, ref, _) =>
            if width =? 1 then ref :: declared_scalar_names rest
            else declared_scalar_names rest
        | None => declared_scalar_names rest
        end
  end.

(** The order of [sorted]: lexical, by the codes of the characters. *)
Definition leb_str (a b : string) : Prop := String.leb a b = true.

(** A header that declares the scalar [b] before the scalar [a]. *)
Definition unordered_vcd : list string :=
  [ "$var wire 1 ! b $end"; "$var wire 1 # a $end";
    "$enddefinitions $end" ].

(** The configuration [vcd_to_csv] builds for [demo_vcd] under the default
    selection, for a time scale [ts]. *)
Definition demo_cfg (ts : float) : config :=
  Config ts None None ["clk"] [("!", ["clk"])] [].

(** No row of the state lies above [M]. *)
Definition rows_within (M : float) (s : state) : Prop :=
  Forall (fun r : row => PyFloat.gt (fst r) M = false) (rows s).

(** A call with the upper bound [2] and a time scale of one second, and
    lines that change [clk] at the ticks 0 and 5. *)
Definition bounded_cfg : config :=
  Config 1%float None (Some 2%float) ["clk"] [("!", ["clk"])] [].

Definition bounded_pre : list string :=
  ["$enddefinitions $end"; "#0"; "0!"; "#5"; "1!"].

(** The same call without its lower bound. *)
Definition no_tmin (cfg : config) : config :=
  Config (ts_sec cfg) None (tmax cfg) (cfg_signals cfg)
    (cfg_scalar_sid_to_names cfg) (cfg_busid_to_bits cfg).

(** The state [s] with other rows. *)
Definition set_rows (s : state) (l : list row) : state :=
  State (header_done s) (cur_time_ticks s) (changed_at_time s)
    (last_time_sec s) (next_sample_time s) (cur_vals s) l (st s).

(** The rows a lower bound [m] lets through. *)
Definition not_before (m : float) (r : row) : bool :=
  negb (PyFloat.lt (fst r) m).

(** The state of the bounded run that goes with the state [s] of the
    unbounded one. *)
Definition drop_early (m : float) (s : state) : state :=
  set_rows s (List.filter (not_before m) (rows s)).

(** Every column has a cell in the value map. *)
Definition has_cols (sigs : list string) (cv : gmap string string) : Prop :=
  Forall (fun n => is_Some (cv !! n)) sigs.

(** A call with the columns [a] and [b] and the lower bound [lo], and
    lines that change [a] at tick 0 and [b] at tick 5. *)
Definition two_col_cfg (lo : option float) : config :=
  Config 1%float lo None ["a"; "b"] [("!", ["a"]); ("#", ["b"])] [].

Definition two_col_lines : list string :=
  ["$enddefinitions $end"; "#0"; "0!"; "#5"; "0#"].



(** The state at the definitions-end marker. *)
Definition after_header (sigs : list string) : state :=
  set_header_done (init_state sigs).



(** The fields a value change leaves alone. *)
Definition same_frame (s0 s : state) : Prop :=
  cur_time_ticks s = cur_time_ticks s0 /\
  last_time_sec s = last_time_sec s0 /\
  next_sample_time s = next_sample_time s0 /\
  rows s = rows s0.


(** Every output column has a cell in the value map, and the cell holds
    a resolved bit. *)
Definition columns_resolved (sigs : list string) (cv : gmap string string)
  : Prop :=
  forall n, In n sigs -> exists v, cv !! n = Some v /\ is_clean v.

(** The bit the spec describes for a payload that starts with [c0]: read
    at [offset] from the payload padded on the left, up to [width]
    characters, with [fill_of c0]; beyond the padded length it is [x]. *)
Definition justified_bit (c0 : ascii) (rest : string) (offset width : Z)
  : option string :=
  let bits := String c0 rest in
  let padded_len := Z.max width (PyStr.len bits) in
  let pad := padded_len - PyStr.len bits in
  if padded_len <=? offset then Some "x"
  else if offset <? pad then Some (String (fill_of c0) EmptyString)
  else PyStr.index bits (offset - pad).

(** A call that selected the bits 6 and 0 of an eight-bit bus. *)
Definition bus_cfg : config :=
  Config 1%float None None ["d[6]"; "d[0]"] []
    [("#", [("d[6]", 1, 8); ("d[0]", 7, 8)])].


(** The step [10ns] and the time scale [1ns], as the program computes
    them. *)
Definition step_10ns : float := (10 * 1e3 * PyFloat.lit_1e_12)%float.
Definition grid_cfg : config :=
  Config (1000 * PyFloat.lit_1e_12)%float None None ["clk"]
    [("!", ["clk"])] [].
Definition grid_header : list string :=
  ["$timescale"; " 1ns"; "$end"; "$var wire 1 ! clk $end"].

(* ===================================================================== *)
(** * The signal list of a viewer-configuration file                      *)
(* ===================================================================== *)

(** [RE_BUSNAME = ^(.+)\[(\d+):(\d+)\]$]; returns groups 1, 2 and 3. *)
Definition RE_BUSNAME (name : string) : option (string * string * string) :=
  match drop_final_newline (rev (PyStr.chars name)) with
  | c :: r =>
      if Ascii.eqb c "]" then
        let lsb := PyStr.take_while PyStr.isdigit r in
        match lsb, PyStr.drop_while PyStr.isdigit r with
        | _ :: _, colon :: r1 =>
            if Ascii.eqb colon ":" then
              let msb := PyStr.take_while PyStr.isdigit r1 in
              match msb, PyStr.drop_while PyStr.isdigit r1 with
              | _ :: _, o :: b =>
                  match b with
                  | _ :: _ =>
                      if Ascii.eqb o "[" && forallb not_newline b
                      then Some (PyStr.str (rev b), PyStr.str (rev msb),
                                 PyStr.str (rev lsb))
                      else None
                  | [] => None
                  end
              | _, _ => None
              end
            else None
        | _, _ => None
        end
      else None
  | [] => None
  end.

(** [full.split('.')[-1]]: what follows the last dot. *)
Definition leaf_of (full : string) : string :=
  PyStr.str (rev (PyStr.take_while (fun c => negb (Ascii.eqb c "."))
                    (rev (PyStr.chars full)))).

(** [s[0] in '[*@#;-'] for a non-empty [s]. *)
Definition is_gtkw_markup (s : string) : bool :=
  match PyStr.chars s with
  | c :: _ =>
      existsb (Ascii.eqb c)
        ["["%char; "*"%char; "@"%char; "#"%char; ";"%char; "-"%char]
  | [] => false
  end.

(** [range(msb, lsb - 1, -1)] when [msb >= lsb], else
    [range(msb, lsb + 1)], lines 209-212. *)
Definition bit_range (msb lsb : Z) : list Z :=
  if lsb <=? msb
  then map (fun k => msb - Z.of_nat k) (seq 0 (Z.to_nat (msb - lsb + 1)))
  else map (fun k => msb + Z.of_nat k) (seq 0 (Z.to_nat (lsb - msb + 1))).

(** The f-string of line 214, for a non-negative index. *)
Definition bit_name (base : string) (i : Z) : string :=
  String.append base
    (String.append "[" (String.append (PyStr.of_nonneg i) "]")).

(** The list [signals] and the set [seen] of [parse_gtkw_signals]. *)
Definition gtkw_state : Type := list string * gset string.

(** Lines 215-217 and 219-221: a name not seen yet is recorded. *)
Definition gtkw_add (acc : gtkw_state) (name : string) : gtkw_state :=
  let '(sigs, seen) := acc in
  if bool_decide (name ∈ seen) then acc
  else (sigs ++ [name], {[name]} ∪ seen).

(** One round of the loop over the lines of the file, lines 194-221;
    [None] is the [IndexError] of [s.split()[0]]. *)
Definition gtkw_line (acc : gtkw_state) (line : string)
  : option gtkw_state :=
  let s := PyStr.strip line in
  if String.eqb s EmptyString then Some acc
  else if is_gtkw_markup s then Some acc
  else
    match PyStr.split s with
    | [] => None
    | full :: _ =>
        let leaf := leaf_of full in
        match RE_BUSNAME leaf with
        | Some (base, msb_str, lsb_str) =>
            let msb := PyStr.int_of_digits msb_str in
            let lsb := PyStr.int_of_digits lsb_str in
            Some (fold_left gtkw_add (map (bit_name base) (bit_range msb lsb))
                    acc)
        | None => Some (gtkw_add acc leaf)
        end
    end.

Fixpoint gtkw_loop (lines : list string) (acc : gtkw_state)
  : option gtkw_state :=
  match lines with
  | [] => Some acc
  | line :: rest =>
      match gtkw_line acc line with
      | None => None
      | Some acc' => gtkw_loop rest acc'
      end
  end.

(** What reading a text file gives: an [OSError], which the callers
    catch; an exception that is not an [OSError], which they do not (the
    [UnicodeDecodeError] of a file that is not text in the default
    encoding); or the lines of the file. *)
Inductive text_file :=
| NoAccess
| NotText
| Text (lines : list string).

(** The exceptions that leave [parse_gtkw_signals]: the one of the
    reader and the [IndexError] of [s.split()[0]]. *)
Inductive gtkw_exc :=
| GtkwReadError
| GtkwIndexError.

(** [parse_gtkw_signals], lines 171-230, on what reading the file gives.
    A file that cannot be opened gives the empty list (lines 223-228); a
    reader that raises something else ends the call with that exception,
    whatever lines were read before. *)
Definition parse_gtkw_signals (file : text_file)
  : gtkw_exc + list string :=
  match file with
  | NoAccess => inr []
  | NotText => inl GtkwReadError
  | Text lines =>
      match gtkw_loop lines ([], ∅) with
      | Some acc => inr (fst acc)
      | None => inl GtkwIndexError
      end
  end.

(* ===================================================================== *)
(** * Time specifications                                                 *)
(* ===================================================================== *)

(** The binary64 number nearest to [n / d] (ties to even) for [n >= 0] and
    [d > 0]: the quotient is taken with at least 64 significant bits and a
    sticky bit for the remainder, then rounded once. *)
Definition float_of_ratio (n d : Z) : float :=
  if n =? 0 then 0%float
  else
    let s := Z.max 0 (66 + Z.log2 d - Z.log2 n) in
    let q := (n * 2 ^ s) / d in
    let r := (n * 2 ^ s) mod d in
    let m := 2 * q + (if r =? 0 then 0 else 1) in
    SF2Prim (binary_normalize prec emax m (- s - 1) false).

(** A time specification comes from the command line as it is, and its
    pattern ignores case, which lets characters above 255 in: it is a
    list of code points of any size. *)
Definition ustr : Type := list N.

Module UStr.

Definition of_str (s : string) : ustr := map PyStr.code (PyStr.chars s).

(** The same characters as a [string], when all are below 256. *)
Definition to_str (u : ustr) : option string :=
  if forallb (fun c => (c <? 256)%N) u
  then Some (PyStr.str (map ascii_of_N u)) else None.

(** [str.isspace] and the regex class [\s], on all code points. *)
Definition isspace (c : N) : bool :=
  ((9 <=? c) && (c <=? 13) || (28 <=? c) && (c <=? 32)
   || (c =? 133) || (c =? 160) || (c =? 5760)
   || (8192 <=? c) && (c <=? 8202) || (c =? 8232) || (c =? 8233)
   || (c =? 8239) || (c =? 8287) || (c =? 12288))%N.

(** The class [[0-9]]. *)
Definition isdigit (c : N) : bool := ((48 <=? c) && (c <=? 57))%N.

Fixpoint drop_while (p : N -> bool) (l : ustr) : ustr :=
  match l with
  | [] => []
  | c :: r => if p c then drop_while p r else l
  end.

Fixpoint take_while (p : N -> bool) (l : ustr) : ustr :=
  match l with
  | [] => []
  | c :: r => if p c then c :: take_while p r else []
  end.

(** Value of a run of the digits [0-9], most significant first. *)
Definition digits_val (l : ustr) : Z :=
  fold_left (fun acc c => 10 * acc + (Z.of_N c - 48)) l 0.

End UStr.

(** The letter [s] of the unit pattern under [re.IGNORECASE]: [s], [S]
    and the long s, U+017F. *)
Definition is_s_any (c : N) : bool :=
  existsb (N.eqb c) [115; 83; 383]%N.

(** The class [[fpnumk]] under [re.IGNORECASE]: the six letters in
    either case and the Kelvin sign, U+212A. *)
Definition is_unit_prefix_any (c : N) : bool :=
  existsb (N.eqb c)
    [102; 70; 112; 80; 110; 78; 117; 85; 109; 77; 107; 75; 8490]%N.

(** [str.lower] on the characters a unit can hold: the capitals go to
    their small letters, the Kelvin sign goes to [k], the long s stays. *)
Definition unit_lower (c : N) : N :=
  if ((65 <=? c) && (c <=? 90))%N then (c + 32)%N
  else if (c =? 8490)%N then 107%N
  else c.

(** [unit in UNIT_TO_PS] and [UNIT_TO_PS[unit]]: the keys of the table
    are made of characters below 256. *)
Definition unit_to_ps (unit : ustr) : option float :=
  match UStr.to_str unit with
  | Some u => UNIT_TO_PS u
  | None => None
  end.

(** [float(s)] for a string [s] of the form [[0-9]*\.?[0-9]+]. *)
Definition float_of_decimal (l : ustr) : float :=
  let ip := UStr.take_while UStr.isdigit l in
  let fp := match UStr.drop_while UStr.isdigit l with
            | _ :: f => f
            | [] => []
            end in
  float_of_ratio (UStr.digits_val (ip ++ fp))
    (10 ^ Z.of_nat (length fp)).

(** [RE_TSPEC]: [\s*], the number [([0-9]*\.?[0-9]+)] (group 1), [\s*],
    an optional unit [([fpnumk]?s)] (group 2), [\s*$], with
    [re.IGNORECASE]; returns the two groups. *)
Definition RE_TSPEC (spec : ustr) : option (ustr * option ustr) :=
  let l0 := UStr.drop_while UStr.isspace spec in
  let d1 := UStr.take_while UStr.isdigit l0 in
  let r1 := UStr.drop_while UStr.isdigit l0 in
  let '(num, r2) :=
    match r1 with
    | dot :: r =>
        match UStr.take_while UStr.isdigit r with
        | (_ :: _) as d2 =>
            if (dot =? 46)%N
            then (d1 ++ dot :: d2, UStr.drop_while UStr.isdigit r)
            else (d1, r1)
        | [] => (d1, r1)
        end
    | [] => (d1, r1)
    end in
  match num with
  | [] => None
  | _ :: _ =>
      match UStr.drop_while UStr.isspace r2 with
      | [] => Some (num, None)
      | c :: r =>
          if is_s_any c then
            if forallb UStr.isspace r then Some (num, Some [c])
            else None
          else if is_unit_prefix_any c then
            match r with
            | s :: r' =>
                if is_s_any s && forallb UStr.isspace r'
                then Some (num, Some [c; s])
                else None
            | [] => None
            end
          else None
      end
  end.

(** The two ways [parse_time_with_units] ends the program. *)
Inductive time_error :=
| InvalidTimeSpec
| InvalidTimeUnit.

(** [parse_time_with_units(spec, opt_name)], lines 233-267. *)
Definition parse_time_with_units (spec : option ustr)
  : time_error + option float :=
  match spec with
  | None => inr None
  | Some sp =>
      match RE_TSPEC sp with
      | None => inl InvalidTimeSpec
      | Some (val_str, unit) =>
          let value := float_of_decimal val_str in
          match unit with
          | None => inr (Some value)
          | Some u =>
              match unit_to_ps (map unit_lower u) with
              | None => inl InvalidTimeUnit
              | Some f =>
                  inr (Some (value * f * PyFloat.lit_1e_12)%float)
              end
          end
      end
  end.

(* ===================================================================== *)
(** * Definitions used to state further properties                        *)
(* ===================================================================== *)

(** A row has one value per column, each a resolved bit. *)
Definition row_ok (cfg : config) (r : row) : Prop :=
  length (snd r) = length (cfg_signals cfg) /\ Forall is_clean (snd r).

(** The cells are resolved and the rows written so far are well formed. *)
Definition shaped (cfg : config) (s : state) : Prop :=
  all_clean (cur_vals s) /\ Forall (row_ok cfg) (rows s).

(** Nothing is pending for the closing call of the uniform mode: no
    sample time is set before the first time marker, and a sample time
    that is set is not before the last marker time. *)
Definition caught_up (s : state) : Prop :=
  (cur_time_ticks s = None -> next_sample_time s = None) /\
  (st s = Running ->
   forall nx last,
     next_sample_time s = Some nx -> last_time_sec s = Some last ->
     PyFloat.lt nx last = false).

(** Whether a line of the body is a time marker. *)
Definition is_marker (line : string) : bool :=
  match RE_TIME (PyStr.rstrip line) with
  | Some _ => true
  | None => false
  end.

(** No row is written and no sample time is set. *)
Definition unsampled (s : state) : Prop :=
  rows s = [] /\ next_sample_time s = None.

(** The lookup tables of a call name output columns only, and no offset
    of a bus bit is negative. *)
Definition tables_ok (cfg : config) : Prop :=
  (forall sid names n,
     ODict.get sid (cfg_scalar_sid_to_names cfg) = Some names ->
     In n names -> In n (cfg_signals cfg)) /\
  (forall sid lst b,
     ODict.get sid (cfg_busid_to_bits cfg) = Some lst ->
     In b lst -> 0 <= snd (fst b)).

(** A status that is not an exception other than [OverflowError]. *)
Definition overflow_only (x : status) : Prop :=
  forall e, x = Raised e -> e = OverflowError.

(** Every column has a cell and nothing but an overflow was raised. *)
Definition sound (cfg : config) (s : state) : Prop :=
  has_cols (cfg_signals cfg) (cur_vals s) /\ overflow_only (st s).

(** In the uniform mode the time of the last marker is set with its tick
    count. *)
Definition timed (s : state) : Prop :=
  cur_time_ticks s <> None -> last_time_sec s <> None.

(** A time marker whose tick count is too large for a float. *)
Definition huge_marker : string :=
  String.append "#1" (PyStr.str (repeat "0"%char 400)).

(** Whether a requested name is a declared scalar or, failing that, a
    bit [base[idx]] of a declared bus whose range holds [idx]. *)
Definition resolves (scalar_name2id : ODict.t string)
    (bus_defs : ODict.t bus_def) (n : string) : bool :=
  ODict.mem n scalar_name2id
  || match RE_BUSBIT n with
     | Some (base, idx_str) =>
         match find_bus base (PyStr.int_of_digits idx_str) bus_defs with
         | Some _ => true
         | None => false
         end
     | None => false
     end.

(** A header with the scalar [clk] and the bus [d[3:0]]. *)
Definition mixed_vcd : list string :=
  [ "$var wire 1 ! clk $end"; "$var wire 4 # d [3:0] $end";
    "$enddefinitions $end" ].

(** The list holds each name once and the set holds the names of the
    list. *)
Definition gtkw_ok (acc : gtkw_state) : Prop :=
  List.NoDup (fst acc) /\ forall x, x ∈ snd acc <-> In x (fst acc).

(** The characters a time specification can hold: digits, the dot,
    white space and the letters of a unit. *)
Definition tspec_char (c : N) : bool :=
  UStr.isdigit c || (c =? 46)%N || UStr.isspace c || is_s_any c
  || is_unit_prefix_any c.

(** The widest bus the statements on uncaught exceptions admit in a
    header.  [bits.rjust(width, pad)] builds a string of the declared
    width, which fails for a width the interpreter cannot allocate;
    [PyStr.rjust] does not fail. *)
Definition max_bus_width : Z := 65536.

(** No bus declared by the header is wider than [max_bus_width]. *)
Definition widths_bounded (lines : list string) : Prop :=
  Forall (fun d => bd_width d <= max_bus_width)
    (ODict.values (snd (parse_header lines [] []))).

(** The rows written so far, plus one for a time marker that is open. *)
Definition row_budget (s : state) : nat :=
  (length (rows s) + match cur_time_ticks s with
                     | Some _ => 1
                     | None => 0
                     end)%nat.

(** The last row written shows the values the columns have now; when no
    row is written the columns have their initial values. *)
Definition synced (cfg : config) (s : state) : Prop :=
  match last (rows s) with
  | Some r => row_values (cur_vals s) (cfg_signals cfg) = inr (snd r)
  | None => cur_vals s = init_cur_vals (cfg_signals cfg)
  end.

(** The tick count [t] is the one of a time marker among [lines]. *)
Definition marked (lines : list string) (t : Z) : Prop :=
  exists line g,
    In line lines /\ RE_TIME (PyStr.rstrip line) = Some g /\
    PyStr.int_of_digits g = t.

(** The time of a row is the time of a marker among [lines], in seconds
    at the time scale of the call. *)
Definition stamped (cfg : config) (lines : list string) (r : row) : Prop :=
  exists t, marked lines t /\ PyFloat.int_mul t (ts_sec cfg) = Some (fst r).

(** The open time and the rows written come from markers of [lines]. *)
Definition on_markers (cfg : config) (lines : list string) (s : state)
  : Prop :=
  (forall t, cur_time_ticks s = Some t -> marked lines t) /\
  Forall (stamped cfg lines) (rows s).

(* ===================================================================== *)
(** * The command line                                                    *)
(* ===================================================================== *)

(** The options as [parse_args] returns them, lines 621-683: the two
    paths, [--gtkw], the list of the [--signal] options ([None] when
    there is none), the three time specifications and the flag. *)
Record cli := Cli {
  cli_vcd : string;
  cli_csv : string;
  cli_gtkw : option string;
  cli_signal : option (list string);
  cli_tmin : option ustr;
  cli_tmax : option ustr;
  cli_ignore_missing : bool;
  cli_uniform_step : option ustr
}.

(** Truth value of an optional string: [None] and the empty string are
    false. *)
Definition given (o : option string) : option string :=
  match o with
  | Some s => if String.eqb s EmptyString then None else Some s
  | None => None
  end.

(** How [main] ends: an exit of [parse_time_with_units]; the exit for an
    input file that cannot be opened (lines 290-295); the exception of a
    reader, of the viewer-configuration file or of the input file; the
    [IndexError] of [parse_gtkw_signals]; or the end of the
    conversion. *)
Inductive main_end :=
| BadTime (e : time_error)
| NoInput
| ReadRaised
| GtkwFailed
| Converted (o : outcome).

(** [parse_time_with_units(x, ...) if x else None] for a time option,
    lines 699-705: [None] and the empty string are false. *)
Definition time_option (spec : option ustr) : time_error + option float :=
  match spec with
  | Some (_ :: _) => parse_time_with_units spec
  | _ => inr None
  end.

(** The signal list of lines 685-697. *)
Definition main_signals (files : string -> text_file) (a : cli)
  : gtkw_exc + list string :=
  let from_gtkw :=
    match given (cli_gtkw a) with
    | Some path => parse_gtkw_signals (files path)
    | None => inr []
    end in
  match from_gtkw with
  | inl e => inl e
  | inr [] =>
      if truthy (cli_signal a) then inr (default [] (cli_signal a))
      else inr []
  | inr sigs => inr sigs
  end.

(** [main], lines 617-715, after the command line is read.  [files]
    says what reading a file gives; the output file is taken to be
    writable. *)
Definition main (fuel : nat) (files : string -> text_file) (a : cli)
  : main_end :=
  match main_signals files a with
  | inl GtkwReadError => ReadRaised
  | inl GtkwIndexError => GtkwFailed
  | inr sigs =>
      match time_option (cli_tmin a) with
      | inl e => BadTime e
      | inr tmin =>
          match time_option (cli_tmax a) with
          | inl e => BadTime e
          | inr tmax =>
              match time_option (cli_uniform_step a) with
              | inl e => BadTime e
              | inr uniform_step =>
                  match files (cli_vcd a) with
                  | NoAccess => NoInput
                  | NotText => ReadRaised
                  | Text lines =>
                      Converted
                        (vcd_to_csv fuel lines
                           (match sigs with
                            | [] => None
                            | _ => Some sigs
                            end)
                           tmin tmax (cli_ignore_missing a) uniform_step)
                  end
              end
          end
      end
  end.

(** An input with a scalar, a bus and a time marker whose tick count is
    too large for a float; files for a run of the whole program, one of
    them not text; and options that name them. *)
Definition overflow_vcd : list string :=
  mixed_vcd ++ [huge_marker; "0!"].

Definition demo_files (path : string) : text_file :=
  if String.eqb path "in.vcd" then Text overflow_vcd
  else if String.eqb path "bad.gtkw" then NotText
  else NoAccess.

Definition demo_cli : cli :=
  Cli "in.vcd" "out.csv" (Some "none.gtkw") (Some ["clk"; "d[0]"])
    (Some (UStr.of_str "0")) None false None.

(* ===================================================================== *)
(** * Checks of the embedding on concrete inputs                          *)
(* ===================================================================== *)

Example RE_TIME_samples :
  RE_TIME "#120" = Some "120" /\ RE_TIME "#" = None /\ RE_TIME "#12a" = None.
Proof. repeat split. Qed.

Example RE_SCALAR_samples :
  RE_SCALAR "1!" = Some ("1", "!") /\ RE_SCALAR "x#a" = Some ("x", "#a") /\
  RE_SCALAR "1" = None /\ RE_SCALAR "1! x" = None /\ RE_SCALAR "b10 #" = None.
Proof. repeat split. Qed.

Example RE_VECTOR_samples :
  RE_VECTOR "b10 #" = Some ("10", "#") /\
  RE_VECTOR "B1z0   ab" = Some ("1z0", "ab") /\
  RE_VECTOR "b #" = None /\ RE_VECTOR "b10#" = None.
Proof. repeat split. Qed.

Example RE_TS_samples :
  RE_TS " 1ns" = Some ("1", "ns") /\ RE_TS "10 PS" = Some ("10", "PS") /\
  RE_TS "1 s" = Some ("1", "s") /\ RE_TS "ns" = None /\ RE_TS "1 n s" = None.
Proof. repeat split. Qed.

Example RE_BUSBIT_samples :
  RE_BUSBIT "base[3]" = Some ("base", "3") /\
  RE_BUSBIT "ba[2]se[13]" = Some ("ba[2]se", "13") /\
  RE_BUSBIT "[13]" = None /\ RE_BUSBIT "base[2:0]" = None.
Proof. repeat split. Qed.

Example parse_var_line_samples :
  parse_var_line "$var wire 1 ! mdc $end" = Some (1, "!", "mdc", None) /\
  parse_var_line "$var wire 3 # state_o [2:0] $end"
    = Some (3, "#", "state_o", Some "[2:0]") /\
  parse_var_line "$var wire x # state_o $end" = None /\
  parse_var_line "$scope module top $end" = None.
Proof. repeat split. Qed.

Example parse_timescale_samples :
  parse_timescale ["$timescale"; "10 us"; "$end"] = Some 10000000%float /\
  parse_timescale ["$timescale 1ns $end"] = Some 1%float /\
  parse_timescale ["$timescale"; "1 ks"; "$end"] = Some 1%float.
Proof. repeat split. Qed.

Example int_samples :
  PyStr.int "1_000" = Some 1000 /\ PyStr.int "-12" = Some (-12) /\
  PyStr.int "1__0" = None /\ PyStr.int "x" = None.
Proof. repeat split. Qed.

Example of_int_samples :
  PyFloat.of_int (2 ^ 53 + 1) = Some 9007199254740992%float /\
  PyFloat.of_int (2 ^ 53 + 3) = Some 9007199254740996%float /\
  PyFloat.of_int (2 ^ 1024) = None.
Proof. repeat split. Qed.

Example format_12f_samples :
  PyFloat.format_12f 0.5 = "0.500000000000" /\
  PyFloat.format_12f 1e22 = "10000000000000000000000.000000000000" /\
  PyFloat.format_12f (1000 * PyFloat.lit_1e_12 * 5) = "0.000000005000" /\
  PyFloat.format_12f (-0) = "-0.000000000000" /\
  PyFloat.format_12f infinity = "inf" /\ PyFloat.format_12f nan = "nan".
Proof. repeat split. Qed.

Example literals_are_nearest :
  PyFloat.lit_1e_3 = (1 / 1000)%float /\
  PyFloat.lit_1e_12 = (1 / 1e12)%float.
Proof. split; reflexivity. Qed.

Example selection_samples :
  how (vcd_to_csv 0 unordered_vcd (Some ["q"]) None None false None)
    = Exit1 (MissingSignals ["q"]) /\
  how (vcd_to_csv 0 unordered_vcd (Some ["q"]) None None true None)
    = Exit1 NoneOfRequestedPresent /\
  written (vcd_to_csv 0 unordered_vcd (Some ["q"; "b"]) None None true None)
    = ["Time[s],b"] /\
  how (vcd_to_csv 0 ["$enddefinitions $end"] None None None false None)
    = Exit1 NoSignalsFound.
Proof. repeat split. Qed.

(** A step of zero never leaves the loop of [emit_uniform_between]: the
    rows written are as many as the bound allows. *)
Example zero_step_runs_out_of_fuel :
  vcd_to_csv 2 (unordered_vcd ++ ["#0"; "#1"]) None None None false
    (Some 0%float)
  = Outcome ["Time[s],a,b"; "0.000000000000,1,1"; "0.000000000000,1,1"]
      FuelExhausted.
Proof. vm_compute. reflexivity. Qed.

Example parse_gtkw_signals_samples :
  parse_gtkw_signals
    (Text ["[timestart] 0"; "@28"; "top.dut.clk"; EmptyString;
           "top.dut.state_o[2:0]"; "-group_end"; " top.clk extra";
           "top.d[0:1]"; "top.dut.state_o[1]"])
  = inr ["clk"; "state_o[2]"; "state_o[1]"; "state_o[0]"; "d[0]"; "d[1]"]
  /\ parse_gtkw_signals NoAccess = inr []
  /\ parse_gtkw_signals NotText = inl GtkwReadError.
Proof. repeat split; vm_compute; reflexivity. Qed.

(** The long s is U+017F (383), the Kelvin sign U+212A (8490) and the
    ideographic space U+3000 (12288). *)
Example parse_time_with_units_samples :
  parse_time_with_units (Some (UStr.of_str "10ns"))
  = inr (Some (10 * 1e3 * PyFloat.lit_1e_12)%float)
  /\ parse_time_with_units (Some (UStr.of_str " 2.5 uS "))
     = inr (Some (2.5 * 1e6 * PyFloat.lit_1e_12)%float)
  /\ parse_time_with_units (Some (UStr.of_str ".5")) = inr (Some 0.5%float)
  /\ parse_time_with_units (Some [12288; 49; 109; 83]%N)
     = inr (Some (1 * 1e9 * PyFloat.lit_1e_12)%float)
  /\ parse_time_with_units (Some (UStr.of_str "1.")) = inl InvalidTimeSpec
  /\ parse_time_with_units (Some (UStr.of_str "-1ns"))
     = inl InvalidTimeSpec
  /\ parse_time_with_units (Some [53; 8490; 115]%N) = inl InvalidTimeUnit
  /\ parse_time_with_units (Some [53; 109; 383]%N) = inl InvalidTimeUnit
  /\ parse_time_with_units None = inr None.
Proof. repeat split; vm_compute; reflexivity. Qed.

(* ===================================================================== *)
(** * Properties of the sanitizer                                         *)
(* ===================================================================== *)

Lemma sanitize_bit_clean (val prev : string) :
  is_clean (sanitize_bit val prev).
Proof.
  unfold sanitize_bit, is_clean.
  destruct (bool_decide_reflect (PyStr.lower val = "0")) as [-> | _];
    [now left |].
  destruct (bool_decide_reflect (PyStr.lower val = "1")) as [-> | _];
    [now right |].
  cbn [orb].
  destruct (bool_decide (PyStr.lower val = "z")); [now right |].
  destruct (bool_decide_reflect (prev = "0")) as [-> | _]; [now left |].
  destruct (bool_decide_reflect (prev = "1")) as [-> | _]; [now right |].
  now right.
Qed.

Lemma sanitize_bit_idem (val prev : string) :
  sanitize_bit val (sanitize_bit val prev) = sanitize_bit val prev.
Proof.
  unfold sanitize_bit.
  destruct (bool_decide (PyStr.lower val = "0") ||
            bool_decide (PyStr.lower val = "1")); [reflexivity |].
  destruct (bool_decide (PyStr.lower val = "z")); [reflexivity |].
  destruct (bool_decide_reflect (prev = "0")) as [-> | n0]; [reflexivity |].
  destruct (bool_decide_reflect (prev = "1")) as [-> | n1]; reflexivity.
Qed.

(** C1. The single-bit sanitizer, for every previous value [prev]: the raw
    bits ['0'] and ['1'] are returned unchanged; the high-impedance marker
    ['z'] or ['Z'] gives ['1'] whatever [prev] is; the unresolved marker
    ['x'] or ['X'] gives [prev] when [prev] is ['0'] or ['1'], and ['1']
    otherwise. *)
Theorem sanitize_bit_rule (prev : string) :
  sanitize_bit "0" prev = "0" /\
  sanitize_bit "1" prev = "1" /\
  sanitize_bit "z" prev = "1" /\
  sanitize_bit "Z" prev = "1" /\
  sanitize_bit "x" prev
    = (if bool_decide (prev = "0" \/ prev = "1") then prev else "1") /\
  sanitize_bit "X" prev
    = (if bool_decide (prev = "0" \/ prev = "1") then prev else "1").
Proof.
  assert (Hx : (if bool_decide (prev = "0") || bool_decide (prev = "1")
                then prev else "1")
               = (if bool_decide (prev = "0" \/ prev = "1")
                  then prev else "1")).
  { destruct (bool_decide_reflect (prev = "0")) as [-> | n0]; [reflexivity |].
    destruct (bool_decide_reflect (prev = "1")) as [-> | n1]; [reflexivity |].
    cbn [orb]. rewrite bool_decide_eq_false_2; [reflexivity | tauto]. }
  repeat split; try reflexivity; exact Hx.
Qed.

(* ===================================================================== *)
(** * The value map holds resolved bits only                              *)
(* ===================================================================== *)

Lemma init_cur_vals_lookup (sigs : list string) (n v : string) :
  init_cur_vals sigs !! n = Some v -> v = "1" /\ In n sigs.
Proof.
  unfold init_cur_vals. intros H.
  apply elem_of_list_to_map_2 in H.
  apply list_elem_of_In, in_map_iff in H.
  destruct H as (m & Heq & Hin). inversion Heq; subst. auto.
Qed.

Lemma init_cur_vals_clean (sigs : list string) :
  all_clean (init_cur_vals sigs).
Proof.
  intros n v H. apply init_cur_vals_lookup in H as [-> _]. now right.
Qed.

Lemma fold_left_preserves {A B} (P : A -> Prop) (f : A -> B -> A) :
  (forall a b, P a -> P (f a b)) ->
  forall l a, P a -> P (fold_left f l a).
Proof.
  intros Hf l. induction l as [| b l IH]; intros a Ha; cbn; auto.
Qed.

Lemma emit_row_cur_vals cfg t s :
  cur_vals (emit_row cfg t s) = cur_vals s.
Proof. unfold emit_row. now destruct (row_values _ _). Qed.

Lemma flush_cur_vals cfg s :
  cur_vals (fst (flush_if_needed cfg s)) = cur_vals s.
Proof.
  unfold flush_if_needed.
  destruct (cur_time_ticks s); [| reflexivity].
  destruct (changed_at_time s); [| reflexivity]. cbn [negb].
  destruct (PyFloat.int_mul _ _) as [t |]; [| reflexivity].
  destruct (below_tmin cfg t); [reflexivity |].
  destruct (above_tmax cfg t); [reflexivity |].
  pose proof (emit_row_cur_vals cfg t s) as E.
  destruct (st (emit_row cfg t s)); cbn; exact E.
Qed.

Lemma emit_loop_cur_vals fuel cfg step t_to s :
  cur_vals (emit_loop fuel cfg step t_to s) = cur_vals s.
Proof.
  revert s. induction fuel as [| fuel IH]; intros s; cbn.
  - destruct (st s); try reflexivity.
    destruct (next_sample_time s); [| reflexivity].
    now destruct (keep_sampling _ _ _).
  - destruct (st s); try reflexivity.
    destruct (next_sample_time s) as [nx |]; [| reflexivity].
    destruct (keep_sampling _ _ _); [| reflexivity].
    pose proof (emit_row_cur_vals cfg nx s) as E.
    destruct (st (emit_row cfg nx s)); try exact E.
    rewrite IH. exact E.
Qed.

Lemma emit_uniform_between_cur_vals fuel cfg step t_from t_to s :
  cur_vals (emit_uniform_between fuel cfg step t_from t_to s) = cur_vals s.
Proof.
  unfold emit_uniform_between.
  destruct (above_tmax cfg t_from); [reflexivity |].
  rewrite emit_loop_cur_vals. now destruct (next_sample_time s).
Qed.

(** A property of the value map that storing a resolved bit preserves is
    preserved by every step of both engines. *)
Section ValueMapInvariant.

Variable P : gmap string string -> Prop.
Hypothesis P_insert :
  forall cv k v, is_clean v -> P cv -> P (<[k := v]> cv).

Lemma scalar_assign_keeps arm val s name :
  P (cur_vals s) -> P (cur_vals (scalar_assign arm val s name)).
Proof.
  intros H. unfold scalar_assign.
  destruct (st s); try exact H.
  destruct (cur_vals s !! name) as [prev |]; [| exact H].
  destruct (bool_decide _); [exact H |].
  apply P_insert; [apply sanitize_bit_clean | exact H].
Qed.

Lemma vector_assign_keeps arm bits s b :
  P (cur_vals s) -> P (cur_vals (vector_assign arm bits s b)).
Proof.
  intros H. unfold vector_assign.
  destruct (st s); try exact H.
  destruct b as [[bit_name offset] width].
  destruct (raw_bit bits offset width) as [raw |]; [| exact H].
  destruct (bool_decide _); [exact H |].
  apply P_insert; [apply sanitize_bit_clean | exact H].
Qed.

Lemma value_change_keeps arm cfg line s :
  P (cur_vals s) -> P (cur_vals (value_change arm cfg line s)).
Proof.
  intros H. unfold value_change.
  destruct (RE_SCALAR line) as [[val sid] |].
  - destruct (ODict.get sid _) as [names |]; [| exact H].
    apply (fold_left_preserves (fun s => P (cur_vals s)));
      [intros; now apply scalar_assign_keeps | exact H].
  - destruct (RE_VECTOR line) as [[bits sid] |]; [| exact H].
    destruct (ODict.get sid _) as [lst |]; [| exact H].
    apply (fold_left_preserves (fun s => P (cur_vals s)));
      [intros; now apply vector_assign_keeps | exact H].
Qed.

Lemma event_line_keeps cfg s line :
  P (cur_vals s) -> P (cur_vals (event_line cfg s line)).
Proof.
  intros H. unfold event_line.
  destruct (st s); try exact H.
  destruct (header_done s); cbn [negb].
  2: { now destruct (PyStr.contains _ _). }
  destruct (String.eqb _ EmptyString); [exact H |].
  destruct (RE_TIME _) as [g |].
  - pose proof (flush_cur_vals cfg s) as E.
    destruct (flush_if_needed cfg s) as [s' stop]. cbn in E.
    destruct (st s'); try (now rewrite E).
    destruct stop; cbn; now rewrite E.
  - destruct (starts_dollar_or_hash _); [exact H |].
    now apply value_change_keeps.
Qed.

Lemma event_loop_keeps cfg lines s :
  P (cur_vals s) -> P (cur_vals (event_loop cfg lines s)).
Proof.
  apply (fold_left_preserves (fun s => P (cur_vals s))).
  intros. now apply event_line_keeps.
Qed.

Lemma event_finish_keeps cfg s :
  P (cur_vals s) -> P (cur_vals (event_finish cfg s)).
Proof.
  intros H. unfold event_finish.
  destruct (st s); try exact H. now rewrite flush_cur_vals.
Qed.

Lemma uniform_line_keeps fuel cfg step s line :
  P (cur_vals s) -> P (cur_vals (uniform_line fuel cfg step s line)).
Proof.
  intros H. unfold uniform_line.
  destruct (st s); try exact H.
  destruct (header_done s); cbn [negb].
  2: { now destruct (PyStr.contains _ _). }
  destruct (String.eqb _ EmptyString); [exact H |].
  destruct (RE_TIME _) as [g |].
  - destruct (PyFloat.int_mul _ _) as [new_sec |]; [| exact H].
    destruct (cur_time_ticks s); [| exact H].
    destruct (last_time_sec s) as [last |]; [| exact H].
    pose proof (emit_uniform_between_cur_vals fuel cfg step last new_sec s)
      as E.
    destruct (st (emit_uniform_between fuel cfg step last new_sec s));
      cbn; now rewrite E.
  - destruct (starts_dollar_or_hash _); [exact H |].
    now apply value_change_keeps.
Qed.

Lemma uniform_loop_keeps fuel cfg step lines s :
  P (cur_vals s) -> P (cur_vals (uniform_loop fuel cfg step lines s)).
Proof.
  apply (fold_left_preserves (fun s => P (cur_vals s))).
  intros. now apply uniform_line_keeps.
Qed.

Lemma uniform_finish_keeps fuel cfg step s :
  P (cur_vals s) -> P (cur_vals (uniform_finish fuel cfg step s)).
Proof.
  intros H. unfold uniform_finish.
  destruct (st s); try exact H.
  destruct (cur_time_ticks s); [| exact H].
  destruct (last_time_sec s); [| exact H].
  now rewrite emit_uniform_between_cur_vals.
Qed.

End ValueMapInvariant.

Lemma all_clean_insert (cv : gmap string string) (k v : string) :
  is_clean v -> all_clean cv -> all_clean (<[k := v]> cv).
Proof. intros Hv Hcv. now apply map_Forall_insert_2. Qed.

Lemma init_has_cols (sigs : list string) :
  has_cols sigs (init_cur_vals sigs).
Proof.
  apply List.Forall_forall. intros n Hn.
  destruct (init_cur_vals sigs !! n) eqn:E; [eauto |].
  unfold init_cur_vals in E. apply not_elem_of_list_to_map_2 in E.
  exfalso. apply E. apply list_elem_of_In.
  apply in_map_iff. exists (n, "1"). split; [reflexivity |].
  apply in_map_iff. now exists n.
Qed.

Lemma has_cols_insert (sigs : list string) (cv : gmap string string)
    (k v : string) :
  is_clean v -> has_cols sigs cv -> has_cols sigs (<[k := v]> cv).
Proof.
  intros _. unfold has_cols. apply List.Forall_impl. intros n Hn.
  apply lookup_insert_is_Some'. now right.
Qed.

Lemma columns_resolved_intro (sigs : list string) (cv : gmap string string) :
  all_clean cv -> has_cols sigs cv -> columns_resolved sigs cv.
Proof.
  intros Hc Hh n Hn.
  destruct (proj1 (List.Forall_forall _ _) Hh n Hn) as [v Hv].
  exists v. split; [exact Hv | exact (Hc n v Hv)].
Qed.

Lemma columns_resolved_insert (sigs : list string)
    (cv : gmap string string) (k v : string) :
  is_clean v -> columns_resolved sigs cv ->
  columns_resolved sigs (<[k := v]> cv).
Proof.
  intros Hv H n Hn. destruct (H n Hn) as (w & Hw & Hcw).
  destruct (decide (k = n)) as [-> | Hne].
  - exists v. now rewrite lookup_insert_eq.
  - exists w. now rewrite lookup_insert_ne.
Qed.

(** C9. In both emission modes, after initialization, after any number of
    input lines (hence after each applied event) and after the closing
    step of the run, every output column has a cell in the value map and
    the cell holds ['0'] or ['1']; no cell of the map holds anything
    else. *)
Theorem cur_vals_always_clean (cfg : config) (lines : list string)
    (fuel : nat) (step : float) :
  let resolved s :=
    columns_resolved (cfg_signals cfg) (cur_vals s)
    /\ all_clean (cur_vals s) in
  resolved (init_state (cfg_signals cfg)) /\
  resolved (event_loop cfg lines (init_state (cfg_signals cfg))) /\
  resolved (event_run cfg lines) /\
  resolved (uniform_loop fuel cfg step lines
              (init_state (cfg_signals cfg))) /\
  resolved (uniform_run fuel cfg step lines).
Proof.
  set (good := fun cv : gmap string string =>
                 columns_resolved (cfg_signals cfg) cv /\ all_clean cv).
  assert (Hins : forall cv k v, is_clean v -> good cv -> good (<[k := v]> cv)).
  { intros cv k v Hv [Hc Ha]. split;
      [now apply columns_resolved_insert | now apply all_clean_insert]. }
  assert (H0 : good (cur_vals (init_state (cfg_signals cfg)))).
  { split; [| apply init_cur_vals_clean].
    apply columns_resolved_intro;
      [apply init_cur_vals_clean | apply init_has_cols]. }
  cbv zeta. repeat split.
  - apply H0.
  - apply H0.
  - apply (event_loop_keeps good Hins), H0.
  - apply (event_loop_keeps good Hins), H0.
  - apply (event_finish_keeps good), (event_loop_keeps good Hins), H0.
  - apply (event_finish_keeps good), (event_loop_keeps good Hins), H0.
  - apply (uniform_loop_keeps good Hins), H0.
  - apply (uniform_loop_keeps good Hins), H0.
  - apply (uniform_finish_keeps good), (uniform_loop_keeps good Hins),
      H0.
  - apply (uniform_finish_keeps good), (uniform_loop_keeps good Hins),
      H0.
Qed.

(* ===================================================================== *)
(** * An empty explicit selection                                         *)
(* ===================================================================== *)

(** C10. A call with [wanted_signals = []] gives the same outcome as the
    call with [wanted_signals = None], and that outcome is never one of the
    two selection errors: the empty list falls through to the default
    selection of all scalars. *)
Theorem empty_selection_is_default (fuel : nat) (lines : list string)
    (tmin tmax : option float) (ignore_missing : bool)
    (uniform_step : option float) :
  vcd_to_csv fuel lines (Some []) tmin tmax ignore_missing uniform_step
  = vcd_to_csv fuel lines None tmin tmax ignore_missing uniform_step
  /\ how (vcd_to_csv fuel lines (Some []) tmin tmax ignore_missing
            uniform_step) <> Exit1 NoneOfRequestedPresent
  /\ forall names,
       how (vcd_to_csv fuel lines (Some []) tmin tmax ignore_missing
              uniform_step) <> Exit1 (MissingSignals names).
Proof.
  assert (Hp : forall w, truthy w = false ->
             prepare lines w ignore_missing = inl NoSignalsFound
             \/ exists sel, prepare lines w ignore_missing = inr sel).
  { intros w Hw. unfold prepare.
    destruct (parse_header lines [] []) as [s2i bd].
    unfold select. rewrite Hw.
    destruct s2i; [destruct bd |]; eauto. }
  split; [reflexivity |].
  unfold vcd_to_csv.
  destruct (parse_timescale lines); [| split; [| intros names]; discriminate].
  destruct (Hp (Some []) eq_refl) as [-> | [sel ->]]; cbn.
  - split; [| intros names]; discriminate.
  - split; [| intros names];
      destruct (st _); discriminate.
Qed.

(* ===================================================================== *)
(** * Bit offsets of selected bus bits                                    *)
(* ===================================================================== *)

Lemma odict_get_In {V} (k : string) (d : ODict.t V) (v : V) :
  ODict.get k d = Some v -> In (k, v) d.
Proof.
  induction d as [| [k' v'] d IH]; cbn; [discriminate |].
  destruct (String.eqb_spec k k') as [-> | _].
  - intros [= ->]. now left.
  - intros H. right. auto.
Qed.

Lemma set_b2b_ok bus_defs sid l d :
  b2b_ok bus_defs d -> Forall (offset_ok bus_defs sid) l ->
  b2b_ok bus_defs (ODict.set sid l d).
Proof.
  intros Hd Hl. induction Hd as [| [k v] d Hk Hd IH]; cbn.
  - constructor; [exact Hl | constructor].
  - destruct (String.eqb_spec sid k) as [-> | _].
    + constructor; assumption.
    + constructor; assumption.
Qed.

Lemma append_at_b2b_ok bus_defs sid b d :
  b2b_ok bus_defs d -> offset_ok bus_defs sid b ->
  b2b_ok bus_defs (append_at sid b d).
Proof.
  intros Hd Hb. unfold append_at.
  destruct (ODict.get sid d) as [l |] eqn:E.
  - apply set_b2b_ok; [exact Hd |].
    apply odict_get_In in E.
    pose proof (proj1 (List.Forall_forall _ _) Hd _ E) as Hl. cbn in Hl.
    apply Forall_app. split; [exact Hl | now constructor].
  - apply Forall_app. split; [exact Hd |].
    constructor; [| constructor]. now constructor.
Qed.

Lemma in_range_offset msb lsb idx :
  in_range msb lsb idx = true ->
  bit_offset msb lsb idx = Z.abs (msb - idx) /\ 0 <= bit_offset msb lsb idx.
Proof.
  unfold in_range, bit_offset. intros H.
  destruct (Z.leb_spec lsb msb); lia.
Qed.

Lemma find_bus_ok base idx bus_defs sid off w :
  find_bus base idx bus_defs = Some (sid, off, w) ->
  exists d, In (sid, d) bus_defs /\ bd_base d = base /\
            in_range (bd_msb d) (bd_lsb d) idx = true /\
            w = bd_width d /\ off = bit_offset (bd_msb d) (bd_lsb d) idx.
Proof.
  induction bus_defs as [| [k d] r IH]; cbn; [discriminate |].
  destruct (String.eqb_spec (bd_base d) base) as [Hb | _]; cbn [negb].
  - destruct (in_range _ _ _) eqn:Hr.
    + intros [= -> <- <-]. exists d. repeat split; auto.
    + intros H. destruct (IH H) as (d' & Hin & Hrest).
      exists d'. split; [now right | exact Hrest].
  - intros H. destruct (IH H) as (d' & Hin & Hrest).
    exists d'. split; [now right | exact Hrest].
Qed.

Lemma pick_one_ok s2i bus_defs acc n :
  b2b_ok bus_defs (busid_to_bits acc) ->
  b2b_ok bus_defs (busid_to_bits (pick_one s2i bus_defs acc n)).
Proof.
  intros H. unfold pick_one.
  destruct (ODict.mem n s2i); [exact H |].
  destruct (RE_BUSBIT n) as [[base idx_str] |] eqn:Em; [| exact H].
  destruct (find_bus _ _ _) as [[[sid off] w] |] eqn:Ef; [| exact H].
  cbn. apply append_at_b2b_ok; [exact H |].
  apply find_bus_ok in Ef as (d & Hin & Hb & Hr & Hw & Ho).
  exists base, idx_str, d. cbn zeta.
  destruct (in_range_offset _ _ _ Hr) as [Ha _].
  repeat split; auto.
  congruence.
Qed.

Lemma pick_ok s2i bus_defs wanted :
  b2b_ok bus_defs (busid_to_bits (pick s2i bus_defs wanted)).
Proof.
  unfold pick.
  apply (fold_left_preserves
           (fun acc => b2b_ok bus_defs (busid_to_bits acc)));
    [intros; now apply pick_one_ok | constructor].
Qed.

(** C2. Every entry [(n, off, w)] that the selection files under a bus
    identifier comes from a name [n = base[idx]] and a bus declared with
    that base whose range holds [idx], and [off] is the distance from the
    most significant position to [idx]: [msb - idx] for a descending
    range, [idx - msb] for an ascending one.  For the declaration [[7:0]]
    and the selection [base[3]] the offset is 4. *)
Theorem bus_bit_offset_from_msb (scalar_name2id : ODict.t string)
    (bus_defs : ODict.t bus_def) (wanted : list string) (sid : string)
    (entries : list bus_bit) (b : bus_bit) :
  ODict.get sid (busid_to_bits (pick scalar_name2id bus_defs wanted))
    = Some entries ->
  In b entries ->
  offset_ok bus_defs sid b /\
  prepare bus8_vcd (Some ["base[3]"]) false
    = inr (Selection ["base[3]"] [] [("#", [("base[3]", 4, 8)])]).
Proof.
  intros Hget Hin. split; [| reflexivity].
  pose proof (pick_ok scalar_name2id bus_defs wanted) as Hok.
  apply odict_get_In in Hget.
  pose proof (proj1 (List.Forall_forall _ _) Hok _ Hget) as Hl. cbn in Hl.
  exact (proj1 (List.Forall_forall _ _) Hl _ Hin).
Qed.

Lemma bus_bit_offset_from_msb_witness :
  offset_ok [("#", BusDef "base" "base" 7 0 8)] "#" ("base[3]", 4, 8) /\
  prepare bus8_vcd (Some ["base[3]"]) false
    = inr (Selection ["base[3]"] [] [("#", [("base[3]", 4, 8)])]).
Proof.
  apply (bus_bit_offset_from_msb [] [("#", BusDef "base" "base" 7 0 8)]
           ["base[3]"] "#" [("base[3]", 4, 8)]).
  - reflexivity.
  - left. reflexivity.
Defined.

(* ===================================================================== *)
(** * Reading a selected bit of a vector payload                          *)
(* ===================================================================== *)

Lemma lower_char_xz (c : ascii) :
  Ascii.eqb (PyStr.lower_char c) "x" || Ascii.eqb (PyStr.lower_char c) "z"
  = is_xz c.
Proof.
  destruct c as [[] [] [] [] [] [] [] []]; vm_compute; reflexivity.
Qed.

Lemma pad_char_cons (c0 : ascii) (rest : string) :
  pad_char (String c0 rest) = Some (fill_of c0).
Proof.
  unfold pad_char, fill_of. cbn. now rewrite lower_char_xz.
Qed.

Lemma chars_str (l : list ascii) : PyStr.chars (PyStr.str l) = l.
Proof. apply list_ascii_of_string_of_list_ascii. Qed.

Lemma len_chars (s : string) :
  PyStr.len s = Z.of_nat (length (PyStr.chars s)).
Proof.
  unfold PyStr.len, PyStr.chars. f_equal.
  induction s as [| c s IH]; cbn; [reflexivity | now rewrite IH].
Qed.

Lemma len_rjust (s : string) (width : Z) (fill : ascii) :
  PyStr.len (PyStr.rjust s width fill) = Z.max width (PyStr.len s).
Proof.
  rewrite len_chars. unfold PyStr.rjust. rewrite chars_str.
  rewrite List.length_app, List.repeat_length, Nat2Z.inj_add.
  rewrite <- len_chars. lia.
Qed.

Lemma index_nonneg (s : string) (i : Z) :
  0 <= i ->
  PyStr.index s i
  = match nth_error (PyStr.chars s) (Z.to_nat i) with
    | Some c => Some (String c EmptyString)
    | None => None
    end.
Proof.
  intros Hi. unfold PyStr.index.
  destruct (Z.ltb_spec i 0) as [Hneg | _]; [lia |]. cbv zeta.
  destruct (Z.ltb_spec i 0) as [Hneg | _]; [lia | reflexivity].
Qed.

Lemma index_rjust_fill (s : string) (width i : Z) (fill : ascii) :
  0 <= i < Z.max width (PyStr.len s) - PyStr.len s ->
  PyStr.index (PyStr.rjust s width fill) i = Some (String fill EmptyString).
Proof.
  intros Hi. rewrite index_nonneg by lia.
  unfold PyStr.rjust. rewrite chars_str.
  rewrite List.nth_error_app1 by (rewrite List.repeat_length; lia).
  rewrite List.nth_error_repeat by lia. reflexivity.
Qed.

Lemma index_rjust_payload (s : string) (width i : Z) (fill : ascii) :
  Z.max width (PyStr.len s) - PyStr.len s <= i ->
  0 <= i ->
  PyStr.index (PyStr.rjust s width fill) i
  = PyStr.index s (i - (Z.max width (PyStr.len s) - PyStr.len s)).
Proof.
  intros Hi H0. rewrite !index_nonneg by lia.
  unfold PyStr.rjust. rewrite chars_str.
  rewrite List.nth_error_app2 by (rewrite List.repeat_length; lia).
  rewrite List.repeat_length.
  replace (Z.to_nat i - Z.to_nat (width - PyStr.len s))%nat
    with (Z.to_nat (i - (Z.max width (PyStr.len s) - PyStr.len s)))
    by lia.
  reflexivity.
Qed.

Lemma index_in_range (s : string) (i : Z) :
  0 <= i < PyStr.len s -> is_Some (PyStr.index s i).
Proof.
  intros Hi. rewrite index_nonneg by lia.
  destruct (nth_error (PyStr.chars s) (Z.to_nat i)) eqn:E; [eauto |].
  apply List.nth_error_None in E. rewrite len_chars in Hi. lia.
Qed.

Lemma raw_bit_justified (c0 : ascii) (rest : string) (offset width : Z) :
  0 <= offset ->
  raw_bit (String c0 rest) offset width = justified_bit c0 rest offset width
  /\ is_Some (justified_bit c0 rest offset width).
Proof.
  intros Hoff. unfold justified_bit.
  set (bits := String c0 rest).
  set (padded_len := Z.max width (PyStr.len bits)).
  set (pad := padded_len - PyStr.len bits).
  cbv zeta. split.
  - unfold raw_bit. unfold bits at 1. rewrite pad_char_cons.
    rewrite len_rjust. fold padded_len.
    destruct (Z.leb_spec padded_len offset); [reflexivity |].
    destruct (Z.ltb_spec offset pad).
    + apply index_rjust_fill. unfold pad, padded_len in *. lia.
    + apply index_rjust_payload; unfold pad, padded_len in *; lia.
  - destruct (Z.leb_spec padded_len offset); [eauto |].
    destruct (Z.ltb_spec offset pad); [eauto |].
    apply index_in_range. unfold pad, padded_len in *. lia.
Qed.

Lemma str_cons (c : ascii) (l : list ascii) :
  PyStr.str (c :: l) = String c (PyStr.str l).
Proof. reflexivity. Qed.

Lemma RE_VECTOR_inv (line bits sid : string) :
  RE_VECTOR line = Some (bits, sid) ->
  RE_SCALAR line = None /\ exists c0 rest, bits = String c0 rest.
Proof.
  unfold RE_VECTOR, RE_SCALAR.
  destruct (PyStr.chars line) as [| c r]; [discriminate |].
  destruct (Ascii.eqb c "b" || Ascii.eqb c "B") eqn:Eb; [| discriminate].
  assert (Hc : is_bitchar c = false).
  { apply orb_true_iff in Eb as [E | E]; apply Ascii.eqb_eq in E;
      subst c; reflexivity. }
  rewrite Hc.
  destruct (PyStr.take_while is_bitchar r) as [| b0 bl]; [discriminate |].
  destruct (PyStr.take_while PyStr.isspace _); [discriminate |].
  destruct (PyStr.take_while nonspace _); [discriminate |].
  destruct (all_space _); [| discriminate].
  intros [= <- _]. split; [reflexivity |].
  exists b0, (PyStr.str bl). apply str_cons.
Qed.

(** C7. For every vector event, each selected bit [(name, offset, width)]
    of the bus is updated by the same rule, in turn.  The raw bit is read
    from the payload right-justified in [width] characters: positions left
    of the payload hold the payload's first character when that is [x],
    [X], [z] or [Z], and [0] otherwise; an offset at or beyond the padded
    length reads the unresolved marker [x].  The raw bit is then sanitized
    against the column's value (['1'] when the column has none) and stored
    when it differs. *)
Theorem vector_event_right_justified (arm : bool) (cfg : config)
    (line bits sid : string) (lst : list bus_bit) :
  RE_VECTOR line = Some (bits, sid) ->
  ODict.get sid (cfg_busid_to_bits cfg) = Some lst ->
  (forall s,
     value_change arm cfg line s = fold_left (vector_assign arm bits) lst s)
  /\
  exists c0 rest,
    bits = String c0 rest /\
    forall s name offset width,
      st s = Running -> 0 <= offset ->
      exists raw,
        justified_bit c0 rest offset width = Some raw /\
        raw_bit bits offset width = Some raw /\
        cur_vals (vector_assign arm bits s (name, offset, width))
        = (let prev := default "1" (cur_vals s !! name) in
           let new := sanitize_bit raw prev in
           if bool_decide (new = prev) then cur_vals s
           else <[name := new]> (cur_vals s)).
Proof.
  intros Hv Hget.
  destruct (RE_VECTOR_inv _ _ _ Hv) as (Hs & c0 & rest & ->).
  split.
  - intros s. unfold value_change. now rewrite Hs, Hv, Hget.
  - exists c0, rest. split; [reflexivity |].
    intros s name offset width Hrun Hoff.
    destruct (raw_bit_justified c0 rest offset width Hoff) as [Er [raw Ej]].
    exists raw. split; [exact Ej |]. rewrite Ej in Er.
    split; [exact Er |].
    unfold vector_assign. rewrite Hrun, Er. cbv zeta.
    now destruct (bool_decide _).
Qed.

Lemma vector_event_right_justified_witness :
  (forall s,
     value_change true bus_cfg "bx01 #" s
     = fold_left (vector_assign true "x01") [("d[6]", 1, 8); ("d[0]", 7, 8)] s)
  /\ raw_bit "x01" 1 8 = Some "x" /\ raw_bit "x01" 7 8 = Some "1"
  /\ raw_bit "x01" 8 8 = Some "x"
  /\ cur_vals (value_change true bus_cfg "b10 #" (init_state ["d[6]"; "d[0]"]))
     = <["d[0]" := "0"]> (<["d[6]" := "0"]> (init_cur_vals ["d[6]"; "d[0]"])).
Proof.
  destruct (vector_event_right_justified true bus_cfg "bx01 #" "x01" "#"
              [("d[6]", 1, 8); ("d[0]", 7, 8)] eq_refl eq_refl)
    as [Hv _].
  split; [exact Hv |]. repeat split.
Defined.

(* ===================================================================== *)
(** * The default selection                                               *)
(* ===================================================================== *)

Lemma mem_keys {V} (k : string) (d : ODict.t V) :
  ODict.mem k d = true <-> In k (ODict.keys d).
Proof.
  unfold ODict.mem, ODict.keys.
  induction d as [| [k' v] d IH]; cbn; [split; [discriminate | tauto] |].
  destruct (String.eqb_spec k k') as [-> | Hne].
  - split; auto.
  - rewrite IH. split; [auto | intros [Heq | H]; [congruence | exact H]].
Qed.

Lemma keys_setdefault {V} (k : string) (v : V) (d : ODict.t V) :
  ODict.keys (ODict.setdefault k v d)
  = if ODict.mem k d then ODict.keys d else (ODict.keys d ++ [k])%list.
Proof.
  unfold ODict.setdefault, ODict.keys.
  destruct (ODict.mem k d); [reflexivity |]. now rewrite List.map_app.
Qed.

Lemma parse_header_keys (lines : list string) :
  forall (s : ODict.t string) (b : ODict.t bus_def),
    List.NoDup (ODict.keys s) ->
    List.NoDup (ODict.keys (fst (parse_header lines s b))) /\
    forall n, In n (ODict.keys (fst (parse_header lines s b)))
              <-> In n (ODict.keys s) \/ In n (declared_scalar_names lines).
Proof.
  induction lines as [| line rest IH]; intros s b Hs; cbn.
  - split; [exact Hs | tauto].
  - destruct (PyStr.contains _ line); [cbn; split; [exact Hs | tauto] |].
    destruct (parse_var_line line) as [[[[width sid] ref] rng] |];
      [| apply IH; exact Hs].
    destruct (width =? 1).
    + assert (Hs' : List.NoDup (ODict.keys (ODict.setdefault ref sid s))).
      { rewrite keys_setdefault.
        destruct (ODict.mem ref s) eqn:Em; [exact Hs |].
        apply List.NoDup_app; repeat split.
        - exact Hs.
        - constructor; [tauto | constructor].
        - intros x Hx [<- | []].
          apply mem_keys in Hx. congruence. }
      destruct (IH (ODict.setdefault ref sid s) b Hs') as [Hn Hi].
      split; [exact Hn |]. intros n. rewrite Hi, keys_setdefault.
      destruct (ODict.mem ref s) eqn:Em.
      * apply mem_keys in Em. cbn. split; [tauto |].
        intros [H | [<- | H]]; auto.
      * rewrite List.in_app_iff. cbn. tauto.
    + destruct (match rng with
                | Some r => _
                | None => _
                end) as [msb lsb].
      apply IH; exact Hs.
Qed.

Lemma insert_sorted_perm (x : string) (l : list string) :
  Permutation (insert_sorted x l) (x :: l).
Proof.
  induction l as [| y l IH]; cbn; [reflexivity |].
  destruct (String.leb x y); [reflexivity |].
  rewrite IH. apply perm_swap.
Qed.

Lemma sorted_perm (l : list string) : Permutation (sorted l) l.
Proof.
  induction l as [| x l IH]; cbn; [reflexivity |].
  rewrite insert_sorted_perm. now constructor.
Qed.

Lemma leb_false_flip (x y : string) :
  String.leb x y = false -> String.leb y x = true.
Proof.
  intros H. destruct (String.leb_total x y) as [H' | H']; congruence.
Qed.

Lemma insert_sorted_Sorted (x : string) (l : list string) :
  Sorted leb_str l -> Sorted leb_str (insert_sorted x l).
Proof.
  induction l as [| y l IH]; intros Hl; cbn.
  - repeat constructor.
  - destruct (String.leb x y) eqn:E.
    + constructor; [exact Hl | now constructor].
    + inversion Hl as [| ? ? Hl' Hhd]; subst.
      constructor; [now apply IH |].
      destruct l as [| z l]; cbn.
      * constructor. now apply leb_false_flip.
      * destruct (String.leb x z).
        -- constructor. now apply leb_false_flip.
        -- inversion Hhd; subst. now constructor.
Qed.

Lemma sorted_Sorted (l : list string) : Sorted leb_str (sorted l).
Proof.
  induction l as [| x l IH]; cbn; [constructor |].
  now apply insert_sorted_Sorted.
Qed.

(** C8, as the spec states it, fails: two scalars declared as [b], then
    [a] come out as the columns [a], [b]. *)
Lemma default_columns_not_declaration_order :
  exists sel,
    prepare unordered_vcd None false = inr sel /\
    signals sel = ["a"; "b"] /\
    declared_scalar_names unordered_vcd = ["b"; "a"] /\
    signals sel <> declared_scalar_names unordered_vcd.
Proof.
  eexists. split; [reflexivity |]. repeat split. discriminate.
Qed.

(** C8, amended. When neither a viewer-configuration file nor an explicit
    signal list is given (and the header declares a signal at all), the
    column list holds exactly the declared names of the width-1 signals,
    each once, in ascending lexical order of their characters. *)
Theorem default_columns_sorted (lines : list string) :
  match prepare lines None false with
  | inl r => r = NoSignalsFound
  | inr sel =>
      Sorted leb_str (signals sel) /\
      List.NoDup (signals sel) /\
      forall n, In n (signals sel) <-> In n (declared_scalar_names lines)
  end.
Proof.
  unfold prepare.
  pose proof (parse_header_keys lines [] [] (List.NoDup_nil _)) as [Hn Hi].
  destruct (parse_header lines [] []) as [s2i bd]. cbn [fst] in *.
  assert (Hsel : Sorted leb_str (sorted (ODict.keys s2i)) /\
                 List.NoDup (sorted (ODict.keys s2i)) /\
                 forall n, In n (sorted (ODict.keys s2i))
                           <-> In n (declared_scalar_names lines)).
  { split; [apply sorted_Sorted |]. split.
    - eapply Permutation_NoDup; [symmetry; apply sorted_perm | exact Hn].
    - intros n. split.
      + intros H.
        eapply Permutation_in in H; [| apply sorted_perm].
        apply Hi in H. cbn in H. tauto.
      + intros H.
        eapply Permutation_in; [symmetry; apply sorted_perm |].
        apply Hi. now right. }
  destruct s2i as [| kv s2i']; [destruct bd as [| kb bd'] |];
    cbn; try reflexivity; exact Hsel.
Qed.

(* ===================================================================== *)
(** * The clk/data scenario                                               *)
(* ===================================================================== *)

(** C3, as the spec states it, fails: the event [1!] at tick 0 meets the
    initial value ['1'] of the column, changes nothing and arms no row, so
    no row is written for tick 0. *)
Lemma clk_scenario_no_row_at_zero :
  written (vcd_to_csv 0 demo_vcd None None None false None)
    = ["Time[s],clk"; "0.000000005000,0"] /\
  forall second_row,
    tl (written (vcd_to_csv 0 demo_vcd None None None false None))
    <> ["0.000000000000,1"; second_row].
Proof.
  split; [vm_compute; reflexivity |].
  intros second_row. vm_compute. discriminate.
Qed.

(** C3, amended.  For the header that declares the scalar [clk] (id [!])
    and the bus [data[1:0]] (id: a double-quote character, width 2) and
    the body [#0], [1!], [b10] on the bus, [#5], [0!], event mode with the
    default selection and no time bounds writes exactly one row after the
    header line: the row of tick 5, at time [5 * scale], with value [0].
    The data bits are not columns. *)
Theorem clk_scenario_single_row (ts : float) :
  rows (event_run (demo_cfg ts) demo_vcd) = [((5 * ts)%float, ["0"])] /\
  st (event_run (demo_cfg ts) demo_vcd) = Running /\
  vcd_to_csv 0 demo_vcd None None None false None
    = Outcome ["Time[s],clk"; "0.000000005000,0"] Returned.
Proof.
  repeat split; vm_compute; reflexivity.
Qed.

(* ===================================================================== *)
(** * Facts on binary64 comparisons                                       *)
(* ===================================================================== *)

Lemma SFcompare_swap (x y : spec_float) :
  SFcompare y x = option_map CompOpp (SFcompare x y).
Proof.
  destruct x as [sx | sx | | sx mx ex], y as [sy | sy | | sy my ey];
    cbn; try reflexivity;
    try (destruct sx; reflexivity); try (destruct sy; reflexivity);
    try (destruct sx, sy; reflexivity).
  pose proof (Pos.compare_cont_antisym mx my Eq) as A. cbn in A.
  destruct sx, sy; cbn; try reflexivity;
    rewrite (Z.compare_antisym ex ey);
    destruct (ex ?= ey) eqn:E; cbn; try reflexivity;
    rewrite <- A; try reflexivity.
Qed.

Lemma SFcompare_None (x y : spec_float) :
  SFcompare x y = None -> x = S754_nan \/ y = S754_nan.
Proof.
  destruct x as [sx | sx | | sx mx ex], y as [sy | sy | | sy my ey];
    cbn; auto; try discriminate.
Qed.

Lemma is_nan_false (a : float) :
  is_nan a = false -> Prim2SF a <> S754_nan.
Proof.
  unfold is_nan. rewrite FloatAxioms.eqb_spec. intros H E. rewrite E in H.
  discriminate.
Qed.

(** For two numbers, not greater means at most. *)
Lemma not_gt_le (a b : float) :
  PyFloat.gt a b = false ->
  PyFloat.le a b = true \/ is_nan a = true \/ is_nan b = true.
Proof.
  unfold PyFloat.gt, PyFloat.le. intros H.
  destruct (is_nan a) eqn:Ea; [auto |].
  destruct (is_nan b) eqn:Eb; [auto |]. left.
  apply is_nan_false in Ea, Eb.
  rewrite FloatAxioms.ltb_spec in H. rewrite FloatAxioms.leb_spec.
  unfold SFltb in H. unfold SFleb.
  rewrite (SFcompare_swap (Prim2SF a) (Prim2SF b)) in H.
  destruct (SFcompare (Prim2SF a) (Prim2SF b)) as [[] |] eqn:E;
    cbn in H; try reflexivity; try discriminate.
  apply SFcompare_None in E. tauto.
Qed.

(* ===================================================================== *)
(** * Event mode and the upper bound                                      *)
(* ===================================================================== *)

Lemma scalar_assign_rows arm val s name :
  rows (scalar_assign arm val s name) = rows s.
Proof.
  unfold scalar_assign. destruct (st s); try reflexivity.
  destruct (cur_vals s !! name); [| reflexivity].
  now destruct (bool_decide _).
Qed.

Lemma vector_assign_rows arm bits s b :
  rows (vector_assign arm bits s b) = rows s.
Proof.
  unfold vector_assign. destruct (st s); try reflexivity.
  destruct b as [[bit_name offset] width].
  destruct (raw_bit _ _ _); [| reflexivity].
  now destruct (bool_decide _).
Qed.

Lemma fold_left_same {A B C} (g : A -> C) (f : A -> B -> A) :
  (forall a b, g (f a b) = g a) ->
  forall l a, g (fold_left f l a) = g a.
Proof.
  intros Hf l. induction l as [| b l IH]; intros a; cbn;
    [reflexivity | now rewrite IH].
Qed.

Lemma value_change_rows arm cfg line s :
  rows (value_change arm cfg line s) = rows s.
Proof.
  unfold value_change.
  destruct (RE_SCALAR line) as [[val sid] |].
  - destruct (ODict.get sid _); [| reflexivity].
    apply fold_left_same. intros. apply scalar_assign_rows.
  - destruct (RE_VECTOR line) as [[bits sid] |]; [| reflexivity].
    destruct (ODict.get sid _); [| reflexivity].
    apply fold_left_same. intros. apply vector_assign_rows.
Qed.

Lemma emit_row_rows cfg t s :
  rows (emit_row cfg t s) = rows s
  \/ exists vs, rows (emit_row cfg t s) = rows s ++ [(t, vs)].
Proof.
  unfold emit_row. destruct (row_values _ _) as [k | vs]; cbn; eauto.
Qed.

Lemma flush_rows_within cfg M s :
  tmax cfg = Some M ->
  rows_within M s -> rows_within M (fst (flush_if_needed cfg s)).
Proof.
  intros HM H. unfold flush_if_needed.
  destruct (cur_time_ticks s); [| exact H].
  destruct (changed_at_time s); [| exact H]. cbn [negb].
  destruct (PyFloat.int_mul _ _) as [t |]; [| exact H].
  destruct (below_tmin cfg t); [exact H |].
  destruct (above_tmax cfg t) eqn:Ea; [exact H |].
  unfold above_tmax in Ea. rewrite HM in Ea.
  assert (Hr : rows_within M (emit_row cfg t s)).
  { unfold rows_within.
    destruct (emit_row_rows cfg t s) as [-> | [vs ->]]; [exact H |].
    apply Forall_app. split; [exact H |]. now repeat constructor. }
  destruct (st (emit_row cfg t s)); exact Hr.
Qed.

Lemma event_line_rows_within cfg M s line :
  tmax cfg = Some M ->
  rows_within M s -> rows_within M (event_line cfg s line).
Proof.
  intros HM H. unfold event_line.
  destruct (st s); try exact H.
  destruct (header_done s); cbn [negb].
  2: { now destruct (PyStr.contains _ _). }
  destruct (String.eqb _ EmptyString); [exact H |].
  destruct (RE_TIME _) as [g |].
  - pose proof (flush_rows_within cfg M s HM H) as E.
    destruct (flush_if_needed cfg s) as [s' stop]. cbn in E.
    destruct (st s'); try exact E.
    destruct stop; exact E.
  - destruct (starts_dollar_or_hash _); [exact H |].
    unfold rows_within. now rewrite value_change_rows.
Qed.

Lemma event_run_rows_within cfg M lines :
  tmax cfg = Some M -> rows_within M (event_run cfg lines).
Proof.
  intros HM. unfold event_run, event_finish.
  assert (H : rows_within M
                (event_loop cfg lines (init_state (cfg_signals cfg)))).
  { apply (fold_left_preserves (rows_within M));
      [intros; now apply event_line_rows_within | constructor]. }
  destruct (st _); try exact H. now apply flush_rows_within.
Qed.

Lemma RE_TIME_nonempty line g :
  RE_TIME line = Some g -> String.eqb line EmptyString = false.
Proof.
  destruct (String.eqb_spec line EmptyString) as [-> | _];
    [discriminate | auto].
Qed.

Lemma event_loop_app cfg l1 l2 s :
  event_loop cfg (l1 ++ l2) s = event_loop cfg l2 (event_loop cfg l1 s).
Proof. apply fold_left_app. Qed.

Lemma event_loop_not_running cfg lines s :
  st s <> Running -> event_loop cfg lines s = s.
Proof.
  intros H. induction lines as [| l lines IH]; cbn; [reflexivity |].
  unfold event_loop in IH.
  replace (event_line cfg s l) with s; [exact IH |].
  unfold event_line. destruct (st s); congruence.
Qed.

(** C5. In event mode with an upper bound [M]: no row of the output has a
    time above [M] (so each row's time is at most [M], as far as the two
    are numbers).  When a time marker finds a change pending at a time
    above [M] that the lower bound does not drop, no row is written,
    the run stops at once, and every later line is discarded. *)
Theorem event_rows_within_tmax (cfg : config) (M : float)
    (lines : list string) :
  tmax cfg = Some M ->
  (forall r, In r (rows (event_run cfg lines)) ->
     PyFloat.gt (fst r) M = false /\
     (PyFloat.le (fst r) M = true \/ is_nan (fst r) = true
      \/ is_nan M = true)) /\
  (forall pre marker rest g k t,
     lines = pre ++ marker :: rest ->
     let s := event_loop cfg pre (init_state (cfg_signals cfg)) in
     st s = Running -> header_done s = true ->
     RE_TIME (PyStr.rstrip marker) = Some g ->
     cur_time_ticks s = Some k -> changed_at_time s = true ->
     PyFloat.int_mul k (ts_sec cfg) = Some t ->
     below_tmin cfg t = false -> PyFloat.gt t M = true ->
     event_run cfg lines = set_status s Stopped /\
     rows (event_run cfg lines) = rows s).
Proof.
  intros HM. split.
  - intros r Hr.
    pose proof (event_run_rows_within cfg M lines HM) as H.
    pose proof (proj1 (List.Forall_forall _ _) H r Hr) as Hg. cbn in Hg.
    split; [exact Hg | now apply not_gt_le].
  - intros pre marker rest g k t -> s Hrun Hhd Hm Hk Hc Ht Hlo Hhi.
    assert (Hstep : event_line cfg s marker = set_status s Stopped).
    { unfold event_line. rewrite Hrun, Hhd. cbn [negb].
      rewrite (RE_TIME_nonempty _ _ Hm), Hm.
      unfold flush_if_needed. rewrite Hk, Hc. cbn [negb].
      rewrite Ht, Hlo. unfold above_tmax. rewrite HM, Hhi.
      now rewrite Hrun. }
    assert (Hall : event_run cfg (pre ++ marker :: rest)
                   = set_status s Stopped).
    { unfold event_run. rewrite event_loop_app. fold s.
      change (event_loop cfg (marker :: rest) s)
        with (event_loop cfg rest (event_line cfg s marker)).
      rewrite Hstep, event_loop_not_running by (cbn; discriminate).
      reflexivity. }
    split; [exact Hall | now rewrite Hall].
Qed.

Lemma event_rows_within_tmax_witness :
  (forall r,
     In r (rows (event_run bounded_cfg (bounded_pre ++ ["#9"; "0!"]))) ->
     PyFloat.gt (fst r) 2 = false /\
     (PyFloat.le (fst r) 2 = true \/ is_nan (fst r) = true
      \/ is_nan 2 = true)) /\
  rows (event_run bounded_cfg (bounded_pre ++ ["#9"; "0!"]))
    = [(0%float, ["0"])].
Proof.
  destruct (event_rows_within_tmax bounded_cfg 2%float
              (bounded_pre ++ ["#9"; "0!"]) eq_refl) as [Ha Hb].
  split; [exact Ha |].
  pose proof (Hb bounded_pre "#9" ["0!"] "9" 5 5%float eq_refl eq_refl
                eq_refl eq_refl eq_refl eq_refl eq_refl eq_refl eq_refl)
    as [_ Hr].
  rewrite Hr. reflexivity.
Defined.

(* ===================================================================== *)
(** * Event mode and the lower bound                                      *)
(* ===================================================================== *)

Lemma row_values_some (sigs : list string) (cv : gmap string string) :
  has_cols sigs cv -> exists vs, row_values cv sigs = inr vs.
Proof.
  induction 1 as [| n sigs [v Hv] _ [vs IH]]; cbn; [eauto |].
  rewrite Hv, IH. eauto.
Qed.

Lemma fold_left_commute {A B} (h : A -> A) (f : A -> B -> A) :
  (forall a b, f (h a) b = h (f a b)) ->
  forall l a, fold_left f l (h a) = h (fold_left f l a).
Proof.
  intros Hf l. induction l as [| b l IH]; intros a; cbn;
    [reflexivity | now rewrite Hf, IH].
Qed.

Lemma scalar_assign_set_rows arm val s name l :
  scalar_assign arm val (set_rows s l) name
  = set_rows (scalar_assign arm val s name) l.
Proof.
  unfold scalar_assign. cbn. destruct (st s); try reflexivity.
  destruct (cur_vals s !! name); [| reflexivity].
  now destruct (bool_decide _).
Qed.

Lemma vector_assign_set_rows arm bits s b l :
  vector_assign arm bits (set_rows s l) b
  = set_rows (vector_assign arm bits s b) l.
Proof.
  unfold vector_assign. cbn. destruct (st s); try reflexivity.
  destruct b as [[bit_name offset] width].
  destruct (raw_bit _ _ _); [| reflexivity].
  now destruct (bool_decide _).
Qed.

Lemma value_change_set_rows arm cfg line s l :
  value_change arm cfg line (set_rows s l)
  = set_rows (value_change arm cfg line s) l.
Proof.
  unfold value_change.
  destruct (RE_SCALAR line) as [[val sid] |].
  - destruct (ODict.get sid _); [| reflexivity].
    apply (fold_left_commute (fun s => set_rows s l)).
    intros. apply scalar_assign_set_rows.
  - destruct (RE_VECTOR line) as [[bits sid] |]; [| reflexivity].
    destruct (ODict.get sid _); [| reflexivity].
    apply (fold_left_commute (fun s => set_rows s l)).
    intros. apply vector_assign_set_rows.
Qed.

Lemma value_change_drop_early m arm cfg line s :
  value_change arm cfg line (drop_early m s)
  = drop_early m (value_change arm (no_tmin cfg) line s).
Proof.
  unfold drop_early. rewrite value_change_set_rows.
  now rewrite (value_change_rows arm (no_tmin cfg) line s).
Qed.

Section LowerBound.

Variable cfg : config.
Variable m : float.
Hypothesis Hmin : tmin cfg = Some m.
Hypothesis Hcompat :
  forall t, PyFloat.lt t m = true -> above_tmax cfg t = false.

Lemma flush_drop_early (s : state) :
  st s = Running ->
  has_cols (cfg_signals cfg) (cur_vals s) ->
  flush_if_needed cfg (drop_early m s)
  = (drop_early m (fst (flush_if_needed (no_tmin cfg) s)),
     snd (flush_if_needed (no_tmin cfg) s)).
Proof.
  intros Hrun Hcols. unfold flush_if_needed. cbn.
  destruct (cur_time_ticks s); [| reflexivity].
  destruct (changed_at_time s); [| reflexivity]. cbn [negb].
  destruct (PyFloat.int_mul _ _) as [t |]; [| reflexivity].
  unfold below_tmin at 1. rewrite Hmin.
  change (above_tmax (no_tmin cfg) t) with (above_tmax cfg t).
  destruct (row_values_some _ _ Hcols) as [vs Hvs].
  destruct (PyFloat.lt t m) eqn:Elt.
  - rewrite (Hcompat t Elt). unfold emit_row. cbn. rewrite Hvs. cbn.
    rewrite Hrun. cbn. unfold drop_early, set_rows, set_changed. cbn.
    rewrite List.filter_app. cbn.
    replace (not_before m (t, vs)) with false
      by (unfold not_before; cbn [fst]; now rewrite Elt).
    now rewrite app_nil_r.
  - destruct (above_tmax cfg t); [reflexivity |].
    unfold emit_row. cbn. rewrite Hvs. cbn. rewrite Hrun. cbn.
    unfold drop_early, set_rows, set_changed. cbn.
    rewrite List.filter_app. cbn.
    replace (not_before m (t, vs)) with true
      by (unfold not_before; cbn [fst]; now rewrite Elt).
    reflexivity.
Qed.

Lemma event_line_drop_early (s : state) (line : string) :
  has_cols (cfg_signals cfg) (cur_vals s) ->
  event_line cfg (drop_early m s) line
  = drop_early m (event_line (no_tmin cfg) s line).
Proof.
  intros Hcols. unfold event_line.
  change (st (drop_early m s)) with (st s).
  change (header_done (drop_early m s)) with (header_done s).
  destruct (st s) eqn:Hrun; try reflexivity.
  destruct (header_done s); cbn [negb].
  2: { now destruct (PyStr.contains _ _). }
  destruct (String.eqb _ EmptyString); [reflexivity |].
  destruct (RE_TIME _) as [g |].
  - rewrite (flush_drop_early s Hrun Hcols).
    destruct (flush_if_needed (no_tmin cfg) s) as [s' stop]. cbn [fst snd].
    change (st (drop_early m s')) with (st s').
    destruct (st s'); try reflexivity.
    now destruct stop.
  - destruct (starts_dollar_or_hash _); [reflexivity |].
    apply value_change_drop_early.
Qed.

Lemma event_loop_drop_early (lines : list string) :
  forall s,
    has_cols (cfg_signals cfg) (cur_vals s) ->
    event_loop cfg lines (drop_early m s)
    = drop_early m (event_loop (no_tmin cfg) lines s).
Proof.
  induction lines as [| l lines IH]; intros s Hcols; [reflexivity |].
  cbn. rewrite (event_line_drop_early s l Hcols).
  apply IH.
  now apply (event_line_keeps _ (has_cols_insert (cfg_signals cfg))).
Qed.

Lemma event_run_drop_early (lines : list string) :
  event_run cfg lines = drop_early m (event_run (no_tmin cfg) lines).
Proof.
  unfold event_run.
  change (init_state (cfg_signals cfg))
    with (drop_early m (init_state (cfg_signals (no_tmin cfg)))) at 1.
  rewrite event_loop_drop_early by apply init_has_cols.
  set (s := event_loop (no_tmin cfg) lines _).
  assert (Hcols : has_cols (cfg_signals cfg) (cur_vals s)).
  { apply (event_loop_keeps _ (has_cols_insert (cfg_signals cfg))).
    apply init_has_cols. }
  unfold event_finish.
  change (st (drop_early m s)) with (st s).
  destruct (st s) eqn:Hrun; try reflexivity.
  now rewrite (flush_drop_early s Hrun Hcols).
Qed.

End LowerBound.

(** C6. In event mode with a lower bound [m] (and an upper bound, if any,
    that no time below [m] exceeds): a flush at a time strictly before [m]
    writes no row and leaves the value map as it is; a line that is not a
    time marker is handled exactly as without the lower bound, so value
    updates are applied at all times; a flush that does write stores the
    values of the map at that moment.  Hence the value map of the run is
    that of the run without lower bound, and the rows written are exactly
    the rows of that run whose time is not before [m]. *)
Theorem event_tmin_drops_rows_keeps_state (cfg : config) (m : float)
    (lines : list string) :
  tmin cfg = Some m ->
  (forall t, PyFloat.lt t m = true -> above_tmax cfg t = false) ->
  (forall s k t,
     cur_time_ticks s = Some k -> changed_at_time s = true ->
     PyFloat.int_mul k (ts_sec cfg) = Some t -> PyFloat.lt t m = true ->
     flush_if_needed cfg s = (set_changed s false, false)) /\
  (forall s line,
     RE_TIME (PyStr.rstrip line) = None ->
     event_line cfg s line = event_line (no_tmin cfg) s line) /\
  (forall s k t vs,
     st s = Running ->
     cur_time_ticks s = Some k -> changed_at_time s = true ->
     PyFloat.int_mul k (ts_sec cfg) = Some t -> PyFloat.lt t m = false ->
     above_tmax cfg t = false ->
     row_values (cur_vals s) (cfg_signals cfg) = inr vs ->
     rows (fst (flush_if_needed cfg s)) = rows s ++ [(t, vs)]) /\
  cur_vals (event_loop cfg lines (init_state (cfg_signals cfg)))
  = cur_vals (event_loop (no_tmin cfg) lines
                (init_state (cfg_signals cfg))) /\
  cur_vals (event_run cfg lines) = cur_vals (event_run (no_tmin cfg) lines)
  /\ rows (event_run cfg lines)
     = List.filter (not_before m) (rows (event_run (no_tmin cfg) lines)).
Proof.
  intros Hmin Hcompat. repeat split.
  - intros s k t Hk Hc Ht Hlt. unfold flush_if_needed.
    rewrite Hk, Hc. cbn [negb]. rewrite Ht.
    unfold below_tmin. now rewrite Hmin, Hlt.
  - intros s line Hm. unfold event_line. rewrite Hm. reflexivity.
  - intros s k t vs Hrun Hk Hc Ht Hlt Hhi Hvs. unfold flush_if_needed.
    rewrite Hk, Hc. cbn [negb]. rewrite Ht.
    unfold below_tmin. rewrite Hmin, Hlt, Hhi.
    unfold emit_row. rewrite Hvs. cbn. rewrite Hrun. reflexivity.
  - change (init_state (cfg_signals cfg))
      with (drop_early m (init_state (cfg_signals (no_tmin cfg)))) at 1.
    rewrite (event_loop_drop_early cfg m Hmin Hcompat)
      by apply init_has_cols.
    reflexivity.
  - now rewrite (event_run_drop_early cfg m Hmin Hcompat).
  - now rewrite (event_run_drop_early cfg m Hmin Hcompat).
Qed.

Lemma event_tmin_drops_rows_keeps_state_witness :
  rows (event_run (two_col_cfg None) two_col_lines)
    = [(0%float, ["0"; "1"]); (5%float, ["0"; "0"])] /\
  rows (event_run (two_col_cfg (Some 3%float)) two_col_lines)
    = [(5%float, ["0"; "0"])] /\
  cur_vals (event_run (two_col_cfg (Some 3%float)) two_col_lines)
    = cur_vals (event_run (two_col_cfg None) two_col_lines).
Proof.
  pose proof (event_tmin_drops_rows_keeps_state
                (two_col_cfg (Some 3%float)) 3%float two_col_lines
                eq_refl (fun t _ => eq_refl))
    as (_ & _ & _ & _ & Hv & Hr).
  split; [reflexivity |]. split; [| exact Hv].
  rewrite Hr. reflexivity.
Defined.

(* ===================================================================== *)
(** * The uniform grid                                                    *)
(* ===================================================================== *)








Lemma scalar_assign_frame s0 arm val s name :
  same_frame s0 s -> same_frame s0 (scalar_assign arm val s name).
Proof.
  intros H. unfold scalar_assign. destruct (st s); try exact H.
  destruct (cur_vals s !! name); [| exact H].
  now destruct (bool_decide _).
Qed.

Lemma vector_assign_frame s0 arm bits s b :
  same_frame s0 s -> same_frame s0 (vector_assign arm bits s b).
Proof.
  intros H. unfold vector_assign. destruct (st s); try exact H.
  destruct b as [[bit_name offset] width].
  destruct (raw_bit _ _ _); [| exact H].
  now destruct (bool_decide _).
Qed.

Lemma value_change_frame arm cfg line s :
  same_frame s (value_change arm cfg line s).
Proof.
  assert (H : same_frame s s) by (repeat split).
  unfold value_change.
  destruct (RE_SCALAR line) as [[val sid] |].
  - destruct (ODict.get sid _); [| exact H].
    apply (fold_left_preserves (same_frame s));
      [intros; now apply scalar_assign_frame | exact H].
  - destruct (RE_VECTOR line) as [[bits sid] |]; [| exact H].
    destruct (ODict.get sid _); [| exact H].
    apply (fold_left_preserves (same_frame s));
      [intros; now apply vector_assign_frame | exact H].
Qed.

Section Anchored.

Variables (fuel : nat) (cfg : config) (step t0 : float).
Hypothesis Hhi : above_tmax cfg t0 = false.







End Anchored.







Lemma emit_loop_step fuel cfg step t_to s nx vs :
  st s = Running -> next_sample_time s = Some nx ->
  keep_sampling cfg t_to nx = true ->
  row_values (cur_vals s) (cfg_signals cfg) = inr vs ->
  emit_loop (S fuel) cfg step t_to s
  = emit_loop fuel cfg step t_to
      (set_next (write_row s (nx, vs)) (nx + step)%float).
Proof.
  intros Hst Hnx Hk Hv. cbn [emit_loop]. rewrite Hst, Hnx, Hk.
  unfold emit_row. rewrite Hv. cbn [st write_row]. now rewrite Hst.
Qed.

Lemma emit_loop_done fuel cfg step t_to s nx :
  next_sample_time s = Some nx ->
  keep_sampling cfg t_to nx = false ->
  emit_loop fuel cfg step t_to s = s.
Proof.
  intros Hnx Hk. destruct fuel; cbn [emit_loop]; rewrite Hnx, Hk;
    now destruct (st s).
Qed.

Lemma keep_sampling_no_tmax cfg t_to nx :
  tmax cfg = None -> keep_sampling cfg t_to nx = PyFloat.lt nx t_to.
Proof. intros H. unfold keep_sampling. rewrite H. apply andb_true_r. Qed.




(* ===================================================================== *)
(** * Shape of the rows                                                   *)
(* ===================================================================== *)

Lemma row_values_shape (cv : gmap string string) (sigs vs : list string) :
  row_values cv sigs = inr vs ->
  length vs = length sigs /\ (all_clean cv -> Forall is_clean vs).
Proof.
  revert vs. induction sigs as [| n sigs IH]; intros vs; cbn.
  - intros [= <-]. split; [reflexivity | constructor].
  - destruct (cv !! n) as [v |] eqn:Ev; [| discriminate].
    destruct (row_values cv sigs) as [k | vs']; [discriminate |].
    intros [= <-]. destruct (IH vs' eq_refl) as [Hl Hc].
    split; [cbn; now rewrite Hl |].
    intros Hcv. constructor; [exact (Hcv n v Ev) | now apply Hc].
Qed.

(** What one row written by [emit_row] looks like. *)
Lemma emit_row_cases cfg t s :
  (rows (emit_row cfg t s) = rows s /\ st (emit_row cfg t s) <> Running)
  \/ exists vs,
       row_values (cur_vals s) (cfg_signals cfg) = inr vs /\
       emit_row cfg t s = write_row s (t, vs).
Proof.
  unfold emit_row. destruct (row_values _ _) as [k | vs]; [left | right].
  - split; [reflexivity | discriminate].
  - now exists vs.
Qed.

(** A property of rows that holds for every row [emit_row] can write in a
    state with resolved cells is kept by both engines. *)
Section RowShape.

Variable cfg : config.

Lemma emit_row_shaped t s : shaped cfg s -> shaped cfg (emit_row cfg t s).
Proof.
  intros [Hc Hr]. split; [now rewrite emit_row_cur_vals |].
  destruct (emit_row_cases cfg t s) as [[-> _] | (vs & Hv & ->)];
    [exact Hr |].
  cbn. apply Forall_app. split; [exact Hr |].
  constructor; [| constructor].
  destruct (row_values_shape _ _ _ Hv) as [Hl Hcl]. split; cbn; auto.
Qed.

Lemma shaped_same_rows s s' :
  rows s' = rows s -> all_clean (cur_vals s') -> shaped cfg s ->
  shaped cfg s'.
Proof. intros Hr Hc [_ H]. split; [exact Hc | now rewrite Hr]. Qed.

Lemma value_change_shaped arm line s :
  shaped cfg s -> shaped cfg (value_change arm cfg line s).
Proof.
  intros H. apply (shaped_same_rows s); [apply value_change_rows | | exact H].
  apply (value_change_keeps all_clean all_clean_insert), H.
Qed.

Lemma flush_shaped s :
  shaped cfg s -> shaped cfg (fst (flush_if_needed cfg s)).
Proof.
  intros H. unfold flush_if_needed.
  destruct (cur_time_ticks s); [| exact H].
  destruct (changed_at_time s); [| exact H]. cbn [negb].
  destruct (PyFloat.int_mul _ _) as [t |]; [| exact H].
  destruct (below_tmin cfg t); [exact H |].
  destruct (above_tmax cfg t); [exact H |].
  pose proof (emit_row_shaped t s H) as E.
  destruct (st (emit_row cfg t s)); exact E.
Qed.

Lemma event_line_shaped s line :
  shaped cfg s -> shaped cfg (event_line cfg s line).
Proof.
  intros H. unfold event_line.
  destruct (st s); try exact H.
  destruct (header_done s); cbn [negb].
  2: { now destruct (PyStr.contains _ _). }
  destruct (String.eqb _ EmptyString); [exact H |].
  destruct (RE_TIME _) as [g |].
  - pose proof (flush_shaped s H) as E.
    destruct (flush_if_needed cfg s) as [s' stop]. cbn in E.
    destruct (st s'); try exact E.
    destruct stop; exact E.
  - destruct (starts_dollar_or_hash _); [exact H |].
    now apply value_change_shaped.
Qed.

Lemma emit_loop_shaped fuel step t_to :
  forall s, shaped cfg s -> shaped cfg (emit_loop fuel cfg step t_to s).
Proof.
  induction fuel as [| fuel IH]; intros s H; cbn [emit_loop].
  - destruct (st s); try exact H.
    destruct (next_sample_time s); [| exact H].
    now destruct (keep_sampling _ _ _).
  - destruct (st s); try exact H.
    destruct (next_sample_time s) as [nx |]; [| exact H].
    destruct (keep_sampling _ _ _); [| exact H].
    pose proof (emit_row_shaped nx s H) as E.
    destruct (st (emit_row cfg nx s)); try exact E.
    apply IH. exact E.
Qed.

Lemma emit_uniform_between_shaped fuel step t_from t_to s :
  shaped cfg s -> shaped cfg (emit_uniform_between fuel cfg step t_from t_to s).
Proof.
  intros H. unfold emit_uniform_between.
  destruct (above_tmax cfg t_from); [exact H |].
  apply emit_loop_shaped. now destruct (next_sample_time s).
Qed.

Lemma uniform_line_shaped fuel step s line :
  shaped cfg s -> shaped cfg (uniform_line fuel cfg step s line).
Proof.
  intros H. unfold uniform_line.
  destruct (st s); try exact H.
  destruct (header_done s); cbn [negb].
  2: { now destruct (PyStr.contains _ _). }
  destruct (String.eqb _ EmptyString); [exact H |].
  destruct (RE_TIME _) as [g |].
  - destruct (PyFloat.int_mul _ _) as [new_sec |]; [| exact H].
    destruct (cur_time_ticks s); [| exact H].
    destruct (last_time_sec s) as [last |]; [| exact H].
    pose proof (emit_uniform_between_shaped fuel step last new_sec s H) as E.
    destruct (st (emit_uniform_between fuel cfg step last new_sec s));
      exact E.
  - destruct (starts_dollar_or_hash _); [exact H |].
    now apply value_change_shaped.
Qed.

Lemma init_shaped : shaped cfg (init_state (cfg_signals cfg)).
Proof. split; [apply init_cur_vals_clean | constructor]. Qed.

End RowShape.

(** X1. In both emission modes every row written has exactly one value
    per output column, and each value is ['0'] or ['1']. *)
Theorem rows_rectangular_and_binary (cfg : config) (lines : list string)
    (fuel : nat) (step : float) :
  Forall (row_ok cfg) (rows (event_run cfg lines)) /\
  Forall (row_ok cfg) (rows (uniform_run fuel cfg step lines)).
Proof.
  split.
  - unfold event_run, event_finish.
    assert (H : shaped cfg
                  (event_loop cfg lines (init_state (cfg_signals cfg)))).
    { apply (fold_left_preserves (shaped cfg));
        [intros; now apply event_line_shaped | apply init_shaped]. }
    destruct (st _); try apply H. now apply flush_shaped.
  - unfold uniform_run, uniform_finish.
    assert (H : shaped cfg
                  (uniform_loop fuel cfg step lines
                     (init_state (cfg_signals cfg)))).
    { apply (fold_left_preserves (shaped cfg));
        [intros; now apply uniform_line_shaped | apply init_shaped]. }
    destruct (st _); try apply H.
    destruct (cur_time_ticks _); [| apply H].
    destruct (last_time_sec _); [| apply H].
    now apply emit_uniform_between_shaped.
Qed.

(* ===================================================================== *)
(** * The uniform grid and the upper bound                                *)
(* ===================================================================== *)

Lemma emit_loop_rows_forall (Q : row -> Prop) fuel cfg step t_to :
  (forall nx vs, keep_sampling cfg t_to nx = true -> Q (nx, vs)) ->
  forall s, Forall Q (rows s) ->
            Forall Q (rows (emit_loop fuel cfg step t_to s)).
Proof.
  intros HQ. induction fuel as [| fuel IH]; intros s H; cbn [emit_loop].
  - destruct (st s); try exact H.
    destruct (next_sample_time s); [| exact H].
    now destruct (keep_sampling _ _ _).
  - destruct (st s); try exact H.
    destruct (next_sample_time s) as [nx |]; [| exact H].
    destruct (keep_sampling _ _ _) eqn:Ek; [| exact H].
    destruct (emit_row_cases cfg nx s) as [[Hr Hst] | (vs & Hv & ->)].
    + destruct (st (emit_row cfg nx s)); try congruence; now rewrite Hr.
    + cbn [st write_row].
      destruct (st s); try (cbn; apply Forall_app; split;
                            [exact H | repeat constructor; now apply HQ]).
      apply IH. cbn. apply Forall_app. split; [exact H |].
      repeat constructor. now apply HQ.
Qed.

(** X2. In uniform-grid mode with an upper bound [M], every row written
    has a time that is at most [M]. *)
Theorem uniform_rows_within_tmax (fuel : nat) (cfg : config) (step M : float)
    (lines : list string) :
  tmax cfg = Some M ->
  Forall (fun r : row => PyFloat.le (fst r) M = true)
    (rows (uniform_run fuel cfg step lines)).
Proof.
  intros HM.
  set (Q := fun r : row => PyFloat.le (fst r) M = true).
  assert (HQ : forall t_to nx vs,
             keep_sampling cfg t_to nx = true -> Q (nx, vs)).
  { intros t_to nx vs Hk. unfold keep_sampling in Hk. rewrite HM in Hk.
    now apply andb_true_iff in Hk as [_ Hk]. }
  assert (Hemit : forall t_from t_to s,
             Forall Q (rows s) ->
             Forall Q (rows (emit_uniform_between fuel cfg step
                               t_from t_to s))).
  { intros t_from t_to s H. unfold emit_uniform_between.
    destruct (above_tmax cfg t_from); [exact H |].
    apply emit_loop_rows_forall; [apply HQ |].
    now destruct (next_sample_time s). }
  assert (Hline : forall s line,
             Forall Q (rows s) ->
             Forall Q (rows (uniform_line fuel cfg step s line))).
  { intros s line H. unfold uniform_line.
    destruct (st s); try exact H.
    destruct (header_done s); cbn [negb].
    2: { now destruct (PyStr.contains _ _). }
    destruct (String.eqb _ EmptyString); [exact H |].
    destruct (RE_TIME _) as [g |].
    - destruct (PyFloat.int_mul _ _) as [new_sec |]; [| exact H].
      destruct (cur_time_ticks s); [| exact H].
      destruct (last_time_sec s) as [last |]; [| exact H].
      pose proof (Hemit last new_sec s H) as E.
      destruct (st (emit_uniform_between fuel cfg step last new_sec s));
        exact E.
    - destruct (starts_dollar_or_hash _); [exact H |].
      now rewrite value_change_rows. }
  unfold uniform_run, uniform_finish.
  assert (H : Forall Q (rows (uniform_loop fuel cfg step lines
                                (init_state (cfg_signals cfg))))).
  { apply (fold_left_preserves (fun s => Forall Q (rows s)));
      [exact Hline | constructor]. }
  destruct (st _); try exact H.
  destruct (cur_time_ticks _); [| exact H].
  destruct (last_time_sec _); [| exact H].
  now apply Hemit.
Qed.

Lemma uniform_rows_within_tmax_witness :
  Forall (fun r : row => PyFloat.le (fst r) 2 = true)
    (rows (uniform_run 10 bounded_cfg 1
             ["$enddefinitions $end"; "#0"; "0!"; "#5"])) /\
  map fst (rows (uniform_run 10 bounded_cfg 1
                   ["$enddefinitions $end"; "#0"; "0!"; "#5"]))
  = [0%float; 1%float; 2%float].
Proof.
  split; [| reflexivity].
  apply (uniform_rows_within_tmax 10 bounded_cfg 1 2). reflexivity.
Defined.

(* ===================================================================== *)
(** * A step that does not advance the sample time                        *)
(* ===================================================================== *)

(** X3. When adding the step leaves the sample time as it is (a step of
    zero, or one too small for the time), and that time is inside the
    interval, the loop of [emit_uniform_between] never ends: whatever the
    bound on its rounds, it uses them all, writing the same row each
    time. *)
Theorem uniform_stuck_step_never_ends (fuel : nat) (cfg : config)
    (step t_to nx : float) (vs : list string) (s : state) :
  st s = Running ->
  next_sample_time s = Some nx ->
  keep_sampling cfg t_to nx = true ->
  (nx + step)%float = nx ->
  row_values (cur_vals s) (cfg_signals cfg) = inr vs ->
  st (emit_loop fuel cfg step t_to s) = OutOfFuel /\
  rows (emit_loop fuel cfg step t_to s) = rows s ++ repeat (nx, vs) fuel.
Proof.
  intros Hst Hnx Hk Hfix Hv. revert s Hst Hnx Hv.
  induction fuel as [| fuel IH]; intros s Hst Hnx Hv.
  - cbn. rewrite Hst, Hnx, Hk. cbn. now rewrite app_nil_r.
  - rewrite (emit_loop_step _ _ _ _ _ nx vs Hst Hnx Hk Hv), Hfix.
    destruct (IH (set_next (write_row s (nx, vs)) nx)) as [H1 H2];
      [exact Hst | reflexivity | exact Hv |].
    split; [exact H1 |]. rewrite H2. cbn [rows set_next write_row].
    rewrite <- List.app_assoc. reflexivity.
Qed.

Lemma uniform_stuck_step_never_ends_witness :
  st (emit_loop 5 grid_cfg 0 1 (set_next (after_header ["clk"]) 0))
  = OutOfFuel /\
  rows (emit_loop 5 grid_cfg 0 1 (set_next (after_header ["clk"]) 0))
  = repeat (0%float, ["1"]) 5.
Proof.
  apply (uniform_stuck_step_never_ends 5 grid_cfg 0 1 0 ["1"]
           (set_next (after_header ["clk"]) 0));
    reflexivity.
Defined.

(* ===================================================================== *)
(** * The closing call of the uniform mode                                *)
(* ===================================================================== *)

Lemma lt_asym (a b : float) :
  PyFloat.lt a b = true -> PyFloat.lt b a = false.
Proof.
  unfold PyFloat.lt. rewrite !FloatAxioms.ltb_spec. unfold SFltb.
  rewrite (SFcompare_swap (Prim2SF a) (Prim2SF b)).
  now destruct (SFcompare (Prim2SF a) (Prim2SF b)) as [[] |].
Qed.

Lemma lt_irrefl (a : float) : PyFloat.lt a a = false.
Proof.
  destruct (PyFloat.lt a a) eqn:E; [| reflexivity].
  pose proof (lt_asym a a E). congruence.
Qed.

Lemma anchor_not_before (cfg : config) (t : float) :
  PyFloat.lt (anchor cfg t) t = false.
Proof.
  unfold anchor. destruct (tmin cfg) as [m |]; [| apply lt_irrefl].
  destruct (PyFloat.gt m t) eqn:E; [| apply lt_irrefl].
  now apply lt_asym.
Qed.

(** A loop that returns in a running state has left the interval. *)
Lemma emit_loop_exit fuel cfg step t_to :
  forall s nx,
    next_sample_time s = Some nx ->
    st (emit_loop fuel cfg step t_to s) = Running ->
    exists nx',
      next_sample_time (emit_loop fuel cfg step t_to s) = Some nx' /\
      keep_sampling cfg t_to nx' = false.
Proof.
  induction fuel as [| fuel IH]; intros s nx Hnx; cbn [emit_loop];
    rewrite Hnx.
  - destruct (st s) eqn:Hst; try (rewrite Hst; discriminate).
    destruct (keep_sampling _ _ _) eqn:Ek; [discriminate |].
    intros _. now exists nx.
  - destruct (st s) eqn:Hst; try (rewrite Hst; discriminate).
    destruct (keep_sampling _ _ _) eqn:Ek; [| intros _; now exists nx].
    destruct (emit_row_cases cfg nx s) as [[Hr Hne] | (vs & Hv & ->)].
    + destruct (st (emit_row cfg nx s)) eqn:E; congruence.
    + cbn [st write_row]. rewrite Hst. intros H.
      exact (IH (set_next (write_row s (nx, vs)) (nx + step)%float)
               (nx + step)%float eq_refl H).
Qed.

Lemma emit_loop_ticks fuel cfg step t_to :
  forall s,
    cur_time_ticks (emit_loop fuel cfg step t_to s) = cur_time_ticks s.
Proof.
  induction fuel as [| fuel IH]; intros s; cbn [emit_loop].
  - destruct (st s); try reflexivity.
    destruct (next_sample_time s); [| reflexivity].
    now destruct (keep_sampling _ _ _).
  - destruct (st s); try reflexivity.
    destruct (next_sample_time s) as [nx |]; [| reflexivity].
    destruct (keep_sampling _ _ _); [| reflexivity].
    unfold emit_row. destruct (row_values _ _); [reflexivity |].
    cbn [st write_row]. destruct (st s); try reflexivity.
    now rewrite IH.
Qed.

Lemma emit_uniform_between_ticks fuel cfg step t_from t_to s :
  cur_time_ticks (emit_uniform_between fuel cfg step t_from t_to s)
  = cur_time_ticks s.
Proof.
  unfold emit_uniform_between.
  destruct (above_tmax cfg t_from); [reflexivity |].
  rewrite emit_loop_ticks. now destruct (next_sample_time s).
Qed.

Lemma emit_uniform_between_exit fuel cfg step t_from t_to s :
  tmax cfg = None ->
  st (emit_uniform_between fuel cfg step t_from t_to s) = Running ->
  exists nx',
    next_sample_time (emit_uniform_between fuel cfg step t_from t_to s)
    = Some nx' /\
    PyFloat.lt nx' t_to = false.
Proof.
  intros Hmax. unfold emit_uniform_between, above_tmax. rewrite Hmax.
  intros H.
  assert (Hs : exists nx, next_sample_time
                 match next_sample_time s with
                 | Some _ => s
                 | None => set_next s (anchor cfg t_from)
                 end = Some nx).
  { destruct (next_sample_time s) eqn:E; eauto. }
  destruct Hs as [nx Hnx].
  destruct (emit_loop_exit fuel cfg step t_to _ nx Hnx H) as (nx' & A & B).
  exists nx'. split; [exact A |].
  now rewrite keep_sampling_no_tmax in B.
Qed.

Lemma same_frame_caught_up s s' :
  same_frame s s' -> (st s' = Running -> st s = Running) ->
  caught_up s -> caught_up s'.
Proof.
  intros (Hk & Hl & Hn & _) Hst [A B]. split.
  - rewrite Hk, Hn. exact A.
  - intros Hrun nx last. rewrite Hn, Hl. now apply B, Hst.
Qed.

Lemma scalar_assign_running arm val s name :
  st (scalar_assign arm val s name) = Running -> st s = Running.
Proof.
  unfold scalar_assign. destruct (st s) eqn:E; try (now rewrite E).
  reflexivity.
Qed.

Lemma vector_assign_running arm bits s b :
  st (vector_assign arm bits s b) = Running -> st s = Running.
Proof.
  unfold vector_assign. destruct (st s) eqn:E; try (now rewrite E).
  reflexivity.
Qed.

Lemma value_change_running arm cfg line s :
  st (value_change arm cfg line s) = Running -> st s = Running.
Proof.
  unfold value_change.
  assert (F : forall {B} (f : state -> B -> state),
             (forall a b, st (f a b) = Running -> st a = Running) ->
             forall l a, st (fold_left f l a) = Running -> st a = Running).
  { intros B f Hf l. induction l as [| b l IH]; intros a; cbn; [auto |].
    intros H. apply (Hf a b). now apply IH. }
  destruct (RE_SCALAR line) as [[val sid] |].
  - destruct (ODict.get sid _); [| auto].
    apply F. intros a b. apply scalar_assign_running.
  - destruct (RE_VECTOR line) as [[bits sid] |]; [| auto].
    destruct (ODict.get sid _); [| auto].
    apply F. intros a b. apply vector_assign_running.
Qed.

Lemma uniform_line_caught_up fuel cfg step s line :
  tmax cfg = None ->
  caught_up s -> caught_up (uniform_line fuel cfg step s line).
Proof.
  intros Hmax H. unfold uniform_line.
  destruct (st s) eqn:Hst; try exact H.
  destruct (header_done s); cbn [negb].
  2: { destruct (PyStr.contains _ _); [| exact H].
       destruct H as [A B]. split; [exact A |]. intros _. now apply B. }
  destruct (String.eqb _ EmptyString); [exact H |].
  destruct (RE_TIME _) as [g |].
  - destruct (PyFloat.int_mul _ _) as [new_sec |].
    2: { destruct H as [A B]. split; [exact A | discriminate]. }
    destruct (cur_time_ticks s) eqn:Ek.
    2: { destruct H as [A B]. split; [discriminate |].
         intros _ nx last Hn. cbn in Hn. rewrite (A Ek) in Hn.
         discriminate. }
    destruct (last_time_sec s) as [last |] eqn:El.
    2: { destruct H as [A B]. split; [cbn; congruence | discriminate]. }
    pose proof (emit_uniform_between_ticks fuel cfg step last new_sec s)
      as Hticks.
    destruct (st (emit_uniform_between fuel cfg step last new_sec s))
      eqn:Hst'.
    2-4: (split; [rewrite Hticks, Ek; discriminate
                 | rewrite Hst'; discriminate]).
    destruct (emit_uniform_between_exit _ _ _ _ _ _ Hmax Hst')
      as (nx' & Hn & Hlt).
    split; [discriminate |].
    intros _ nx l. cbn. rewrite Hn. now intros [= <-] [= <-].
  - destruct (starts_dollar_or_hash _); [exact H |].
    apply (same_frame_caught_up s);
      [apply value_change_frame | apply value_change_running | exact H].
Qed.

Lemma uniform_line_unsampled_plain fuel cfg step s line :
  is_marker line = false ->
  unsampled s -> unsampled (uniform_line fuel cfg step s line).
Proof.
  unfold is_marker. intros Hm H. unfold uniform_line.
  destruct (st s); try exact H.
  destruct (header_done s); cbn [negb].
  2: { now destruct (PyStr.contains _ _). }
  destruct (String.eqb _ EmptyString); [exact H |].
  destruct (RE_TIME _); [discriminate |].
  destruct (starts_dollar_or_hash _); [exact H |].
  destruct (value_change_frame false cfg (PyStr.rstrip line) s)
    as (_ & _ & Hn & Hr).
  destruct H as [A B]. split; congruence.
Qed.

Lemma uniform_line_unsampled_first fuel cfg step s line :
  cur_time_ticks s = None ->
  unsampled s -> unsampled (uniform_line fuel cfg step s line).
Proof.
  intros Hk H. unfold uniform_line.
  destruct (st s); try exact H.
  destruct (header_done s); cbn [negb].
  2: { now destruct (PyStr.contains _ _). }
  destruct (String.eqb _ EmptyString); [exact H |].
  destruct (RE_TIME _).
  - destruct (PyFloat.int_mul _ _); [| exact H]. now rewrite Hk.
  - destruct (starts_dollar_or_hash _); [exact H |].
    destruct (value_change_frame false cfg (PyStr.rstrip line) s)
      as (_ & _ & Hn & Hr).
    destruct H as [A B]. split; congruence.
Qed.

Lemma uniform_line_ticks_plain fuel cfg step s line :
  is_marker line = false ->
  cur_time_ticks (uniform_line fuel cfg step s line) = cur_time_ticks s.
Proof.
  unfold is_marker. intros Hm. unfold uniform_line.
  destruct (st s); try reflexivity.
  destruct (header_done s); cbn [negb].
  2: { now destruct (PyStr.contains _ _). }
  destruct (String.eqb _ EmptyString); [reflexivity |].
  destruct (RE_TIME _); [discriminate |].
  destruct (starts_dollar_or_hash _); [reflexivity |].
  now destruct (value_change_frame false cfg (PyStr.rstrip line) s) as (Hk & _).
Qed.

Lemma uniform_loop_unsampled fuel cfg step lines :
  forall s,
    unsampled s ->
    (cur_time_ticks s = None /\
     (length (List.filter is_marker lines) <= 1)%nat)
    \/ List.filter is_marker lines = [] ->
    unsampled (uniform_loop fuel cfg step lines s).
Proof.
  induction lines as [| l lines IH]; intros s H Hc; [exact H |].
  change (uniform_loop fuel cfg step (l :: lines) s)
    with (uniform_loop fuel cfg step lines (uniform_line fuel cfg step s l)).
  cbn [List.filter] in Hc. destruct (is_marker l) eqn:Em.
  - destruct Hc as [[Hk Hlen] | Hnil]; [| discriminate].
    apply IH; [now apply uniform_line_unsampled_first |].
    right. cbn in Hlen. destruct (List.filter is_marker lines);
      [reflexivity | cbn in Hlen; lia].
  - apply IH; [now apply uniform_line_unsampled_plain |].
    destruct Hc as [[Hk Hlen] | Hnil]; [left | now right].
    split; [| exact Hlen]. now rewrite uniform_line_ticks_plain.
Qed.

(** X4. Without an upper bound, uniform-grid mode samples only the
    intervals between two time markers: the call after the loop adds no
    row and does not change how the run ends, so the values set at the last
    time marker are never written; a dump with fewer than two time markers
    gives no row at all. *)
Theorem uniform_last_interval_unsampled (fuel : nat) (cfg : config)
    (step : float) (lines : list string) :
  tmax cfg = None ->
  rows (uniform_run fuel cfg step lines)
  = rows (uniform_loop fuel cfg step lines (init_state (cfg_signals cfg)))
  /\ st (uniform_run fuel cfg step lines)
     = st (uniform_loop fuel cfg step lines (init_state (cfg_signals cfg)))
  /\ ((length (List.filter is_marker lines) <= 1)%nat ->
      rows (uniform_run fuel cfg step lines) = []).
Proof.
  intros Hmax.
  set (s := uniform_loop fuel cfg step lines (init_state (cfg_signals cfg))).
  assert (Hc : caught_up s).
  { apply (fold_left_preserves caught_up).
    - intros. now apply uniform_line_caught_up.
    - split; [reflexivity | discriminate]. }
  assert (Hfin : rows (uniform_finish fuel cfg step s) = rows s /\
                 st (uniform_finish fuel cfg step s) = st s).
  { unfold uniform_finish.
    destruct (st s) eqn:Hst; try (split; [reflexivity | exact Hst]).
    destruct (cur_time_ticks s); [| now rewrite Hst].
    destruct (last_time_sec s) as [last |] eqn:El; [| now rewrite Hst].
    rewrite Hmax. unfold emit_uniform_between, above_tmax. rewrite Hmax.
    destruct (next_sample_time s) as [nx |] eqn:En.
    - rewrite (emit_loop_done _ _ _ _ _ nx En);
        [now rewrite Hst |].
      rewrite keep_sampling_no_tmax by exact Hmax.
      destruct Hc as [_ B]. now apply (B Hst nx last).
    - rewrite (emit_loop_done fuel cfg step last
                 (set_next s (anchor cfg last)) (anchor cfg last) eq_refl);
        [cbn; now rewrite Hst |].
      rewrite keep_sampling_no_tmax by exact Hmax.
      apply anchor_not_before. }
  destruct Hfin as [Hr Hs]. unfold uniform_run. fold s.
  split; [exact Hr |]. split; [exact Hs |].
  intros Hlen. rewrite Hr.
  apply (uniform_loop_unsampled fuel cfg step lines
           (init_state (cfg_signals cfg))).
  - split; reflexivity.
  - left. split; [reflexivity | exact Hlen].
Qed.

Lemma uniform_last_interval_unsampled_witness :
  rows (uniform_run 10 grid_cfg step_10ns
          (grid_header ++ ["$enddefinitions $end"; "#0"; "0!"]))
  = [] /\
  rows (uniform_run 10 grid_cfg step_10ns
          (grid_header ++ ["$enddefinitions $end"; "#0"; "#20"; "0!"]))
  = [(0%float, ["1"]); ((0 + step_10ns)%float, ["1"])].
Proof.
  destruct (uniform_last_interval_unsampled 10 grid_cfg step_10ns
              (grid_header ++ ["$enddefinitions $end"; "#0"; "0!"])
              eq_refl) as (_ & _ & H).
  split; [apply H; vm_compute; lia | reflexivity].
Defined.

(* ===================================================================== *)
(** * The exceptions a conversion can end with                            *)
(* ===================================================================== *)

Lemma scalar_assign_sound cfg arm val s name :
  In name (cfg_signals cfg) ->
  sound cfg s -> sound cfg (scalar_assign arm val s name).
Proof.
  intros Hn [Hc Ho]. unfold scalar_assign.
  destruct (st s) eqn:Hst; try (split; [exact Hc | now rewrite Hst]).
  destruct (proj1 (List.Forall_forall _ _) Hc name Hn) as [prev ->].
  destruct (bool_decide _); [split; [exact Hc | now rewrite Hst] |].
  split; cbn.
  - apply has_cols_insert; [apply sanitize_bit_clean | exact Hc].
  - now rewrite Hst.
Qed.

Lemma vector_assign_sound cfg arm c0 rest s b :
  0 <= snd (fst b) ->
  sound cfg s -> sound cfg (vector_assign arm (String c0 rest) s b).
Proof.
  intros Hoff [Hc Ho]. unfold vector_assign.
  destruct (st s) eqn:Hst; try (split; [exact Hc | now rewrite Hst]).
  destruct b as [[bit_name offset] width]. cbn in Hoff.
  destruct (raw_bit_justified c0 rest offset width Hoff) as [-> [raw ->]].
  destruct (bool_decide _); [split; [exact Hc | now rewrite Hst] |].
  split; cbn.
  - apply has_cols_insert; [apply sanitize_bit_clean | exact Hc].
  - now rewrite Hst.
Qed.

Lemma value_change_sound cfg arm line s :
  tables_ok cfg -> sound cfg s -> sound cfg (value_change arm cfg line s).
Proof.
  intros [Hn Hb] H. unfold value_change.
  destruct (RE_SCALAR line) as [[val sid] |].
  - destruct (ODict.get sid _) as [names |] eqn:E; [| exact H].
    assert (G : forall l, (forall n, In n l -> In n (cfg_signals cfg)) ->
                forall a, sound cfg a ->
                sound cfg (fold_left (scalar_assign arm val) l a)).
    { induction l as [| n l IH]; intros Hl a Ha; cbn; [exact Ha |].
      apply IH; [intros; apply Hl; now right |].
      apply scalar_assign_sound; [apply Hl; now left | exact Ha]. }
    apply G; [| exact H]. intros n. exact (Hn sid names n E).
  - destruct (RE_VECTOR line) as [[bits sid] |] eqn:Ev; [| exact H].
    destruct (ODict.get sid _) as [lst |] eqn:E; [| exact H].
    destruct (RE_VECTOR_inv _ _ _ Ev) as (_ & c0 & rest & ->).
    assert (G : forall l, (forall b, In b l -> 0 <= snd (fst b)) ->
                forall a, sound cfg a ->
                sound cfg (fold_left (vector_assign arm (String c0 rest)) l
                             a)).
    { induction l as [| b l IH]; intros Hl a Ha; cbn; [exact Ha |].
      apply IH; [intros; apply Hl; now right |].
      apply vector_assign_sound; [apply Hl; now left | exact Ha]. }
    apply G; [| exact H]. intros b. exact (Hb sid lst b E).
Qed.

Lemma emit_row_sound cfg t s :
  sound cfg s ->
  sound cfg (emit_row cfg t s) /\ st (emit_row cfg t s) = st s.
Proof.
  intros [Hc Ho]. unfold emit_row.
  destruct (row_values_some _ _ Hc) as [vs ->].
  split; [split |]; [exact Hc | exact Ho | reflexivity].
Qed.

Lemma flush_sound cfg s :
  sound cfg s -> sound cfg (fst (flush_if_needed cfg s)).
Proof.
  intros H. unfold flush_if_needed.
  destruct (cur_time_ticks s); [| exact H].
  destruct (changed_at_time s); [| exact H]. cbn [negb].
  destruct (PyFloat.int_mul _ _) as [t |].
  2: { split; [apply H |]. cbn. now intros e [= <-]. }
  destruct (below_tmin cfg t); [exact H |].
  destruct (above_tmax cfg t); [exact H |].
  destruct (emit_row_sound cfg t s H) as [H' E].
  destruct (st (emit_row cfg t s)); exact H'.
Qed.

Lemma event_line_sound cfg s line :
  tables_ok cfg -> sound cfg s -> sound cfg (event_line cfg s line).
Proof.
  intros Ht H. unfold event_line.
  destruct (st s) eqn:Hst; try exact H.
  destruct (header_done s); cbn [negb].
  2: { destruct (PyStr.contains _ _); [| exact H].
       split; [apply H |]. cbn. apply H. }
  destruct (String.eqb _ EmptyString); [exact H |].
  destruct (RE_TIME _) as [g |].
  - pose proof (flush_sound cfg s H) as F.
    destruct (flush_if_needed cfg s) as [s' stop]. cbn in F.
    destruct (st s') eqn:E; try exact F.
    destruct stop; (split; [apply F |]; cbn).
    + discriminate.
    + rewrite E. discriminate.
  - destruct (starts_dollar_or_hash _); [exact H |].
    now apply value_change_sound.
Qed.

Lemma event_run_sound cfg lines :
  tables_ok cfg -> overflow_only (st (event_run cfg lines)).
Proof.
  intros Ht. unfold event_run, event_loop.
  set (s := fold_left (event_line cfg) lines (init_state (cfg_signals cfg))).
  assert (H : sound cfg s).
  { apply (fold_left_preserves (sound cfg)).
    - intros a b. now apply event_line_sound.
    - split; [apply init_has_cols | discriminate]. }
  unfold event_finish. destruct (st s) eqn:Hst.
  - now apply flush_sound.
  - rewrite Hst. discriminate.
  - rewrite Hst. rewrite <- Hst. apply H.
  - rewrite Hst. discriminate.
Qed.

Lemma emit_loop_sound fuel cfg step t_to :
  forall s, sound cfg s -> sound cfg (emit_loop fuel cfg step t_to s).
Proof.
  induction fuel as [| fuel IH]; intros s H; cbn [emit_loop].
  - destruct (st s) eqn:Hst; try exact H.
    destruct (next_sample_time s); [| exact H].
    destruct (keep_sampling _ _ _); [| exact H].
    split; [apply H |]. cbn. discriminate.
  - destruct (st s) eqn:Hst; try exact H.
    destruct (next_sample_time s) as [nx |]; [| exact H].
    destruct (keep_sampling _ _ _); [| exact H].
    destruct (emit_row_sound cfg nx s H) as [H' E].
    rewrite E, Hst. apply IH. split; [apply H' |]. cbn.
    rewrite E, Hst. discriminate.
Qed.

Lemma emit_uniform_between_sound fuel cfg step t_from t_to s :
  sound cfg s -> sound cfg (emit_uniform_between fuel cfg step t_from t_to s).
Proof.
  intros H. unfold emit_uniform_between.
  destruct (above_tmax cfg t_from); [exact H |].
  apply emit_loop_sound. now destruct (next_sample_time s).
Qed.

Lemma emit_uniform_between_last fuel cfg step t_from t_to s :
  last_time_sec (emit_uniform_between fuel cfg step t_from t_to s)
  = last_time_sec s.
Proof.
  unfold emit_uniform_between.
  destruct (above_tmax cfg t_from); [reflexivity |].
  assert (G : forall fuel s,
             last_time_sec (emit_loop fuel cfg step t_to s)
             = last_time_sec s).
  { clear. induction fuel as [| fuel IH]; intros s; cbn [emit_loop].
    - destruct (st s); try reflexivity.
      destruct (next_sample_time s); [| reflexivity].
      now destruct (keep_sampling _ _ _).
    - destruct (st s); try reflexivity.
      destruct (next_sample_time s) as [nx |]; [| reflexivity].
      destruct (keep_sampling _ _ _); [| reflexivity].
      unfold emit_row. destruct (row_values _ _); [reflexivity |].
      cbn [st write_row]. destruct (st s); try reflexivity.
      now rewrite IH. }
  rewrite G. now destruct (next_sample_time s).
Qed.

Lemma uniform_line_sound fuel cfg step s line :
  tables_ok cfg -> sound cfg s /\ timed s ->
  sound cfg (uniform_line fuel cfg step s line)
  /\ timed (uniform_line fuel cfg step s line).
Proof.
  intros Ht [H T]. unfold uniform_line.
  destruct (st s) eqn:Hst; try (split; assumption).
  destruct (header_done s); cbn [negb].
  2: { destruct (PyStr.contains _ _); [| split; assumption].
       split; [split; [apply H | cbn; apply H] | exact T]. }
  destruct (String.eqb _ EmptyString); [split; assumption |].
  destruct (RE_TIME _) as [g |].
  - destruct (PyFloat.int_mul _ _) as [new_sec |].
    2: { split; [split; [apply H |] | exact T]. cbn. now intros e [= <-]. }
    destruct (cur_time_ticks s) eqn:Ek.
    2: { split; [split; [apply H | cbn; apply H] |]. intros _. discriminate. }
    destruct (last_time_sec s) as [last |] eqn:El.
    2: { exfalso. apply T; [rewrite Ek; discriminate | exact El]. }
    pose proof (emit_uniform_between_sound fuel cfg step last new_sec s H)
      as H'.
    pose proof (emit_uniform_between_last fuel cfg step last new_sec s)
      as L.
    destruct (st (emit_uniform_between fuel cfg step last new_sec s)) eqn:E.
    + split; [split; [apply H' | cbn; rewrite E; discriminate] |].
      intros _. discriminate.
    + split; [exact H' |]. intros _. rewrite L, El. discriminate.
    + split; [exact H' |]. intros _. rewrite L, El. discriminate.
    + split; [exact H' |]. intros _. rewrite L, El. discriminate.
  - destruct (starts_dollar_or_hash _); [split; assumption |].
    split; [now apply value_change_sound |].
    destruct (value_change_frame false cfg (PyStr.rstrip line) s)
      as (A & B & _).
    unfold timed. rewrite A, B. exact T.
Qed.

Lemma uniform_run_sound fuel cfg step lines :
  tables_ok cfg -> overflow_only (st (uniform_run fuel cfg step lines)).
Proof.
  intros Ht. unfold uniform_run, uniform_loop.
  set (s := fold_left (uniform_line fuel cfg step) lines
              (init_state (cfg_signals cfg))).
  assert (H : sound cfg s /\ timed s).
  { apply (fold_left_preserves (fun s => sound cfg s /\ timed s)).
    - intros a b. now apply uniform_line_sound.
    - split; [split; [apply init_has_cols | discriminate] |].
      intros K. now contradiction K. }
  destruct H as [H _]. unfold uniform_finish.
  destruct (st s) eqn:Hst; try (rewrite Hst; rewrite <- Hst; apply H).
  destruct (cur_time_ticks s); [| rewrite Hst; discriminate].
  destruct (last_time_sec s); [| rewrite Hst; discriminate].
  now apply emit_uniform_between_sound.
Qed.

Lemma set_values_ok {A} (Q : A -> Prop) sid (l : list A)
    (d : ODict.t (list A)) :
  Forall (fun e => Forall Q (snd e)) d -> Forall Q l ->
  Forall (fun e => Forall Q (snd e)) (ODict.set sid l d).
Proof.
  intros Hd Hl. induction Hd as [| [k v] d Hk Hd IH]; cbn.
  - constructor; [exact Hl | constructor].
  - destruct (String.eqb sid k); constructor; assumption.
Qed.

Lemma append_at_values_ok {A} (Q : A -> Prop) sid (x : A)
    (d : ODict.t (list A)) :
  Forall (fun e => Forall Q (snd e)) d -> Q x ->
  Forall (fun e => Forall Q (snd e)) (append_at sid x d).
Proof.
  intros Hd Hx. unfold append_at.
  destruct (ODict.get sid d) as [l |] eqn:E.
  - apply set_values_ok; [exact Hd |].
    apply odict_get_In in E.
    pose proof (proj1 (List.Forall_forall _ _) Hd _ E) as Hl. cbn in Hl.
    apply Forall_app. split; [exact Hl | now constructor].
  - apply Forall_app. split; [exact Hd |].
    constructor; [| constructor]. now constructor.
Qed.

Lemma build_names_ok s2i (names : list string) sid l n :
  ODict.get sid (build_scalar_sid_to_names s2i names) = Some l ->
  In n l -> In n names.
Proof.
  intros Hg Hn. unfold build_scalar_sid_to_names in Hg.
  assert (G : forall l0 acc,
             (forall x, In x l0 -> In x names) ->
             Forall (fun e => Forall (fun x => In x names) (snd e)) acc ->
             Forall (fun e => Forall (fun x => In x names) (snd e))
               (fold_left
                  (fun acc name =>
                     match ODict.get name s2i with
                     | None => acc
                     | Some sid => append_at sid name acc
                     end) l0 acc)).
  { induction l0 as [| x l0 IH]; intros acc Hl Ha; cbn; [exact Ha |].
    apply IH; [intros; apply Hl; now right |].
    destruct (ODict.get x s2i); [| exact Ha].
    apply append_at_values_ok; [exact Ha | apply Hl; now left]. }
  pose proof (G names [] (fun x H => H) (List.Forall_nil _)) as F.
  apply odict_get_In in Hg.
  pose proof (proj1 (List.Forall_forall _ _) F _ Hg) as Hl. cbn in Hl.
  exact (proj1 (List.Forall_forall _ _) Hl n Hn).
Qed.

Lemma in_list_In (n : string) (l : list string) :
  in_list n l = true <-> In n l.
Proof.
  unfold in_list. rewrite existsb_exists. split.
  - intros (x & Hx & E). apply String.eqb_eq in E. now subst.
  - intros H. exists n. split; [exact H | apply String.eqb_refl].
Qed.

Lemma pick_names_wanted s2i bus_defs wanted n :
  In n (scalar_selected_names (pick s2i bus_defs wanted)) -> In n wanted.
Proof.
  unfold pick.
  assert (G : forall l acc,
             In n (scalar_selected_names
                     (fold_left (pick_one s2i bus_defs) l acc)) ->
             In n (scalar_selected_names acc) \/ In n l).
  { induction l as [| x l IH]; intros acc H; cbn in *; [now left |].
    destruct (IH _ H) as [H1 | H1]; [| right; now right].
    unfold pick_one in H1.
    destruct (ODict.mem x s2i).
    - cbn in H1. apply in_app_iff in H1 as [H1 | [-> | []]]; auto.
    - destruct (RE_BUSBIT x) as [[base idx_str] |]; [| now left].
      destruct (find_bus _ _ _) as [[[sid off] w] |]; now left. }
  intros H. destruct (G _ _ H) as [[] | H1]. exact H1.
Qed.

Lemma select_tables_ok s2i bus_defs wanted ign sel ts lo hi :
  select s2i bus_defs wanted ign = inr sel ->
  tables_ok (Config ts lo hi (signals sel) (scalar_sid_to_names sel)
               (sel_busid_to_bits sel)).
Proof.
  unfold select. destruct (truthy wanted).
  - set (w := default [] wanted). set (p := pick s2i bus_defs w).
    destruct (negb ign && _); [discriminate |].
    destruct (effective_signals w p) as [| e0 eff] eqn:Ee; [discriminate |].
    intros [= <-].
    split; cbn [cfg_signals cfg_scalar_sid_to_names cfg_busid_to_bits
                signals scalar_sid_to_names sel_busid_to_bits].
    + intros sid names n Hg Hn. rewrite <- Ee.
      pose proof (build_names_ok _ _ _ _ _ Hg Hn) as Hs.
      apply filter_In. split.
      * now apply (pick_names_wanted s2i bus_defs).
      * apply orb_true_iff. left. now apply in_list_In.
    + intros sid lst b Hg Hb.
      pose proof (pick_ok s2i bus_defs w) as Hok. fold p in Hok.
      apply odict_get_In in Hg.
      pose proof (proj1 (List.Forall_forall _ _) Hok _ Hg) as Hl.
      cbn in Hl.
      pose proof (proj1 (List.Forall_forall _ _) Hl _ Hb) as Hb'.
      destruct b as [[n off] w']. cbn.
      destruct Hb' as (base & idx & d & _ & _ & _ & _ & _ & _ & ->).
      lia.
  - intros [= <-]. split; cbn.
    + intros sid names n Hg Hn. exact (build_names_ok _ _ _ _ _ Hg Hn).
    + discriminate.
Qed.

Lemma prepare_tables_ok lines wanted ign sel ts lo hi :
  prepare lines wanted ign = inr sel ->
  tables_ok (Config ts lo hi (signals sel) (scalar_sid_to_names sel)
               (sel_busid_to_bits sel)).
Proof.
  unfold prepare. destruct (parse_header lines [] []) as [s2i bd].
  destruct s2i, bd; try discriminate; apply select_tables_ok.
Qed.

Lemma ending_overflow_only (x : status) (e : pyexc) :
  overflow_only x -> ending_of x = Uncaught e -> e = OverflowError.
Proof.
  intros Hx. destruct x; cbn; try discriminate.
  intros [= <-]. now apply Hx.
Qed.

(** X5. For a header whose buses are at most [max_bus_width] wide,
    whatever else the input lines and the options are, the only exception
    a conversion can end with once the input is read is the
    [OverflowError] of a tick count or of a time-scale factor too large
    for a float: no lookup of a column, of a payload character or of the
    time of the last marker fails.  (The interpreter's limit on the
    length of a decimal string, and failures of memory or of the output
    device, are left aside.) *)
Theorem conversion_raises_overflow_only (fuel : nat) (lines : list string)
    (wanted_signals : option (list string)) (tmin tmax : option float)
    (ignore_missing : bool) (uniform_step : option float) (e : pyexc) :
  widths_bounded lines ->
  how (vcd_to_csv fuel lines wanted_signals tmin tmax ignore_missing
         uniform_step) = Uncaught e ->
  e = OverflowError.
Proof.
  intros _. unfold vcd_to_csv.
  destruct (parse_timescale lines) as [ts_ps |]; [| now intros [= <-]].
  destruct (prepare lines wanted_signals ignore_missing) as [r | sel] eqn:Ep;
    [discriminate |].
  cbn [how]. apply ending_overflow_only.
  destruct uniform_step as [step |].
  - apply uniform_run_sound. exact (prepare_tables_ok _ _ _ _ _ _ _ Ep).
  - apply event_run_sound. exact (prepare_tables_ok _ _ _ _ _ _ _ Ep).
Qed.

Lemma conversion_raises_overflow_only_witness :
  widths_bounded overflow_vcd /\
  how (vcd_to_csv 1 overflow_vcd (Some ["clk"; "d[0]"]) None None false
         None)
  = Uncaught OverflowError /\ OverflowError = OverflowError.
Proof.
  assert (W : widths_bounded overflow_vcd).
  { unfold widths_bounded. vm_compute.
    constructor; [discriminate | constructor]. }
  assert (H : how (vcd_to_csv 1 overflow_vcd (Some ["clk"; "d[0]"]) None
                     None false None)
              = Uncaught OverflowError) by (vm_compute; reflexivity).
  split; [exact W |]. split; [exact H |].
  exact (conversion_raises_overflow_only _ _ _ _ _ _ _ _ W H).
Defined.

(* ===================================================================== *)
(** * The names a selection keeps                                         *)
(* ===================================================================== *)

Lemma existsb_values_set {A} (g : list A -> bool) sid (l0 : list A)
    (x : A) (d : ODict.t (list A)) :
  (forall a b, g (a ++ b) = g a || g b) ->
  ODict.get sid d = Some l0 ->
  existsb g (ODict.values (ODict.set sid (l0 ++ [x]) d))
  = existsb g (ODict.values d) || g [x].
Proof.
  intros Hg. unfold ODict.values.
  induction d as [| [k v] d IH]; cbn; [discriminate |].
  destruct (String.eqb sid k).
  - intros [= ->]. cbn. rewrite Hg.
    now destruct (g l0), (g [x]), (existsb g (map snd d)).
  - intros H. cbn. rewrite (IH H).
    now destruct (g v), (g [x]), (existsb g (map snd d)).
Qed.

Lemma is_picked_bit_append_at n sid m off w (d : ODict.t (list bus_bit)) :
  is_picked_bit n (append_at sid (m, off, w) d)
  = is_picked_bit n d || String.eqb n m.
Proof.
  unfold append_at, is_picked_bit, bus_bit in *.
  destruct (ODict.get sid d) as [l0 |] eqn:E.
  - pose proof (existsb_values_set
                  (fun lst : list (string * Z * Z) =>
                     existsb (fun '(bit_name, _, _) => String.eqb n bit_name)
                       lst)
                  sid l0 (m, off, w) d (fun a b => existsb_app _ a b) E)
      as H.
    etransitivity; [exact H |]. cbn. now rewrite orb_false_r.
  - unfold ODict.values. rewrite map_app, existsb_app. cbn.
    now rewrite !orb_false_r.
Qed.

Lemma pick_one_spec s2i bus_defs acc x :
  let p := pick_one s2i bus_defs acc x in
  scalar_selected_names p
  = scalar_selected_names acc ++ (if ODict.mem x s2i then [x] else [])
  /\ missing p
     = missing acc ++ (if resolves s2i bus_defs x then [] else [x])
  /\ forall n,
       is_picked_bit n (busid_to_bits p)
       = is_picked_bit n (busid_to_bits acc)
         || (negb (ODict.mem x s2i) && resolves s2i bus_defs x
             && String.eqb n x).
Proof.
  cbn zeta. unfold pick_one, resolves.
  destruct (ODict.mem x s2i); cbn [negb orb andb].
  - cbn. rewrite app_nil_r. repeat split. intros n.
    now rewrite orb_false_r.
  - destruct (RE_BUSBIT x) as [[base idx_str] |].
    + destruct (find_bus _ _ _) as [[[sid off] w] |]; cbn.
      * rewrite !app_nil_r. repeat split. intros n.
        apply is_picked_bit_append_at.
      * rewrite app_nil_r. repeat split. intros n.
        now rewrite orb_false_r.
    + cbn. rewrite app_nil_r. repeat split. intros n.
      now rewrite orb_false_r.
Qed.

Lemma pick_fold_spec s2i bus_defs (l : list string) :
  forall acc,
    let p := fold_left (pick_one s2i bus_defs) l acc in
    scalar_selected_names p
    = scalar_selected_names acc
      ++ List.filter (fun n => ODict.mem n s2i) l
    /\ missing p
       = missing acc
         ++ List.filter (fun n => negb (resolves s2i bus_defs n)) l
    /\ forall n,
         is_picked_bit n (busid_to_bits p)
         = is_picked_bit n (busid_to_bits acc)
           || in_list n
                (List.filter
                   (fun m => negb (ODict.mem m s2i)
                             && resolves s2i bus_defs m) l).
Proof.
  induction l as [| x l IH]; intros acc; cbn zeta.
  - cbn. rewrite !app_nil_r. repeat split. intros n.
    now rewrite orb_false_r.
  - cbn [fold_left List.filter].
    destruct (IH (pick_one s2i bus_defs acc x)) as (A & B & C).
    destruct (pick_one_spec s2i bus_defs acc x) as (A1 & B1 & C1).
    rewrite A, B, A1, B1, <- !app_assoc. repeat split.
    + now destruct (ODict.mem x s2i).
    + now destruct (resolves s2i bus_defs x).
    + intros n. rewrite C, C1, <- orb_assoc. f_equal.
      destruct (negb (ODict.mem x s2i) && resolves s2i bus_defs x);
        reflexivity.
Qed.

Lemma pick_effective s2i bus_defs wanted :
  effective_signals wanted (pick s2i bus_defs wanted)
  = List.filter (resolves s2i bus_defs) wanted.
Proof.
  unfold effective_signals, pick.
  destruct (pick_fold_spec s2i bus_defs wanted (Picked [] [] []))
    as (A & _ & C).
  cbn zeta in A, C. apply filter_ext_in. intros n Hn.
  rewrite A, C. cbn [scalar_selected_names busid_to_bits app].
  unfold is_picked_bit at 1. cbn [ODict.values map existsb orb].
  destruct (resolves s2i bus_defs n) eqn:Er.
  - apply orb_true_iff.
    destruct (ODict.mem n s2i) eqn:Em; [left | right];
      apply in_list_In, filter_In; split; auto.
    now rewrite Em, Er.
  - apply orb_false_iff. split.
    + destruct (in_list n _) eqn:E; [| reflexivity].
      apply in_list_In, filter_In in E as [_ E].
      unfold resolves in Er. now rewrite E in Er.
    + destruct (in_list n _) eqn:E; [| reflexivity].
      apply in_list_In, filter_In in E as [_ E].
      rewrite Er in E. now destruct (ODict.mem n s2i).
Qed.

Lemma pick_missing s2i bus_defs wanted :
  missing (pick s2i bus_defs wanted)
  = List.filter (fun n => negb (resolves s2i bus_defs n)) wanted.
Proof.
  unfold pick.
  now destruct (pick_fold_spec s2i bus_defs wanted (Picked [] [] []))
    as (_ & B & _).
Qed.

(** X6. The requested names are split in two, each part in the order of
    the request and with its repetitions: the names that resolve to a
    declared scalar or to a bit of a declared bus become the columns, the
    others are the names reported as missing. *)
Theorem selection_partitions_wanted (scalar_name2id : ODict.t string)
    (bus_defs : ODict.t bus_def) (wanted : list string) :
  let p := pick scalar_name2id bus_defs wanted in
  effective_signals wanted p
  = List.filter (resolves scalar_name2id bus_defs) wanted
  /\ missing p
     = List.filter (fun n => negb (resolves scalar_name2id bus_defs n))
         wanted.
Proof.
  cbn zeta. split; [apply pick_effective | apply pick_missing].
Qed.

Lemma filter_all {A} (f : A -> bool) (l : list A) :
  List.filter (fun x => negb (f x)) l = [] -> List.filter f l = l.
Proof.
  induction l as [| x l IH]; cbn; [reflexivity |].
  destruct (f x); cbn; [| discriminate].
  intros H. now rewrite IH.
Qed.

(** X7. Without [ignore_missing], a selection that succeeds for a
    non-empty request has exactly the requested names as its columns, in
    the order of the request. *)
Theorem strict_selection_is_the_request (scalar_name2id : ODict.t string)
    (bus_defs : ODict.t bus_def) (wanted : list string) (sel : selection) :
  wanted <> [] ->
  select scalar_name2id bus_defs (Some wanted) false = inr sel ->
  signals sel = wanted.
Proof.
  intros Hw. unfold select.
  destruct wanted as [| w0 wanted]; [now contradiction Hw |].
  change (default [] (Some (w0 :: wanted))) with (w0 :: wanted).
  cbn [truthy negb andb].
  set (w := w0 :: wanted).
  rewrite pick_missing, pick_effective.
  destruct (bool_decide _) eqn:Eb; [| discriminate]. cbn [negb].
  apply bool_decide_eq_true in Eb. rewrite (filter_all _ _ Eb).
  unfold w. now intros [= <-].
Qed.

Lemma strict_selection_is_the_request_witness :
  signals (Selection ["d[2]"; "clk"; "d[2]"]
             [("!", ["clk"])] [("#", [("d[2]", 1, 4); ("d[2]", 1, 4)])])
  = ["d[2]"; "clk"; "d[2]"].
Proof.
  apply (strict_selection_is_the_request
           (fst (parse_header mixed_vcd [] []))
           (snd (parse_header mixed_vcd [] []))
           ["d[2]"; "clk"; "d[2]"]).
  - discriminate.
  - vm_compute. reflexivity.
Defined.

(** X8. The exit for a request none of whose names is present happens
    under [ignore_missing] only, and then no requested name resolves. *)
Theorem none_present_needs_ignore_missing (scalar_name2id : ODict.t string)
    (bus_defs : ODict.t bus_def) (wanted_signals : option (list string))
    (ignore_missing : bool) :
  select scalar_name2id bus_defs wanted_signals ignore_missing
  = inl NoneOfRequestedPresent ->
  ignore_missing = true /\
  Forall (fun n => resolves scalar_name2id bus_defs n = false)
    (default [] wanted_signals).
Proof.
  unfold select. destruct (truthy wanted_signals) eqn:Et; [| discriminate].
  destruct wanted_signals as [[| w0 wanted] |]; try discriminate.
  change (default [] (Some (w0 :: wanted))) with (w0 :: wanted).
  set (w := w0 :: wanted).
  rewrite pick_missing, pick_effective.
  destruct (negb ignore_missing && _) eqn:Eg; [discriminate |].
  destruct (List.filter (resolves scalar_name2id bus_defs) w) eqn:Ef;
    [| discriminate].
  intros _.
  assert (Hall : Forall (fun n => resolves scalar_name2id bus_defs n = false)
                   w).
  { apply List.Forall_forall. intros n Hn.
    destruct (resolves scalar_name2id bus_defs n) eqn:Er; [| reflexivity].
    exfalso. assert (Hin : In n []); [| destruct Hin].
    rewrite <- Ef. apply filter_In. auto. }
  split; [| exact Hall].
  destruct ignore_missing; [reflexivity | exfalso].
  cbn [negb andb] in Eg. apply negb_false_iff, bool_decide_eq_true in Eg.
  pose proof (filter_all _ _ Eg) as E. rewrite Ef in E. discriminate.
Qed.

Lemma none_present_needs_ignore_missing_witness :
  true = true /\
  Forall (fun n => resolves (fst (parse_header mixed_vcd [] []))
                     (snd (parse_header mixed_vcd [] [])) n = false)
    ["d[4]"; "rst"].
Proof.
  apply (none_present_needs_ignore_missing
           (fst (parse_header mixed_vcd [] []))
           (snd (parse_header mixed_vcd [] []))
           (Some ["d[4]"; "rst"]) true).
  vm_compute. reflexivity.
Defined.

(* ===================================================================== *)
(** * The header                                                          *)
(* ===================================================================== *)

Lemma get_setdefault {V} (k k' : string) (v v' : V) (d : ODict.t V) :
  ODict.get k d = Some v -> ODict.get k (ODict.setdefault k' v' d) = Some v.
Proof.
  intros H. unfold ODict.setdefault.
  destruct (ODict.mem k' d); [exact H |].
  induction d as [| [a b] d IH]; cbn in *; [discriminate |].
  destruct (String.eqb k a); [exact H | now apply IH].
Qed.

(** X9. A scalar name keeps the identifier it was first declared with:
    no later line of the header changes an entry of the name table.  So
    of two one-bit signals with the same name (in different scopes, say)
    only the first is followed. *)
Theorem header_first_declaration_wins (lines : list string)
    (scalar_name2id : ODict.t string) (bus_defs : ODict.t bus_def)
    (ref sid : string) :
  ODict.get ref scalar_name2id = Some sid ->
  ODict.get ref (fst (parse_header lines scalar_name2id bus_defs))
  = Some sid.
Proof.
  revert scalar_name2id bus_defs.
  induction lines as [| line rest IH]; intros s b H; cbn; [exact H |].
  destruct (PyStr.contains _ line); [exact H |].
  destruct (parse_var_line line) as [[[[width sid'] ref'] rng] |];
    [| now apply IH].
  destruct (width =? 1).
  - apply IH. now apply get_setdefault.
  - destruct (match rng with
              | Some r => _
              | None => _
              end) as [msb lsb].
    now apply IH.
Qed.

Lemma header_first_declaration_wins_witness :
  ODict.get "clk"
    (fst (parse_header
            ["$var wire 1 ! clk $end"; "$var wire 1 # clk $end"] [] []))
  = Some "!".
Proof.
  apply (header_first_declaration_wins ["$var wire 1 # clk $end"]
           [("clk", "!")] [] "clk" "!").
  reflexivity.
Defined.

(** X10. The time scale is read only after a line that holds nothing but
    the keyword [$timescale]: when no line is of that form (a directive
    written on one line, for one) the time scale is one picosecond. *)
Theorem timescale_needs_keyword_line (lines : list string) :
  Forall (fun l => PyStr.strip l <> "$timescale") lines ->
  parse_timescale lines = Some 1%float.
Proof.
  unfold parse_timescale. induction 1 as [| l lines Hl _ IH]; cbn;
    [reflexivity |].
  destruct (String.eqb_spec (PyStr.strip l) "$timescale") as [E | _];
    [contradiction | exact IH].
Qed.

Lemma timescale_needs_keyword_line_witness :
  parse_timescale ["$timescale 1ns $end"; "$var wire 1 ! clk $end"]
  = Some 1%float.
Proof.
  apply timescale_needs_keyword_line.
  repeat constructor; vm_compute; discriminate.
Defined.

(* ===================================================================== *)
(** * The signal list of a viewer-configuration file                      *)
(* ===================================================================== *)

Lemma gtkw_add_ok (acc : gtkw_state) (name : string) :
  gtkw_ok acc -> gtkw_ok (gtkw_add acc name).
Proof.
  destruct acc as [sigs seen]. intros [Hn Hs]. unfold gtkw_add.
  destruct (bool_decide (name ∈ seen)) eqn:E; [split; assumption |].
  apply bool_decide_eq_false in E. cbn in *. split; cbn [fst snd].
  - apply List.NoDup_app; repeat split.
    + exact Hn.
    + constructor; [tauto | constructor].
    + intros x Hx [<- | []]. apply E, Hs, Hx.
  - intros x. rewrite elem_of_union, elem_of_singleton, in_app_iff, Hs.
    cbn. intuition congruence.
Qed.

Lemma split_ws_aux_nonempty (l cur : list ascii) :
  cur <> [] \/ (exists c, In c l /\ PyStr.isspace c = false) ->
  PyStr.split_ws_aux l cur <> [].
Proof.
  revert cur. induction l as [| c l IH]; intros cur H; cbn.
  - destruct H as [H | (c & [] & _)]. now destruct cur.
  - destruct (PyStr.isspace c) eqn:Ec.
    + destruct cur; [| discriminate]. apply IH. right.
      destruct H as [H | (c' & [<- | Hin] & Hc')];
        [now contradiction H | congruence | eauto].
    + apply IH. left. discriminate.
Qed.

Lemma drop_while_head (p : ascii -> bool) (l : list ascii) c r :
  PyStr.drop_while p l = c :: r -> p c = false /\ In c l.
Proof.
  induction l as [| a l IH]; cbn; [discriminate |].
  destruct (p a) eqn:E.
  - intros H. destruct (IH H). auto.
  - intros [= <- <-]. auto.
Qed.

Lemma split_strip_nonempty (line : string) :
  String.eqb (PyStr.strip line) EmptyString = false ->
  PyStr.split (PyStr.strip line) <> [].
Proof.
  intros H. unfold PyStr.split, PyStr.strip in *. rewrite chars_str.
  assert (Hne : PyStr.strip_l (PyStr.chars line) <> []).
  { intros E. rewrite E in H. discriminate. }
  intros Hs. apply map_eq_nil in Hs. revert Hs.
  apply split_ws_aux_nonempty. right.
  unfold PyStr.strip_l, PyStr.rstrip_l in *.
  destruct (PyStr.drop_while PyStr.isspace
              (rev (PyStr.lstrip_l (PyStr.chars line))))
    as [| c r] eqn:E; [now contradiction Hne |].
  destruct (drop_while_head _ _ _ _ E) as [Hc _].
  exists c. split; [| exact Hc]. apply in_rev. rewrite rev_involutive.
  now left.
Qed.

Lemma gtkw_line_ok (acc : gtkw_state) (line : string) :
  gtkw_ok acc -> exists acc', gtkw_line acc line = Some acc' /\ gtkw_ok acc'.
Proof.
  intros H. unfold gtkw_line.
  destruct (String.eqb (PyStr.strip line) EmptyString) eqn:Ee; [eauto |].
  destruct (is_gtkw_markup _); [eauto |].
  pose proof (split_strip_nonempty line Ee) as Hs.
  destruct (PyStr.split (PyStr.strip line)) as [| full rest];
    [now contradiction Hs |].
  destruct (RE_BUSNAME (leaf_of full)) as [[[base msb_str] lsb_str] |].
  - eexists. split; [reflexivity |].
    apply (fold_left_preserves gtkw_ok); [| exact H].
    intros a b. apply gtkw_add_ok.
  - eexists. split; [reflexivity |]. now apply gtkw_add_ok.
Qed.

Lemma gtkw_loop_ok (lines : list string) :
  forall acc, gtkw_ok acc ->
  exists acc', gtkw_loop lines acc = Some acc' /\ gtkw_ok acc'.
Proof.
  induction lines as [| line rest IH]; intros acc H; cbn; [eauto |].
  destruct (gtkw_line_ok acc line H) as (acc1 & -> & H1). now apply IH.
Qed.

(** X11. Reading the signal list of a viewer-configuration file fails in
    one way only, by the exception of the reader for a file that is not
    text in the default encoding, which the function does not catch.  A
    file that cannot be opened gives the empty list, and for the lines of
    any other file the function returns (the first word of a line that is
    not blank exists), with no name twice in the list.  (The
    interpreter's limit on the length of a decimal string and the memory
    a long range takes are left aside.) *)
Theorem gtkw_signals_total_and_distinct (file : text_file) :
  match file with
  | NotText => parse_gtkw_signals file = inl GtkwReadError
  | _ => exists sigs,
           parse_gtkw_signals file = inr sigs /\ List.NoDup sigs
  end.
Proof.
  destruct file as [| | lines]; cbn [parse_gtkw_signals].
  - exists []. split; [reflexivity | constructor].
  - reflexivity.
  - destruct (gtkw_loop_ok lines ([], ∅)) as (acc & -> & Hn & _).
    + split; [constructor | cbn]. intros x. rewrite elem_of_empty. tauto.
    + exists (fst acc). split; [reflexivity | exact Hn].
Qed.

(* ===================================================================== *)
(** * Bit names of an expanded bus                                        *)
(* ===================================================================== *)

Lemma uint_chars_digits (d : Decimal.uint) :
  forallb PyStr.isdigit (PyStr.chars (NilEmpty.string_of_uint d)) = true.
Proof. induction d; cbn; auto. Qed.

Lemma uint_value_acc (d : Decimal.uint) :
  forall acc : positive,
    fold_left (fun a c => 10 * a + PyStr.digit_val c)
      (PyStr.chars (NilEmpty.string_of_uint d)) (Z.pos acc)
    = Z.pos (Pos.of_uint_acc d acc).
Proof.
  induction d; intros acc; cbn [NilEmpty.string_of_uint PyStr.chars
    list_ascii_of_string fold_left Pos.of_uint_acc];
    [reflexivity | ..];
    match goal with
    | |- fold_left _ _ ?z = _ =>
        match goal with
        | |- _ = Z.pos (Pos.of_uint_acc _ ?p) =>
            replace z with (Z.pos p)
              by (unfold PyStr.digit_val; cbn; lia)
        end
    end; apply IHd.
Qed.

Lemma uint_value (d : Decimal.uint) :
  PyStr.digits_val (PyStr.chars (NilEmpty.string_of_uint d))
  = Z.of_N (Pos.of_uint d).
Proof.
  unfold PyStr.digits_val.
  induction d; cbn [NilEmpty.string_of_uint PyStr.chars
    list_ascii_of_string fold_left Pos.of_uint];
    [reflexivity | exact IHd | ..];
    match goal with
    | |- fold_left _ _ ?z = Z.of_N (N.pos (Pos.of_uint_acc _ ?p)) =>
        replace z with (Z.pos p) by (unfold PyStr.digit_val; cbn; lia)
    end; apply uint_value_acc.
Qed.

Lemma of_nonneg_nil_empty (n : Z) :
  PyStr.of_nonneg n = NilEmpty.string_of_uint (N.to_uint (Z.to_N n))
  /\ PyStr.chars (PyStr.of_nonneg n) <> [].
Proof.
  unfold PyStr.of_nonneg, NilZero.string_of_uint.
  destruct (Z.to_N n) as [| p]; cbn [N.to_uint]; [split; [auto | easy] |].
  pose proof (DecimalPos.Unsigned.to_uint_nonnil p) as Hp.
  destruct (Pos.to_uint p); try (split; [reflexivity | discriminate]).
  now contradiction Hp.
Qed.

Lemma int_of_nonneg (n : Z) :
  0 <= n -> PyStr.int_of_digits (PyStr.of_nonneg n) = n.
Proof.
  intros Hn. unfold PyStr.int_of_digits.
  rewrite (proj1 (of_nonneg_nil_empty n)), uint_value.
  change (Pos.of_uint (N.to_uint (Z.to_N n)))
    with (N.of_uint (N.to_uint (Z.to_N n))).
  rewrite DecimalN.Unsigned.of_to. lia.
Qed.

Lemma take_drop_while_app (p : ascii -> bool) (ds r : list ascii) c :
  forallb p ds = true -> p c = false ->
  PyStr.take_while p (ds ++ c :: r) = ds /\
  PyStr.drop_while p (ds ++ c :: r) = c :: r.
Proof.
  intros Hd Hc. induction ds as [| d ds IH]; cbn in *.
  - now rewrite Hc.
  - apply andb_true_iff in Hd as [Hd1 Hd2]. rewrite Hd1.
    destruct (IH Hd2) as [-> ->]. auto.
Qed.

Lemma chars_append (a b : string) :
  PyStr.chars (String.append a b) = PyStr.chars a ++ PyStr.chars b.
Proof.
  unfold PyStr.chars. induction a as [| c a IH]; [reflexivity |].
  simpl. f_equal. exact IH.
Qed.

Lemma str_chars (s : string) : PyStr.str (PyStr.chars s) = s.
Proof. apply string_of_list_ascii_of_string. Qed.

Lemma forallb_rev {A} (p : A -> bool) (l : list A) :
  forallb p (rev l) = forallb p l.
Proof.
  destruct (forallb p l) eqn:E.
  - apply forallb_forall. intros x Hx. apply in_rev in Hx.
    exact (proj1 (forallb_forall p l) E x Hx).
  - destruct (forallb p (rev l)) eqn:E'; [| reflexivity].
    rewrite <- E. symmetry. apply forallb_forall. intros x Hx.
    apply in_rev in Hx. exact (proj1 (forallb_forall p _) E' x Hx).
Qed.

Lemma RE_BUSNAME_base (leaf base msb_str lsb_str : string) :
  RE_BUSNAME leaf = Some (base, msb_str, lsb_str) ->
  PyStr.chars base <> [] /\
  forallb not_newline (PyStr.chars base) = true.
Proof.
  unfold RE_BUSNAME.
  destruct (drop_final_newline _) as [| c r]; [discriminate |].
  destruct (Ascii.eqb c "]"); [| discriminate].
  destruct (PyStr.take_while PyStr.isdigit r); [discriminate |].
  destruct (PyStr.drop_while PyStr.isdigit r) as [| colon r1];
    [discriminate |].
  destruct (Ascii.eqb colon ":"); [| discriminate].
  destruct (PyStr.take_while PyStr.isdigit r1); [discriminate |].
  destruct (PyStr.drop_while PyStr.isdigit r1) as [| o b]; [discriminate |].
  destruct b as [| b0 b]; [discriminate |].
  destruct (Ascii.eqb o "[" && forallb not_newline (b0 :: b)) eqn:E;
    [| discriminate].
  intros [= <- _ _]. rewrite chars_str.
  apply andb_true_iff in E as [_ E]. split.
  - intros H. change (rev b ++ [b0] = []) in H.
    destruct (rev b); discriminate.
  - change (forallb not_newline (rev (b0 :: b)) = true).
    now rewrite forallb_rev.
Qed.

Lemma RE_BUSBIT_bit_name (base : string) (i : Z) :
  PyStr.chars base <> [] ->
  forallb not_newline (PyStr.chars base) = true ->
  RE_BUSBIT (bit_name base i) = Some (base, PyStr.of_nonneg i).
Proof.
  intros Hne Hnl. unfold RE_BUSBIT, bit_name.
  rewrite !chars_append. cbn [PyStr.chars list_ascii_of_string app].
  rewrite rev_app_distr. cbn [rev app].
  rewrite rev_app_distr. cbn [rev app drop_final_newline].
  change (Ascii.eqb "]" "010") with false. cbv iota.
  change (Ascii.eqb "]" "]") with true. cbv iota.
  fold (PyStr.chars base).
  set (ds := PyStr.chars (PyStr.of_nonneg i)).
  assert (Hds : forallb PyStr.isdigit (rev ds) = true).
  { rewrite forallb_rev. unfold ds.
    rewrite (proj1 (of_nonneg_nil_empty i)). apply uint_chars_digits. }
  destruct (take_drop_while_app PyStr.isdigit (rev ds)
              (rev (PyStr.chars base)) "[" Hds eq_refl) as [Et Ed].
  rewrite <- app_assoc. cbn [app]. rewrite Et, Ed.
  destruct (rev ds) as [| d0 rds] eqn:Er.
  { exfalso. apply (proj2 (of_nonneg_nil_empty i)).
    apply (f_equal (@rev _)) in Er. rewrite rev_involutive in Er.
    exact Er. }
  destruct (rev (PyStr.chars base)) as [| b0 b] eqn:Eb.
  { exfalso. apply Hne. apply (f_equal (@rev _)) in Eb.
    now rewrite rev_involutive in Eb. }
  rewrite <- Eb, <- Er, forallb_rev, Hnl, !rev_involutive.
  cbn [andb Ascii.eqb]. unfold ds.
  now rewrite !str_chars.
Qed.

(** X12. The name the expansion of a bus [base[msb:lsb]] gives to bit [i]
    is one the selection reads back as the bit [i] of the bus [base]: its
    base and its index are the ones it was made from. *)
Theorem expanded_bit_name_reads_back (leaf base msb_str lsb_str : string)
    (i : Z) :
  RE_BUSNAME leaf = Some (base, msb_str, lsb_str) ->
  0 <= i ->
  exists idx_str,
    RE_BUSBIT (bit_name base i) = Some (base, idx_str) /\
    PyStr.int_of_digits idx_str = i.
Proof.
  intros Hm Hi. destruct (RE_BUSNAME_base _ _ _ _ Hm) as [Hne Hnl].
  exists (PyStr.of_nonneg i). split.
  - now apply RE_BUSBIT_bit_name.
  - now apply int_of_nonneg.
Qed.

Lemma expanded_bit_name_reads_back_witness :
  exists idx_str,
    RE_BUSBIT (bit_name "top.d" 12) = Some ("top.d", idx_str) /\
    PyStr.int_of_digits idx_str = 12.
Proof.
  apply (expanded_bit_name_reads_back "top.d[15:0]" "top.d" "15" "0" 12).
  - reflexivity.
  - lia.
Defined.

(** X13. A bus [base[msb:lsb]] is expanded from its most significant bit
    on, whichever way the range runs: the bits lie in the range, there
    are [|msb - lsb| + 1] of them, and their offsets in a payload are 0,
    1, 2 and so on, so the columns of an expanded bus come in the order
    of the characters of a payload. *)
Theorem expansion_in_payload_order (msb lsb : Z) :
  map (bit_offset msb lsb) (bit_range msb lsb)
  = map Z.of_nat (seq 0 (length (bit_range msb lsb)))
  /\ Forall (fun i => in_range msb lsb i = true) (bit_range msb lsb)
  /\ Z.of_nat (length (bit_range msb lsb)) = Z.abs (msb - lsb) + 1.
Proof.
  unfold bit_range, bit_offset, in_range.
  destruct (Z.leb_spec lsb msb) as [H | H];
    rewrite length_map, length_seq, map_map; repeat split.
  - apply map_ext. intros k. lia.
  - apply List.Forall_forall. intros i Hi.
    apply in_map_iff in Hi as (k & <- & Hk). apply in_seq in Hk.
    apply orb_true_iff. left. lia.
  - lia.
  - apply map_ext. intros k. lia.
  - apply List.Forall_forall. intros i Hi.
    apply in_map_iff in Hi as (k & <- & Hk). apply in_seq in Hk.
    apply orb_true_iff. right. lia.
  - lia.
Qed.

(* ===================================================================== *)
(** * Time specifications                                                 *)
(* ===================================================================== *)

Lemma utake_drop_while (p : N -> bool) (l : ustr) :
  UStr.take_while p l ++ UStr.drop_while p l = l.
Proof.
  induction l as [| c l IH]; cbn; [reflexivity |].
  destruct (p c); cbn; [now rewrite IH | reflexivity].
Qed.

Lemma utake_while_all (p : N -> bool) (l : ustr) :
  forallb p (UStr.take_while p l) = true.
Proof.
  induction l as [| c l IH]; cbn; [reflexivity |].
  destruct (p c) eqn:E; cbn; [now rewrite E, IH | reflexivity].
Qed.

Lemma forallb_weaken {A} (p q : A -> bool) (l : list A) :
  (forall x, p x = true -> q x = true) ->
  forallb p l = true -> forallb q l = true.
Proof.
  intros Hpq H. apply forallb_forall. intros x Hx.
  apply Hpq. exact (proj1 (forallb_forall p l) H x Hx).
Qed.

Lemma tspec_digit c : UStr.isdigit c = true -> tspec_char c = true.
Proof. unfold tspec_char. now intros ->. Qed.

Lemma tspec_space c : UStr.isspace c = true -> tspec_char c = true.
Proof. unfold tspec_char. intros ->. now rewrite !orb_true_r. Qed.

Lemma tspec_s c : is_s_any c = true -> tspec_char c = true.
Proof. unfold tspec_char. intros ->. now rewrite !orb_true_r. Qed.

Lemma tspec_prefix c : is_unit_prefix_any c = true -> tspec_char c = true.
Proof. unfold tspec_char. intros ->. now rewrite !orb_true_r. Qed.

Lemma RE_TSPEC_chars (spec : ustr) res :
  RE_TSPEC spec = Some res -> forallb tspec_char spec = true.
Proof.
  unfold RE_TSPEC.
  pose proof (utake_drop_while UStr.isspace spec) as E0.
  pose proof (utake_while_all UStr.isspace spec) as W0.
  set (l0 := UStr.drop_while UStr.isspace spec) in *.
  pose proof (utake_drop_while UStr.isdigit l0) as E1.
  pose proof (utake_while_all UStr.isdigit l0) as W1.
  set (d1 := UStr.take_while UStr.isdigit l0) in *.
  set (r1 := UStr.drop_while UStr.isdigit l0) in *.
  clearbody d1 r1. clearbody l0.
  rewrite <- E0, forallb_app, (forallb_weaken _ _ _ tspec_space W0).
  rewrite <- E1, forallb_app, (forallb_weaken _ _ _ tspec_digit W1).
  cbn [andb]. clear E0 W0 E1 W1.
  assert (T : forall r2,
             match UStr.drop_while UStr.isspace r2 with
             | [] => true
             | c :: r =>
                 if is_s_any c then forallb UStr.isspace r
                 else if is_unit_prefix_any c then
                   match r with
                   | s :: r' => is_s_any s && forallb UStr.isspace r'
                   | [] => false
                   end
                 else false
             end = true ->
             forallb tspec_char r2 = true).
  { intros r2 H.
    rewrite <- (utake_drop_while UStr.isspace r2), forallb_app.
    rewrite (forallb_weaken _ _ _ tspec_space (utake_while_all _ r2)).
    cbn [andb].
    destruct (UStr.drop_while UStr.isspace r2) as [| c r];
      [reflexivity |].
    cbn [forallb]. destruct (is_s_any c) eqn:Es.
    - rewrite (tspec_s _ Es). cbn [andb].
      exact (forallb_weaken _ _ _ tspec_space H).
    - destruct (is_unit_prefix_any c) eqn:Ep; [| discriminate].
      rewrite (tspec_prefix _ Ep). cbn [andb].
      destruct r as [| s r']; [discriminate |].
      apply andb_true_iff in H as [Hs Hr]. cbn [forallb].
      rewrite (tspec_s _ Hs). cbn [andb].
      exact (forallb_weaken _ _ _ tspec_space Hr). }
  assert (F : forall num r2,
             match num with
             | [] => None
             | _ :: _ =>
                 match UStr.drop_while UStr.isspace r2 with
                 | [] => Some (num, None)
                 | c :: r =>
                     if is_s_any c then
                       if forallb UStr.isspace r
                       then Some (num, Some [c])
                       else None
                     else if is_unit_prefix_any c then
                       match r with
                       | s :: r' =>
                           if is_s_any s && forallb UStr.isspace r'
                           then Some (num, Some [c; s])
                           else None
                       | [] => None
                       end
                     else None
                 end
             end = Some res ->
             forallb tspec_char r2 = true).
  { intros num r2 H. apply T. destruct num; [discriminate |].
    destruct (UStr.drop_while UStr.isspace r2) as [| c r0];
      [reflexivity |].
    destruct (is_s_any c); [now destruct (forallb UStr.isspace r0) |].
    destruct (is_unit_prefix_any c); [| discriminate].
    destruct r0 as [| s r']; [discriminate |].
    now destruct (is_s_any s && forallb UStr.isspace r'). }
  destruct r1 as [| dot r]; [apply F |].
  pose proof (utake_drop_while UStr.isdigit r) as E2.
  pose proof (utake_while_all UStr.isdigit r) as W2.
  destruct (UStr.take_while UStr.isdigit r) as [| a d2]; [apply F |].
  destruct (N.eqb_spec dot 46) as [-> | _]; [| apply F].
  intros H. apply F in H. cbn [forallb]. rewrite <- E2, forallb_app.
  rewrite (forallb_weaken _ _ _ tspec_digit W2), H. reflexivity.
Qed.

(** X14. A time specification that holds a character, of any code
    point, other than a digit [0-9], the dot, white space and the
    letters of a unit (in either case, with the long s and the Kelvin
    sign that the pattern lets in for [s] and [k]) is refused as an
    invalid time specification: there is no sign and no exponent, so a
    value written like [1e-6] ends the program. *)
Theorem time_spec_without_sign_or_exponent (spec : ustr) (c : N) :
  In c spec -> tspec_char c = false ->
  parse_time_with_units (Some spec) = inl InvalidTimeSpec.
Proof.
  intros Hin Hc. unfold parse_time_with_units.
  destruct (RE_TSPEC spec) as [r |] eqn:E; [exfalso | reflexivity].
  pose proof (RE_TSPEC_chars _ _ E) as H.
  rewrite (proj1 (forallb_forall _ _) H c Hin) in Hc. discriminate.
Qed.

Lemma time_spec_without_sign_or_exponent_witness :
  parse_time_with_units (Some (UStr.of_str "1e-6"))
  = inl InvalidTimeSpec.
Proof.
  apply (time_spec_without_sign_or_exponent (UStr.of_str "1e-6") 101%N).
  - right. left. reflexivity.
  - reflexivity.
Defined.

Lemma is_s_any_cases (c : N) :
  is_s_any c = true -> In c [115; 83; 383]%N.
Proof.
  unfold is_s_any. intros H.
  apply existsb_exists in H as (x & Hx & E).
  apply N.eqb_eq in E. now subst.
Qed.

Lemma is_unit_prefix_any_cases (c : N) :
  is_unit_prefix_any c = true ->
  In c [102; 70; 112; 80; 110; 78; 117; 85; 109; 77; 107; 75; 8490]%N.
Proof.
  unfold is_unit_prefix_any. intros H.
  apply existsb_exists in H as (x & Hx & E).
  apply N.eqb_eq in E. now subst.
Qed.

Lemma RE_TSPEC_unit (spec v u : ustr) :
  RE_TSPEC spec = Some (v, Some u) ->
  (exists c, u = [c] /\ is_s_any c = true) \/
  (exists c s, u = [c; s] /\ is_unit_prefix_any c = true /\
               is_s_any s = true).
Proof.
  unfold RE_TSPEC.
  destruct (match UStr.drop_while UStr.isdigit _ with
            | [] => _
            | dot :: r => _
            end) as [num r2].
  destruct num; [discriminate |].
  destruct (UStr.drop_while UStr.isspace r2) as [| c r0];
    [discriminate |].
  destruct (is_s_any c) eqn:Es.
  - destruct (forallb UStr.isspace r0); [| discriminate].
    intros [= _ <-]. left. eauto.
  - destruct (is_unit_prefix_any c) eqn:Ep; [| discriminate].
    destruct r0 as [| s r']; [discriminate |].
    destruct (is_s_any s && forallb UStr.isspace r') eqn:E;
      [| discriminate].
    apply andb_true_iff in E as [E _].
    intros [= _ <-]. right. eauto.
Qed.

(** The units the table does not know, among those the pattern lets
    through. *)
Lemma unit_unknown (u : ustr) :
  (exists c, u = [c] /\ is_s_any c = true) \/
  (exists c s, u = [c; s] /\ is_unit_prefix_any c = true /\
               is_s_any s = true) ->
  unit_to_ps (map unit_lower u) = None <->
  map unit_lower u = UStr.of_str "ks" \/ In 383%N u.
Proof.
  intros [(c & -> & Hc) | (c & s & -> & Hc & Hs)].
  - apply is_s_any_cases in Hc. cbn [In] in Hc.
    destruct Hc as [<- | [<- | [<- | []]]]; split; intros H;
      first [ discriminate H
            | reflexivity
            | right; now left
            | destruct H as [H | [H | []]]; discriminate H ].
  - apply is_unit_prefix_any_cases in Hc. apply is_s_any_cases in Hs.
    cbn [In] in Hc, Hs.
    destruct Hs as [<- | [<- | [<- | []]]];
      repeat (destruct Hc as [<- | Hc]); try destruct Hc;
      split; intros H;
      first [ discriminate H
            | reflexivity
            | left; reflexivity
            | right; right; now left
            | destruct H as [H | [H | [H | []]]]; discriminate H ].
Qed.

(** X15. The unit pattern lets through units the table of units does
    not know: a specification is refused for its unit exactly when the
    unit reads [ks] once in small letters (the prefix [k], in either case
    or as the Kelvin sign), or is written with the long s, which the
    pattern takes for an [s] and [str.lower] leaves alone.  So are [5ks]
    and [5] followed by a long s. *)
Theorem unit_error_is_unknown_unit (spec : ustr) :
  (parse_time_with_units (Some spec) = inl InvalidTimeUnit <->
   exists v u,
     RE_TSPEC spec = Some (v, Some u) /\
     (map unit_lower u = UStr.of_str "ks" \/ In 383%N u))
  /\ parse_time_with_units (Some (UStr.of_str "5ks"))
     = inl InvalidTimeUnit
  /\ parse_time_with_units (Some [53; 383]%N) = inl InvalidTimeUnit.
Proof.
  split; [| split; reflexivity]. unfold parse_time_with_units. split.
  - destruct (RE_TSPEC spec) as [[v [u |]] |] eqn:E; try discriminate.
    destruct (unit_to_ps (map unit_lower u)) eqn:Eu; [discriminate |].
    intros _. exists v, u. split; [reflexivity |].
    now apply (unit_unknown u (RE_TSPEC_unit _ _ _ E)).
  - intros (v & u & E & H). rewrite E.
    apply (unit_unknown u (RE_TSPEC_unit _ _ _ E)) in H.
    now rewrite H.
Qed.

(* ===================================================================== *)
(** * Rows and time markers in event mode                                 *)
(* ===================================================================== *)

Lemma flush_budget cfg s :
  (row_budget (fst (flush_if_needed cfg s)) <= row_budget s + 1)%nat /\
  (length (rows (fst (flush_if_needed cfg s))) <= row_budget s)%nat /\
  (cur_time_ticks s = None ->
   row_budget (fst (flush_if_needed cfg s)) = row_budget s).
Proof.
  unfold flush_if_needed, row_budget.
  destruct (cur_time_ticks s) eqn:Ek; [| cbn; rewrite Ek; lia].
  destruct (changed_at_time s); cbn [negb];
    [| cbn; rewrite Ek; repeat split; (lia || discriminate)].
  destruct (PyFloat.int_mul _ _) as [t |];
    [| cbn; rewrite Ek; repeat split; (lia || discriminate)].
  destruct (below_tmin cfg t);
    [cbn; rewrite Ek; repeat split; (lia || discriminate) |].
  destruct (above_tmax cfg t);
    [cbn; rewrite Ek; repeat split; (lia || discriminate) |].
  assert (H : cur_time_ticks (emit_row cfg t s) = Some z /\
              (length (rows (emit_row cfg t s)) <= length (rows s) + 1)%nat).
  { unfold emit_row. destruct (row_values _ _); cbn; rewrite ?Ek;
      [split; [reflexivity | lia] |].
    rewrite length_app. cbn. split; [reflexivity | lia]. }
  destruct H as [H1 H2].
  destruct (st (emit_row cfg t s)); cbn; rewrite H1;
    repeat split; (lia || discriminate).
Qed.

Lemma event_line_budget cfg s line :
  (row_budget (event_line cfg s line)
   <= row_budget s + (if is_marker line then 1 else 0))%nat.
Proof.
  unfold event_line, is_marker.
  destruct (st s); try lia.
  destruct (header_done s); cbn [negb].
  2: { destruct (PyStr.contains _ _); cbn; unfold row_budget; cbn; lia. }
  destruct (String.eqb _ EmptyString); [lia |].
  destruct (RE_TIME _) as [g |].
  - destruct (flush_budget cfg s) as (A & B & C).
    destruct (flush_if_needed cfg s) as [s' stop]. cbn [fst] in *.
    destruct (st s'); try lia.
    destruct stop; unfold row_budget in *; cbn.
    + destruct (cur_time_ticks s'); lia.
    + destruct (cur_time_ticks s) eqn:Ek.
      * lia.
      * specialize (C eq_refl). destruct (cur_time_ticks s'); lia.
  - destruct (starts_dollar_or_hash _); [lia |].
    destruct (value_change_frame true cfg (PyStr.rstrip line) s)
      as (A & _ & _ & B).
    unfold row_budget. rewrite A, B. lia.
Qed.

(** X16. Event mode writes at most one row for each time marker of the
    input. *)
Theorem event_rows_at_most_markers (cfg : config) (lines : list string) :
  (length (rows (event_run cfg lines))
   <= length (List.filter is_marker lines))%nat.
Proof.
  unfold event_run, event_loop.
  assert (G : forall l s,
             (row_budget (fold_left (event_line cfg) l s)
              <= row_budget s + length (List.filter is_marker l))%nat).
  { induction l as [| x l IH]; intros s; cbn [fold_left List.filter];
      [cbn; lia |].
    specialize (IH (event_line cfg s x)).
    pose proof (event_line_budget cfg s x) as H.
    destruct (is_marker x); cbn [length]; lia. }
  specialize (G lines (init_state (cfg_signals cfg))).
  set (s := fold_left (event_line cfg) lines _) in *.
  change (row_budget (init_state (cfg_signals cfg))) with 0%nat in G.
  unfold event_finish.
  destruct (st s).
  - destruct (flush_budget cfg s) as (_ & B & _). lia.
  - unfold row_budget in G. lia.
  - unfold row_budget in G. lia.
  - unfold row_budget in G. lia.
Qed.

Lemma scalar_assign_pending val s name :
  changed_at_time (scalar_assign true val s name) = false ->
  changed_at_time s = false /\
  cur_vals (scalar_assign true val s name) = cur_vals s.
Proof.
  unfold scalar_assign. destruct (st s); auto.
  destruct (cur_vals s !! name); [| auto].
  destruct (bool_decide _); [auto |]. cbn. rewrite orb_true_r.
  discriminate.
Qed.

Lemma vector_assign_pending bits s b :
  changed_at_time (vector_assign true bits s b) = false ->
  changed_at_time s = false /\
  cur_vals (vector_assign true bits s b) = cur_vals s.
Proof.
  unfold vector_assign. destruct (st s); auto.
  destruct b as [[bit_name offset] width].
  destruct (raw_bit bits offset width); [| auto].
  destruct (bool_decide _); [auto |]. cbn. rewrite orb_true_r.
  discriminate.
Qed.

Lemma fold_left_pending {B} (f : state -> B -> state) :
  (forall s b, changed_at_time (f s b) = false ->
               changed_at_time s = false /\ cur_vals (f s b) = cur_vals s) ->
  forall l s,
    changed_at_time (fold_left f l s) = false ->
    changed_at_time s = false /\ cur_vals (fold_left f l s) = cur_vals s.
Proof.
  intros Hf l. induction l as [| b l IH]; intros s H; cbn in *; [auto |].
  destruct (IH _ H) as [H1 H2]. destruct (Hf _ _ H1) as [H3 H4].
  split; [exact H3 | congruence].
Qed.

Lemma value_change_pending cfg line s :
  changed_at_time (value_change true cfg line s) = false ->
  changed_at_time s = false /\
  cur_vals (value_change true cfg line s) = cur_vals s.
Proof.
  unfold value_change.
  destruct (RE_SCALAR line) as [[val sid] |].
  - destruct (ODict.get sid _); [| auto].
    apply fold_left_pending. intros a b. apply scalar_assign_pending.
  - destruct (RE_VECTOR line) as [[bits sid] |]; [| auto].
    destruct (ODict.get sid _); [| auto].
    apply fold_left_pending. intros a b. apply vector_assign_pending.
Qed.

Lemma flush_synced cfg s :
  tmin cfg = None -> tmax cfg = None ->
  (changed_at_time s = false -> synced cfg s) ->
  let s' := fst (flush_if_needed cfg s) in
  (changed_at_time s' = false -> synced cfg s') /\
  (st s' = Running -> cur_time_ticks s <> None ->
   changed_at_time s' = false) /\
  snd (flush_if_needed cfg s) = false /\
  cur_time_ticks s' = cur_time_ticks s.
Proof.
  intros Hlo Hhi H. cbn zeta. unfold flush_if_needed.
  destruct (cur_time_ticks s) eqn:Ek.
  2: { cbn. rewrite Ek. repeat split; auto. intros _ K.
       now contradiction K. }
  destruct (changed_at_time s) eqn:Ec; cbn [negb].
  2: { cbn. rewrite Ek, Ec. repeat split; auto. }
  destruct (PyFloat.int_mul _ _) as [t |].
  2: { cbn. rewrite Ek, Ec. repeat split; discriminate. }
  unfold below_tmin, above_tmax. rewrite Hlo, Hhi.
  unfold emit_row.
  destruct (row_values (cur_vals s) (cfg_signals cfg)) as [k | vs] eqn:Ev.
  - cbn. rewrite Ek, Ec. repeat split; discriminate.
  - change (st (write_row s (t, vs))) with (st s).
    destruct (st s) eqn:Hst; cbn; rewrite ?Ek, ?Ec, ?Hst;
      repeat split; try discriminate.
    intros _. unfold synced. cbn. now rewrite last_snoc.
Qed.

Lemma event_line_synced cfg s line :
  tmin cfg = None -> tmax cfg = None ->
  (changed_at_time s = false -> synced cfg s) ->
  changed_at_time (event_line cfg s line) = false ->
  synced cfg (event_line cfg s line).
Proof.
  intros Hlo Hhi H. unfold event_line.
  destruct (st s); try exact H.
  destruct (header_done s); cbn [negb].
  2: { destruct (PyStr.contains _ _); exact H. }
  destruct (String.eqb _ EmptyString); [exact H |].
  destruct (RE_TIME _) as [g |].
  - destruct (flush_synced cfg s Hlo Hhi H) as (A & _ & B & _).
    destruct (flush_if_needed cfg s) as [s' stop]. cbn [fst snd] in *.
    subst stop. destruct (st s'); exact A.
  - destruct (starts_dollar_or_hash _); [exact H |].
    intros Hc. destruct (value_change_pending _ _ _ Hc) as [H1 H2].
    unfold synced. rewrite value_change_rows, H2. exact (H H1).
Qed.

(** X17. In event mode without time bounds, a run that ends normally
    after a time marker has written the final values of the columns: the
    last row shows the values the columns hold at the end, and when no
    row is written the columns still hold their initial values. *)
Theorem event_last_row_is_final_state (cfg : config) (lines : list string) :
  tmin cfg = None -> tmax cfg = None ->
  st (event_run cfg lines) = Running ->
  cur_time_ticks (event_run cfg lines) <> None ->
  synced cfg (event_run cfg lines).
Proof.
  intros Hlo Hhi. unfold event_run, event_loop.
  set (s := fold_left (event_line cfg) lines (init_state (cfg_signals cfg))).
  assert (H : changed_at_time s = false -> synced cfg s).
  { apply (fold_left_preserves
             (fun s => changed_at_time s = false -> synced cfg s)).
    - intros a b. now apply event_line_synced.
    - intros _. reflexivity. }
  unfold event_finish. destruct (st s) eqn:Hst; try (rewrite Hst; discriminate).
  destruct (flush_synced cfg s Hlo Hhi H) as (A & B & _ & C).
  cbn zeta in *. intros Hrun Hk. rewrite C in Hk. auto.
Qed.

Lemma event_last_row_is_final_state_witness :
  synced (two_col_cfg None) (event_run (two_col_cfg None) two_col_lines).
Proof.
  apply event_last_row_is_final_state; try reflexivity.
  vm_compute. discriminate.
Defined.

(* ===================================================================== *)
(** * The time scale directive                                            *)
(* ===================================================================== *)

Lemma drop_while_snoc (p : ascii -> bool) (l : list ascii) d :
  p d = false ->
  PyStr.drop_while p (l ++ [d]) = PyStr.drop_while p l ++ [d].
Proof.
  intros Hd. induction l as [| a l IH]; cbn; [now rewrite Hd |].
  destruct (p a); [exact IH | reflexivity].
Qed.

Lemma strip_head (l : list ascii) c r :
  PyStr.strip_l l = c :: r ->
  exists r', PyStr.drop_while PyStr.isspace l = c :: r'.
Proof.
  unfold PyStr.strip_l, PyStr.lstrip_l, PyStr.rstrip_l.
  destruct (PyStr.drop_while PyStr.isspace l) as [| d m] eqn:E;
    [discriminate |].
  destruct (drop_while_head _ _ _ _ E) as [Hd _].
  cbn [rev]. rewrite (drop_while_snoc _ _ _ Hd), rev_app_distr.
  cbn. intros [= <- _]. eauto.
Qed.

Lemma head_strip (l : list ascii) d r :
  PyStr.drop_while PyStr.isspace l = d :: r ->
  exists r', PyStr.strip_l l = d :: r'.
Proof.
  intros E. unfold PyStr.strip_l, PyStr.lstrip_l, PyStr.rstrip_l.
  rewrite E. destruct (drop_while_head _ _ _ _ E) as [Hd _].
  cbn [rev]. rewrite (drop_while_snoc _ _ _ Hd), rev_app_distr.
  cbn. eauto.
Qed.

Lemma RE_TS_not_keyword (line f u : string) :
  RE_TS line = Some (f, u) ->
  PyStr.strip line <> "$timescale" /\ PyStr.strip line <> "$end".
Proof.
  unfold RE_TS.
  destruct (PyStr.drop_while PyStr.isspace (PyStr.chars line))
    as [| d r] eqn:E; [discriminate |].
  cbn [PyStr.take_while]. destruct (PyStr.isdigit d) eqn:Hd;
    [| discriminate].
  intros _. destruct (head_strip _ _ _ E) as [r' Hr].
  unfold PyStr.strip. rewrite Hr.
  split; intros [= -> _]; discriminate.
Qed.

Lemma RE_TS_end (line : string) :
  PyStr.strip line = "$end" -> RE_TS line = None.
Proof.
  intros H. unfold PyStr.strip in H.
  apply (f_equal PyStr.chars) in H. rewrite chars_str in H.
  destruct (strip_head _ _ _ H) as [r' E].
  unfold RE_TS. now rewrite E.
Qed.

Lemma timescale_skip (pre rest : list string) (ts : float) :
  Forall (fun l => PyStr.strip l <> "$timescale") pre ->
  parse_timescale_loop (pre ++ rest) false ts
  = parse_timescale_loop rest false ts.
Proof.
  induction 1 as [| l pre Hl _ IH]; cbn; [reflexivity |].
  destruct (String.eqb_spec (PyStr.strip l) "$timescale") as [E | _];
    [contradiction | exact IH].
Qed.

(** X18. A directive written on three lines - the keyword [$timescale],
    a number with its unit, the keyword [$end], each alone on its line -
    sets the time scale to the product of the number and of the unit in
    picoseconds, or fails by overflow when the number is too large for a
    float. *)
Theorem timescale_three_line_form (pre rest : list string)
    (kw body e f u : string) (x : float) :
  Forall (fun l => PyStr.strip l <> "$timescale") pre ->
  PyStr.strip kw = "$timescale" ->
  RE_TS body = Some (f, u) ->
  UNIT_TO_PS (PyStr.lower u) = Some x ->
  PyStr.strip e = "$end" ->
  parse_timescale (pre ++ kw :: body :: e :: rest)
  = PyFloat.int_mul (PyStr.int_of_digits f) x.
Proof.
  intros Hpre Hkw Hb Hu He. unfold parse_timescale.
  rewrite (timescale_skip _ _ _ Hpre).
  destruct (RE_TS_not_keyword _ _ _ Hb) as [N1 N2].
  cbn [parse_timescale_loop]. rewrite Hkw. cbn [String.eqb Ascii.eqb].
  change (Ascii.eqb "$" "$") with true.
  destruct (String.eqb_spec (PyStr.strip body) "$timescale") as [E | _];
    [contradiction |].
  rewrite Hb, Hu.
  destruct (PyFloat.int_mul _ x) as [ts' |]; [| reflexivity].
  destruct (String.eqb_spec (PyStr.strip body) "$end") as [E | _];
    [contradiction |].
  rewrite He, (RE_TS_end _ He). reflexivity.
Qed.

Lemma timescale_three_line_form_witness :
  parse_timescale
    (["$date today $end"] ++ "$timescale" :: "  10 us" :: " $end"
       :: ["$var wire 1 ! clk $end"])
  = PyFloat.int_mul (PyStr.int_of_digits "10") 1e6%float.
Proof.
  apply (timescale_three_line_form _ _ _ _ _ "10" "us").
  - repeat constructor. vm_compute. discriminate.
  - reflexivity.
  - reflexivity.
  - reflexivity.
  - reflexivity.
Defined.

Lemma flush_on_markers cfg lines s :
  on_markers cfg lines s ->
  on_markers cfg lines (fst (flush_if_needed cfg s)).
Proof.
  intros H. unfold flush_if_needed.
  destruct (cur_time_ticks s) as [t |] eqn:Ek; [| exact H].
  destruct (changed_at_time s); cbn [negb]; [| exact H].
  destruct (PyFloat.int_mul _ _) as [t_sec |] eqn:Em; [| exact H].
  destruct (below_tmin cfg t_sec); [exact H |].
  destruct (above_tmax cfg t_sec); [exact H |].
  assert (H' : on_markers cfg lines (emit_row cfg t_sec s)).
  { unfold emit_row. destruct (row_values _ _) as [k | vs]; [exact H |].
    destruct H as [Hk Hr]. split; [exact Hk |]. cbn.
    apply Forall_app. split; [exact Hr |].
    constructor; [| constructor].
    exists t. split; [now apply Hk | exact Em]. }
  destruct (st (emit_row cfg t_sec s)); exact H'.
Qed.

Lemma event_line_on_markers cfg lines s line :
  In line lines ->
  on_markers cfg lines s -> on_markers cfg lines (event_line cfg s line).
Proof.
  intros Hin H. unfold event_line.
  destruct (st s); try exact H.
  destruct (header_done s); cbn [negb].
  2: { destruct (PyStr.contains _ _); exact H. }
  destruct (String.eqb _ EmptyString); [exact H |].
  destruct (RE_TIME _) as [g |] eqn:Eg.
  - pose proof (flush_on_markers cfg lines s H) as F.
    destruct (flush_if_needed cfg s) as [s' stop]. cbn [fst] in F.
    destruct (st s'); try exact F.
    destruct stop; [exact F |].
    split; [| apply F]. cbn. intros t [= <-]. now exists line, g.
  - destruct (starts_dollar_or_hash _); [exact H |].
    destruct (value_change_frame true cfg (PyStr.rstrip line) s)
      as (A & _ & _ & B).
    destruct H as [Hk Hr]. split; [now rewrite A | now rewrite B].
Qed.

(** X19. Every row of event mode carries the time of a time marker of
    the input: its tick count times the seconds of one tick. *)
Theorem event_rows_at_marker_times (cfg : config) (lines : list string) :
  Forall (stamped cfg lines) (rows (event_run cfg lines)).
Proof.
  unfold event_run, event_loop.
  assert (G : forall l s,
             (forall x, In x l -> In x lines) ->
             on_markers cfg lines s ->
             on_markers cfg lines (fold_left (event_line cfg) l s)).
  { induction l as [| x l IH]; intros s Hl Hs; cbn; [exact Hs |].
    apply IH; [intros; apply Hl; now right |].
    apply event_line_on_markers; [apply Hl; now left | exact Hs]. }
  assert (H0 : on_markers cfg lines (init_state (cfg_signals cfg))).
  { split; [discriminate | constructor]. }
  pose proof (G lines _ (fun x H => H) H0) as H.
  unfold event_finish. destruct (st _); try apply H.
  now apply flush_on_markers.
Qed.

(* ===================================================================== *)
(** * The command line                                                    *)
(* ===================================================================== *)

Lemma main_signals_cases files a :
  (exists sigs, main_signals files a = inr sigs) \/
  (main_signals files a = inl GtkwReadError /\
   exists path, given (cli_gtkw a) = Some path /\ files path = NotText).
Proof.
  unfold main_signals.
  destruct (given (cli_gtkw a)) as [path |].
  - destruct (files path) as [| | lines] eqn:Ef; cbn [parse_gtkw_signals].
    + left. destruct (truthy (cli_signal a)); eauto.
    + right. eauto.
    + left. destruct (gtkw_loop_ok lines ([], ∅)) as (acc & -> & _).
      * split; [constructor | cbn]. intros x. rewrite elem_of_empty. tauto.
      * destruct (fst acc); [destruct (truthy (cli_signal a)) |]; eauto.
  - left. destruct (truthy (cli_signal a)); eauto.
Qed.

(** X20. The whole program, from the options to the output, for an input
    file whose header has buses at most [max_bus_width] wide.  The
    [IndexError] of reading the viewer-configuration file never occurs;
    the program ends with the exception of a reader only when the
    viewer-configuration file it is given, or the input file, is not
    text in the default encoding; and the only exception the conversion
    itself can end with is the [OverflowError] of a tick count or of a
    time-scale factor too large for a float.  (The output file is taken
    to be writable; the interpreter's limit on the length of a decimal
    string and failures of memory are left aside.) *)
Theorem main_raises_overflow_only (fuel : nat)
    (files : string -> text_file) (a : cli) :
  (forall lines, files (cli_vcd a) = Text lines -> widths_bounded lines) ->
  main fuel files a <> GtkwFailed /\
  (main fuel files a = ReadRaised ->
   (exists path, given (cli_gtkw a) = Some path /\ files path = NotText)
   \/ files (cli_vcd a) = NotText) /\
  forall o e,
    main fuel files a = Converted o -> how o = Uncaught e ->
    e = OverflowError.
Proof.
  intros _. unfold main.
  destruct (main_signals_cases files a) as [[sigs ->] | [-> Hp]].
  2: { repeat split; [discriminate | now left | discriminate]. }
  destruct (time_option (cli_tmin a)) as [e1 | lo];
    [repeat split; discriminate |].
  destruct (time_option (cli_tmax a)) as [e2 | hi];
    [repeat split; discriminate |].
  destruct (time_option (cli_uniform_step a)) as [e3 | step];
    [repeat split; discriminate |].
  destruct (files (cli_vcd a)) as [| | lines].
  - repeat split; discriminate.
  - repeat split; [discriminate | now right | discriminate].
  - repeat split; try discriminate.
    intros o e [= <-]. unfold vcd_to_csv.
    destruct (parse_timescale lines) as [ts_ps |]; [| now intros [= <-]].
    destruct (prepare lines _ (cli_ignore_missing a)) as [r | sel] eqn:Ep;
      [discriminate |].
    cbn [how]. apply ending_overflow_only.
    destruct step as [step |].
    + apply uniform_run_sound. exact (prepare_tables_ok _ _ _ _ _ _ _ Ep).
    + apply event_run_sound. exact (prepare_tables_ok _ _ _ _ _ _ _ Ep).
Qed.

Lemma main_raises_overflow_only_witness :
  main 1 demo_files demo_cli
  = Converted (vcd_to_csv 1 overflow_vcd (Some ["clk"; "d[0]"])
                 (Some 0%float) None false None) /\
  main 1 demo_files demo_cli <> GtkwFailed /\
  (forall o e,
     main 1 demo_files demo_cli = Converted o -> how o = Uncaught e ->
     e = OverflowError).
Proof.
  assert (W : forall lines,
             demo_files (cli_vcd demo_cli) = Text lines ->
             widths_bounded lines).
  { intros lines [= <-]. unfold widths_bounded. vm_compute.
    constructor; [discriminate | constructor]. }
  destruct (main_raises_overflow_only 1 demo_files demo_cli W)
    as (A & _ & C).
  split; [vm_compute; reflexivity |]. split; [exact A | exact C].
Defined.
